(** * gcode-pp: layer injection and change watching

    A shallow embedding of [gcode-pp.py] and the properties of its
    layer-insertion algorithm, its rule validation and its polling loop.

    Conventions of the model.
    - Text is [string]: a sequence of 8-bit characters, read as the code
      points below 256.  A file's content is the text Python's text layer
      hands to the program (after decoding and newline translation).
    - Python integers are [Z]; the limit recent Python versions put on the
      number of digits in [int(str)] and [str(int)] is not modelled.
      Modification times are [Z] as well (only their order is used).
    - The file system is a finite map from file names to contents. *)

From Stdlib Require Import ZArith Lia Bool Ascii String List.
From stdpp Require Import gmap strings list.

Local Open Scope Z_scope.

#[local] Arguments String.append !_ _ / : simpl nomatch.

(** ** Text primitives (Python [str] methods used by the program) *)

Module Text.

Definition NL : ascii := "010"%char.

(** The one-character text ["\n"]. *)
Definition nl : string := String NL "".

Fixpoint drop (n : nat) (s : string) : string :=
  match n, s with
  | O, _ => s
  | S _, EmptyString => EmptyString
  | S n', String _ s' => drop n' s'
  end.

(** [sub in s]: some suffix of [s] starts with [sub]. *)
Fixpoint contains (sub s : string) : bool :=
  String.prefix sub s ||
  match s with
  | EmptyString => false
  | String _ s' => contains sub s'
  end.

(** [s.replace(old, new, 1)]: the leftmost occurrence of [old], if any, is
    replaced; with no occurrence [s] is returned as it is. *)
Fixpoint replace_first (old new s : string) : string :=
  if String.prefix old s then new +:+ drop (String.length old) s
  else match s with
       | EmptyString => EmptyString
       | String c s' => String c (replace_first old new s')
       end.

(** [s.split(c)] for a one-character separator. *)
Fixpoint split_on (c : ascii) (s : string) : list string :=
  match s with
  | EmptyString => [EmptyString]
  | String a s' =>
      if Ascii.eqb a c then EmptyString :: split_on c s'
      else match split_on c s' with
           | [] => [String a EmptyString]
           | f :: fs => String a f :: fs
           end
  end.

(** Iterating a text stream: the text is cut after every ["\n"]; a last
    piece without ["\n"] is a line too. *)
Fixpoint readlines (s : string) : list string :=
  match s with
  | EmptyString => []
  | String a s' =>
      if Ascii.eqb a NL then String a EmptyString :: readlines s'
      else match readlines s' with
           | [] => [String a EmptyString]
           | l :: ls => String a l :: ls
           end
  end.

(** What [file.write] does when called once per piece. *)
Fixpoint concat (ls : list string) : string :=
  match ls with
  | [] => EmptyString
  | l :: ls' => l +:+ concat ls'
  end.

(** Number of ["\n"] characters. *)
Fixpoint newlines (s : string) : nat :=
  match s with
  | EmptyString => O
  | String a s' => (if Ascii.eqb a NL then 1 else 0) + newlines s'
  end.

(** Number of lines of a text, as a line iterator counts them. *)
Definition line_count (s : string) : nat := length (readlines s).

Fixpoint last_char (s : string) : option ascii :=
  match s with
  | EmptyString => None
  | String a s' =>
      match last_char s' with
      | None => Some a
      | Some b => Some b
      end
  end.

(** 1 when the text ends in the middle of a line, 0 otherwise. *)
Definition open_end (s : string) : nat :=
  match last_char s with
  | Some c => if Ascii.eqb c NL then O else 1%nat
  | None => O
  end.

(** Every character of [s] satisfies [P]. *)
Fixpoint all_chars (P : ascii -> bool) (s : string) : bool :=
  match s with
  | EmptyString => true
  | String a s' => P a && all_chars P s'
  end.

Definition differs (c : ascii) (a : ascii) : bool := negb (Ascii.eqb a c).

End Text.

(** ** Python's [int(str)] and [str(int)] *)

Module PyInt.

(** White space for [int()] among the code points below 256: TAB..CR and
    space, and the two non-ASCII ones, NEL and NBSP, which [int()] turns
    into spaces first. *)
Definition is_space (a : ascii) : bool :=
  let n := nat_of_ascii a in
  ((9 <=? n) && (n <=? 13) || (n =? 32) || (n =? 133) || (n =? 160))%nat.

Fixpoint lstrip (s : string) : string :=
  match s with
  | EmptyString => EmptyString
  | String a s' => if is_space a then lstrip s' else s
  end.

Fixpoint rstrip (s : string) : string :=
  match s with
  | EmptyString => EmptyString
  | String a s' =>
      match rstrip s' with
      | EmptyString => if is_space a then EmptyString else String a EmptyString
      | t => String a t
      end
  end.

Definition digit_val (a : ascii) : option Z :=
  let n := nat_of_ascii a in
  if ((48 <=? n) && (n <=? 57))%nat then Some (Z.of_nat (n - 48)) else None.

(** Decimal digits, with single underscores allowed between two digits. *)
Fixpoint parse_digits (acc : Z) (s : string) : option Z :=
  match s with
  | EmptyString => None
  | String a s' =>
      match digit_val a with
      | None => None
      | Some d =>
          let acc' := 10 * acc + d in
          match s' with
          | EmptyString => Some acc'
          | String b s'' =>
              if Ascii.eqb b "_" then parse_digits acc' s''
              else parse_digits acc' s'
          end
      end
  end.

(** [int(s)]; [None] stands for [ValueError]. *)
Definition py_int (s : string) : option Z :=
  match rstrip (lstrip s) with
  | EmptyString => None
  | String a r as t =>
      if Ascii.eqb a "-" then Z.opp <$> parse_digits 0 r
      else if Ascii.eqb a "+" then parse_digits 0 r
      else parse_digits 0 t
  end.

Definition is_digit (a : ascii) : bool :=
  match digit_val a with Some _ => true | None => false end.

(** The value of a run of digits read after [acc]. *)
Fixpoint digits_value (acc : Z) (s : string) : Z :=
  match s with
  | EmptyString => acc
  | String a s' =>
      match digit_val a with
      | Some d => digits_value (10 * acc + d) s'
      | None => acc
      end
  end.

Definition digit_char (d : Z) : ascii := ascii_of_nat (48 + Z.to_nat d).

(** The decimal digits of [n >= 0], most significant first, put in front
    of [acc]; [fuel] bounds the number of digits after the first. *)
Fixpoint str_digits (fuel : nat) (n : Z) (acc : string) : string :=
  let acc' := String (digit_char (n mod 10)) acc in
  match fuel with
  | O => acc'
  | S f => if n <? 10 then acc' else str_digits f (n / 10) acc'
  end.

Definition is_sign_or_digit (a : ascii) : bool := is_digit a || Ascii.eqb a "-".

(** [str(n)]. *)
Definition py_str (n : Z) : string :=
  if n <? 0 then String "-" (str_digits (Z.to_nat (Z.log2 (- n))) (- n) "")
  else str_digits (Z.to_nat (Z.log2 n)) n "".

End PyInt.

Import Text PyInt.

(** ** [os.path.splitext] (POSIX flavour) *)

Module Path.

Fixpoint take (n : nat) (s : string) : string :=
  match n, s with
  | O, _ => EmptyString
  | S _, EmptyString => EmptyString
  | S n', String a s' => String a (take n' s')
  end.

(** [p.rfind(c)], counting positions from [i]; [-1] when [c] is absent. *)
Fixpoint rfind_from (c : ascii) (p : string) (i : Z) : Z :=
  match p with
  | EmptyString => -1
  | String a p' =>
      let r := rfind_from c p' (i + 1) in
      if 0 <=? r then r else if Ascii.eqb a c then i else -1
  end.

Definition rfind (c : ascii) (p : string) : Z := rfind_from c p 0.

(** The loop that skips the leading dots of the last component: [true]
    when a character other than a dot occurs in
    [filenameIndex .. dotIndex - 1]. *)
Fixpoint has_stem (fuel : nat) (p : string) (filenameIndex dotIndex : Z) : bool :=
  match fuel with
  | O => false
  | S f =>
      if filenameIndex <? dotIndex then
        match String.get (Z.to_nat filenameIndex) p with
        | Some a =>
            if Ascii.eqb a "." then has_stem f p (filenameIndex + 1) dotIndex
            else true
        | None => true
        end
      else false
  end.

Definition splitext (p : string) : string * string :=
  let sepIndex := rfind "/" p in
  let dotIndex := rfind "." p in
  if (sepIndex <? dotIndex) && has_stem (String.length p) p (sepIndex + 1) dotIndex
  then (take (Z.to_nat dotIndex) p, drop (Z.to_nat dotIndex) p)
  else (p, EmptyString).

End Path.

(** ** Data model *)

(** One entry of a rules document: [{layer: <int>, code: <str>}]. *)
Record Rule := { layer : Z; code : string }.

(** The exceptions the program raises or lets through. *)
Inductive exn :=
| FileNotFoundError (filename : string)
| NameError (msg : string)
| ValueError (msg : string)
| TypeError
| LoaderError.

Inductive result (A : Type) :=
| Ok (a : A)
| Raise (e : exn).
Arguments Ok {A} a.
Arguments Raise {A} e.

(** Effects on files, in the order they happen. *)
Inductive event :=
| EvOpen (filename : string)
| EvClose (filename : string)
| EvCreate (filename : string)
| EvWrite (filename : string) (data : string).

(** A [GCodePP] object. [watcher] tells whether a watcher is attached. *)
Record GCodePP := {
  code_filename : string;
  output_filename : option string;
  watcher : bool;
  rule_ids : list string
}.

Record State := {
  self : GCodePP;
  files : gmap string string;
  trace : list event
}.

(** ** A state and exception monad for the program's effects *)

Definition M (A : Type) : Type := State -> result A * State.

Definition ret {A} (a : A) : M A := fun st => (Ok a, st).

Definition raise {A} (e : exn) : M A := fun st => (Raise e, st).

Definition bind {A B} (m : M A) (k : A -> M B) : M B :=
  fun st =>
    match m st with
    | (Ok a, st') => k a st'
    | (Raise e, st') => (Raise e, st')
    end.

Notation "'let*' x ':=' m 'in' k" := (bind m (fun x => k))
  (at level 10, x name, m at level 100, k at level 200).
Notation "'run' m 'then' k" := (bind m (fun _ => k))
  (at level 10, m at level 100, k at level 200).

(** [try: m finally: fin]. *)
Definition try_finally {A} (m : M A) (fin : M unit) : M A :=
  fun st =>
    let '(r, st') := m st in
    match fin st' with
    | (Ok _, st'') => (r, st'')
    | (Raise e, st'') => (Raise e, st'')
    end.

(** [try: m except FileNotFoundError: handler]. *)
Definition except_FileNotFoundError {A} (m : M A) (handler : M A) : M A :=
  fun st =>
    match m st with
    | (Raise (FileNotFoundError _), st') => handler st'
    | other => other
    end.

Definition lift {A} (r : result A) : M A := fun st => (r, st).

Definition emit (e : event) : M unit :=
  fun st => (Ok tt, {| self := self st; files := files st; trace := trace st ++ [e] |}).

Definition get_self : M GCodePP := fun st => (Ok (self st), st).

Definition set_self (g : GCodePP) : M unit :=
  fun st => (Ok tt, {| self := g; files := files st; trace := trace st |}).

(** [open(filename)]: the content is returned with the handle. *)
Definition open_read (filename : string) : M string :=
  fun st =>
    match files st !! filename with
    | None => (Raise (FileNotFoundError filename), st)
    | Some content => (run emit (EvOpen filename) then ret content) st
    end.

(** [open(filename, 'w+')]: the file is created, or emptied. *)
Definition open_write (filename : string) : M unit :=
  fun st =>
    (Ok tt, {| self := self st;
               files := <[filename := EmptyString]> (files st);
               trace := trace st ++ [EvCreate filename] |}).

(** [out.write(data)]. *)
Definition write (filename data : string) : M unit :=
  fun st =>
    (Ok tt, {| self := self st;
               files := <[filename := default EmptyString (files st !! filename) +:+ data]>
                          (files st);
               trace := trace st ++ [EvWrite filename data] |}).

(** ** class [SourceCode] *)

Record SourceCode := {
  stream : string;            (* the file the open stream reads *)
  count_layers : option Z     (* [None] is Python's [None] *)
}.

(** The body of the scanning loop for one line: [Some n] when the line
    assigns [n] to the count, [None] when an exception is swallowed. *)
Definition scan_line (code_line : string) : option Z :=
  if contains ";LAYER_COUNT:" code_line then
    match split_on ":" code_line with
    | _ :: field :: _ => py_int field
    | _ => None
    end
  else None.

Definition scan (code_lines : list string) : option Z :=
  fold_left
    (fun count code_line =>
       match scan_line code_line with
       | Some n => Some n
       | None => count
       end)
    code_lines None.

(** The sentinel as the specification words it, to compare [scan] with:
    a line is a sentinel line for [n] when it starts with [;LAYER_COUNT:]
    and the rest of the line is an integer text for [n], read as [int]
    reads it (blanks around it, the line break, a sign and leading zeros
    are accepted). *)
Definition sentinel_value (code_line : string) : option Z :=
  if String.prefix ";LAYER_COUNT:" code_line then
    py_int (drop (String.length ";LAYER_COUNT:") code_line)
  else None.

(** A line that starts with the sentinel text and has no colon after it. *)
Definition plain_sentinel (code_line : string) : bool :=
  String.prefix ";LAYER_COUNT:" code_line
  && all_chars (differs ":") (drop (String.length ";LAYER_COUNT:") code_line).

(** The [<N>] of the last sentinel line; [None] when there is none. *)
Fixpoint declared_count (code_lines : list string) : option Z :=
  match code_lines with
  | [] => None
  | code_line :: rest =>
      match declared_count rest with
      | Some n => Some n
      | None => sentinel_value code_line
      end
  end.

(** [SourceCode(open(filename))]. *)
Definition SourceCode_init (filename : string) : M SourceCode :=
  let* content := open_read filename in
  ret {| stream := filename; count_layers := scan (readlines content) |}.

(** [__iter__], after the [seek(0)]: the lines the file holds when the
    iteration runs. *)
Definition SourceCode_iter (source_code : SourceCode) : M (list string) :=
  fun st =>
    (Ok (readlines (default EmptyString (files st !! stream source_code))), st).

Definition SourceCode_close (source_code : SourceCode) : M unit :=
  emit (EvClose (stream source_code)).

(** ** class [GCodePP] *)

Definition dquote : string := String "034" EmptyString.

Definition rules_filename (rule_id : string) : string :=
  "rules[" +:+ rule_id +:+ "].yml".

Definition out_of_range_message (l : Z) : string :=
  "The layer number [" +:+ py_str l +:+ "] cannot be more than count layers".

Definition rules_not_found_message (fn : string) : string :=
  "Rules with a filename " +:+ dquote +:+ fn +:+ dquote +:+ " cannot be find".

(** [for rule in rules: if rule['layer'] >= count_layers: raise ...].
    Comparing an integer with [None] raises [TypeError]. *)
Fixpoint validate (count : option Z) (rules : list Rule) : result unit :=
  match rules with
  | [] => Ok tt
  | rule :: rest =>
      match count with
      | None => Raise TypeError
      | Some n =>
          if n <=? layer rule
          then Raise (ValueError (out_of_range_message (layer rule)))
          else validate count rest
      end
  end.

(** The marker line of layer [l]. *)
Definition marker (l : Z) : string := ";LAYER:" +:+ py_str l +:+ nl.

Definition layer_comment (rule : Rule) : string := marker (layer rule).

(** One pass of the inner loop. *)
Definition apply_rule (code_line : string) (rule : Rule) : string :=
  replace_first (layer_comment rule)
                (layer_comment rule +:+ code rule +:+ nl) code_line.

(** The inner loop: every rule in turn, on the line as rewritten so far. *)
Definition apply_rules (rules : list Rule) (code_line : string) : string :=
  fold_left apply_rule rules code_line.

(** The lines a pass of the inner loop injects into one source line: the
    lines of [code + "\n"] for every rule whose marker is found in the
    line as rewritten so far. *)
Fixpoint injected_lines (rules : list Rule) (code_line : string) : nat :=
  match rules with
  | [] => O
  | rule :: rest =>
      ((if contains (layer_comment rule) code_line
        then line_count (code rule +:+ nl) else O)
       + injected_lines rest (apply_rule code_line rule))%nat
  end.

Definition injected_total (rules : list Rule) (code_lines : list string) : nat :=
  sum_list_with (injected_lines rules) code_lines.

(** The same count when every rule is matched against the source line as
    the source has it. *)
Definition matched_lines (rules : list Rule) (code_line : string) : nat :=
  sum_list_with
    (fun rule => if contains (layer_comment rule) code_line
                 then line_count (code rule +:+ nl) else O)
    rules.

Definition matched_total (rules : list Rule) (code_lines : list string) : nat :=
  sum_list_with (matched_lines rules) code_lines.

(** The text written for a source text. *)
Definition rewrite (rules : list Rule) (content : string) : string :=
  Text.concat (map (apply_rules rules) (readlines content)).

(** The text injected for a list of rules, in the order of the list. *)
Definition injected_block (rules : list Rule) : string :=
  Text.concat (map (fun rule => code rule +:+ nl) rules).

(** The outer loop. *)
Fixpoint write_lines (out : string) (rules : list Rule) (code_lines : list string)
  : M unit :=
  match code_lines with
  | [] => ret tt
  | code_line :: rest =>
      run write out (apply_rules rules code_line) then
      write_lines out rules rest
  end.

Definition set_rule_ids (g : GCodePP) (ids : list string) : GCodePP :=
  {| code_filename := code_filename g; output_filename := output_filename g;
     watcher := watcher g; rule_ids := ids |}.

Definition set_output_filename (g : GCodePP) (f : string) : GCodePP :=
  {| code_filename := code_filename g; output_filename := Some f;
     watcher := watcher g; rule_ids := rule_ids g |}.

(** [GCodePP(code_filename, watch=watch)]. *)
Definition GCodePP_init (filename : string) (watch : bool) : GCodePP :=
  {| code_filename := filename; output_filename := None;
     watcher := watch; rule_ids := [] |}.

(** With a watcher attached, the identifier is appended unless the list
    already has it. *)
Definition remember_rule_id (rule_id : string) : M unit :=
  let* g := get_self in
  if watcher g then
    if bool_decide (rule_id ∈ rule_ids g) then ret tt
    else set_self (set_rule_ids g (rule_ids g ++ [rule_id]))
  else ret tt.

Definition resolve_output_filename : M string :=
  let* g := get_self in
  match output_filename g with
  | Some f => ret f
  | None =>
      let filename := fst (Path.splitext (code_filename g)) in
      run set_self (set_output_filename g filename) then ret filename
  end.

Definition output_name (stem rule_id : string) : string :=
  stem +:+ "[" +:+ rule_id +:+ "]" +:+ ".gcode".

Section Program.

(** The YAML loader is an external collaborator. It maps the content of a
    rules file to the list of its rules; [None] stands for any document
    the loader rejects. Documents of another shape than a sequence of
    [{layer: <int>, code: <str>}] mappings are outside the model. *)
Variable yaml_load : string -> option (list Rule).

(** The inner [try ... except FileNotFoundError] of [compile]. *)
Definition load_rules (source_code : SourceCode) (rule_id : string)
  : M (list Rule) :=
  let fn := rules_filename rule_id in
  except_FileNotFoundError
    (let* document := open_read fn in
     match yaml_load document with
     | None => raise LoaderError
     | Some rules =>
         run lift (validate (count_layers source_code) rules) then ret rules
     end)
    (raise (NameError (rules_not_found_message fn))).

(** What [compile] leaves in [self._rule_ids]. *)
Definition remembered (g : GCodePP) (rule_id : string) : GCodePP :=
  if watcher g then
    if bool_decide (rule_id ∈ rule_ids g) then g
    else set_rule_ids g (rule_ids g ++ [rule_id])
  else g.

(** The stem of the output name [compile] settles on. *)
Definition output_stem (g : GCodePP) : string :=
  default (fst (Path.splitext (code_filename g))) (output_filename g).

(** The [with open(...) as out] block. *)
Definition inject (source_code : SourceCode) (rules : list Rule) (out : string)
  : M unit :=
  run open_write out then
  try_finally
    (let* code_lines := SourceCode_iter source_code in
     write_lines out rules code_lines)
    (emit (EvClose out)).

(** [GCodePP.compile]. The console message is not modelled. *)
Definition compile (rule_id : string) : M unit :=
  run remember_rule_id rule_id then
  let* g := get_self in
  let* source_code := SourceCode_init (code_filename g) in
  try_finally
    (let* rules := load_rules source_code rule_id in
     let* stem := resolve_output_filename in
     inject source_code rules (output_name stem rule_id))
    (SourceCode_close source_code).

(** What [load_rules] returns, as a function of the file system. *)
Definition load_outcome (fs : gmap string string) (count : option Z)
    (rule_id : string) : result (list Rule) :=
  match fs !! rules_filename rule_id with
  | None => Raise (NameError (rules_not_found_message (rules_filename rule_id)))
  | Some document =>
      match yaml_load document with
      | None => Raise LoaderError
      | Some rules =>
          match validate count rules with
          | Ok _ => Ok rules
          | Raise e => Raise e
          end
      end
  end.

End Program.

(** The state in which the rules are loaded: the source has been opened. *)
Definition opened (rule_id : string) (st : State) : State :=
  {| self := remembered (self st) rule_id;
     files := files st;
     trace := trace st ++ [EvOpen (code_filename (self st))] |}.

Definition source_of (st : State) (content : string) : SourceCode :=
  {| stream := code_filename (self st);
     count_layers := scan (readlines content) |}.

(** The events of opening the rules file, if it is there. *)
Definition rules_opened (fs : gmap string string) (rule_id : string) : list event :=
  match fs !! rules_filename rule_id with
  | None => []
  | Some _ => [EvOpen (rules_filename rule_id)]
  end.

(** The text the second pass reads from the source, the output having
    been created first. *)
Definition reread (fs : gmap string string) (out src : string) : string :=
  default EmptyString (<[out := EmptyString]> fs !! src).

(** The calls of [compile] made so far on an object, whatever their
    outcome: each starts in the state the previous one left. *)
Definition compile_calls (yaml_load : string -> option (list Rule))
    (history : list string) (st : State) : State :=
  fold_left (fun st rule_id => snd (compile yaml_load rule_id st)) history st.

(** The loop of [main]: an exception ends it. *)
Fixpoint compile_all (yaml_load : string -> option (list Rule))
    (rules : list string) : M unit :=
  match rules with
  | [] => ret tt
  | rule :: rest =>
      run compile yaml_load rule then compile_all yaml_load rest
  end.

(** The state [main] starts from: a new object on the file system. *)
Definition initial (fs : gmap string string) (gcode_source_filename : string)
    (watch : bool) : State :=
  {| self := GCodePP_init gcode_source_filename watch; files := fs; trace := [] |}.

(** [main], from the parsed arguments. With [watch] the thread of the
    watcher runs beside it. *)
Definition main (yaml_load : string -> option (list Rule))
    (fs : gmap string string) (gcode_source_filename : string)
    (rules : list string) (watch : bool) : result unit * State :=
  compile_all yaml_load rules (initial fs gcode_source_filename watch).

(** The [for] loop of [Watcher.run] with the callback [GCodePP] gives it,
    its own [compile], and the list it shares with it: one round of
    recompilation. An exception ends it (and the thread). *)
Definition recompile_round (yaml_load : string -> option (list Rule)) : M unit :=
  fun st => compile_all yaml_load (rule_ids (self st)) st.

(** What the calls of [compile] in [main] keep: the names of the object,
    and the source and the rules files as they were at the start. *)
Definition kept (fs : gmap string string) (filename : string) (st : State) : Prop :=
  code_filename (self st) = filename
  /\ output_stem (self st) = fst (Path.splitext filename)
  /\ files st !! filename = fs !! filename
  /\ forall rule_id, files st !! rules_filename rule_id = fs !! rules_filename rule_id.

(** The identifiers of a call history, each kept at its first occurrence. *)
Fixpoint first_seen (seen history : list string) : list string :=
  match history with
  | [] => seen
  | rule_id :: rest =>
      if bool_decide (rule_id ∈ seen) then first_seen seen rest
      else first_seen (seen ++ [rule_id]) rest
  end.

(** ** class [Watcher]

    The thread's [run] is a transition system over its program points.
    What it shares with the other threads (the stop flag, the list of rule
    identifiers, the file's modification time) can change between any two
    of its steps. *)

Module Watcher.

Inductive pc :=
| AtCheck                                 (* [if self._stopped] *)
| AtStat                                  (* [os.stat(...).st_mtime] *)
| InLoop (modified_time : Z) (i : nat)    (* [for rule_id in self._rule_ids], next index [i] *)
| AtSleep                                 (* [time.sleep(1)] *)
| Done                                    (* after [break] *)
| Crashed.                                (* an exception left [run] *)

Record Thread := {
  at_pc : pc;
  started_time : option Z
}.

Record Shared := {
  stopped : bool;                 (* [Watcher._stopped] *)
  ids : list string;              (* the list object [_rule_ids] *)
  mtime : option Z                (* [None]: the file is missing *)
}.

Inductive event :=
| Call (rule_id : string)         (* [self._target(rule_id)] is invoked *)
| Sleep.

(** One step of the thread. [returns] tells whether a callback invoked in
    this step returns normally (otherwise it raises). *)
Definition step (returns : bool) (sh : Shared) (th : Thread) : Thread * list event :=
  match at_pc th with
  | AtCheck =>
      if stopped sh then ({| at_pc := Done; started_time := started_time th |}, [])
      else ({| at_pc := AtStat; started_time := started_time th |}, [])
  | AtStat =>
      match mtime sh with
      | None => ({| at_pc := Crashed; started_time := started_time th |}, [])
      | Some modified_time =>
          match started_time th with
          | None => ({| at_pc := AtSleep; started_time := Some modified_time |}, [])
          | Some t =>
              if t <? modified_time
              then ({| at_pc := InLoop modified_time 0; started_time := Some t |}, [])
              else ({| at_pc := AtSleep; started_time := Some t |}, [])
          end
      end
  | InLoop modified_time i =>
      match ids sh !! i with
      | Some rule_id =>
          if returns
          then ({| at_pc := InLoop modified_time (S i);
                   started_time := started_time th |}, [Call rule_id])
          else ({| at_pc := Crashed; started_time := started_time th |},
                [Call rule_id])
      | None => ({| at_pc := AtSleep; started_time := Some modified_time |}, [])
      end
  | AtSleep => ({| at_pc := AtCheck; started_time := started_time th |}, [Sleep])
  | Done => (th, [])
  | Crashed => (th, [])
  end.

(** What can happen next in the process. *)
Inductive action :=
| Tick (returns : bool)           (* the watcher thread takes a step *)
| Stop                            (* [Watcher.stop()] *)
| Remember (rule_id : string)     (* [compile] records a rule identifier *)
| Touch (m : option Z).           (* the source file is rewritten or removed *)

Definition act (a : action) (s : Shared * Thread) : (Shared * Thread) * list event :=
  let '(sh, th) := s in
  match a with
  | Tick returns => let '(th', evs) := step returns sh th in ((sh, th'), evs)
  | Stop => (({| stopped := true; ids := ids sh; mtime := mtime sh |}, th), [])
  | Remember rule_id =>
      (({| stopped := stopped sh;
           ids := if bool_decide (rule_id ∈ ids sh) then ids sh
                  else ids sh ++ [rule_id];
           mtime := mtime sh |}, th), [])
  | Touch m => (({| stopped := stopped sh; ids := ids sh; mtime := m |}, th), [])
  end.

Fixpoint exec (schedule : list action) (s : Shared * Thread)
  : (Shared * Thread) * list event :=
  match schedule with
  | [] => (s, [])
  | a :: rest =>
      let '(s', evs) := act a s in
      let '(s'', evs') := exec rest s' in
      (s'', evs ++ evs')
  end.

(** The thread as [start()] leaves it. *)
Definition init : Thread := {| at_pc := AtCheck; started_time := None |}.

Definition is_call (e : event) : bool :=
  match e with Call _ => true | Sleep => false end.

Definition finished (th : Thread) : bool :=
  match at_pc th with Done | Crashed => true | _ => false end.

(** What the thread may still emit once the stop flag is set, by program
    point: nothing at the flag check and after the loop has ended; one
    [Sleep] while it sleeps; inside an iteration, the calls of that
    iteration and then one [Sleep]. *)
Definition after_stop (p : pc) (evs : list event) : Prop :=
  match p with
  | AtCheck | Done | Crashed => evs = []
  | AtSleep => evs = [] \/ evs = [Sleep]
  | AtStat | InLoop _ _ =>
      exists calls, Forall (fun e => is_call e = true) calls
                    /\ (evs = calls \/ evs = calls ++ [Sleep])
  end.

(** A bound on the steps the thread takes before it ends, once the stop
    flag is set. *)
Definition steps_left (sh : Shared) (th : Thread) : nat :=
  match at_pc th with
  | AtCheck => 1
  | AtStat => length (ids sh) + 4
  | InLoop _ i => (length (ids sh) - i) + 3
  | AtSleep => 2
  | Done | Crashed => 0
  end.

(** A thread that has not yet slept in its first iteration, is sleeping,
    or has ended. *)
Definition before_first_call (th : Thread) : Prop :=
  finished th = true
  \/ at_pc th = AtSleep
  \/ (started_time th = None /\ (at_pc th = AtCheck \/ at_pc th = AtStat)).

(** Inside the loop the recorded time is older than the observed one. *)
Definition sane (th : Thread) : Prop :=
  match at_pc th with
  | InLoop modified_time _ =>
      exists t, started_time th = Some t /\ t < modified_time
  | _ => True
  end.

(** Outside the loop. *)
Definition idle (th : Thread) : Prop :=
  match at_pc th with
  | InLoop _ _ => False
  | _ => True
  end.

End Watcher.

(** ** Sample data for the concrete cases *)

Definition sample_source : string :=
  ";LAYER_COUNT:2" +:+ nl +:+ ";LAYER:0" +:+ nl +:+ "A" +:+ nl
  +:+ ";LAYER:1" +:+ nl +:+ "B" +:+ nl.

Definition sample_output : string :=
  ";LAYER_COUNT:2" +:+ nl +:+ ";LAYER:0" +:+ nl +:+ "A" +:+ nl
  +:+ ";LAYER:1" +:+ nl +:+ "PAUSE" +:+ nl +:+ "B" +:+ nl.

Definition pause_rule : Rule := {| layer := 1; code := "PAUSE" |}.

(** A loader that knows one document. *)
Definition sample_loader (rules : list Rule) (document : string)
  : option (list Rule) :=
  if String.eqb document "rules" then Some rules else None.

Definition sample_state (watch : bool) : State :=
  {| self := GCodePP_init "model.gcode" watch;
     files := {[ "model.gcode" := sample_source; "rules[pause].yml" := "rules" ]};
     trace := [] |}.

(** Two rules for layer 3 and a source with one marker line of layer 3. *)
Definition two_rules : list Rule :=
  [ {| layer := 3; code := "A" |}; {| layer := 3; code := "B" |} ].

Definition two_rules_state : State :=
  {| self := GCodePP_init "model.gcode" false;
     files := {[ "model.gcode" :=
                   ";LAYER_COUNT:4" +:+ nl +:+ ";LAYER:3" +:+ nl +:+ "G1" +:+ nl;
                 "rules[r].yml" := "rules" ]};
     trace := [] |}.

(** A loader that knows two documents, and a file system with both. *)
Definition two_docs_loader (document : string) : option (list Rule) :=
  if String.eqb document "a" then Some [ {| layer := 0; code := "M0" |} ]
  else if String.eqb document "b" then Some [ {| layer := 1; code := "M1" |} ]
  else if String.eqb document "c" then Some [ {| layer := 2; code := "M2" |} ]
  else None.

Definition two_docs_fs : gmap string string :=
  {[ "model.gcode" := sample_source; "rules[a].yml" := "a";
     "rules[b].yml" := "b"; "rules[c].yml" := "c" ]}.

(** A watching object after [main] has compiled two rule identifiers,
    the source having been rewritten since. *)
Definition changed_source : string :=
  ";LAYER_COUNT:2" +:+ nl +:+ ";LAYER:0" +:+ nl +:+ "C" +:+ nl
  +:+ ";LAYER:1" +:+ nl +:+ "D" +:+ nl.

Definition watched_state : State :=
  let st := snd (main two_docs_loader two_docs_fs "model.gcode" ["a"; "b"] true) in
  {| self := self st;
     files := <["model.gcode" := changed_source]> (files st);
     trace := trace st |}.

(** A source without layer count. *)
Definition no_count_state : State :=
  {| self := GCodePP_init "model.gcode" false;
     files := {[ "model.gcode" := ";LAYER:0" +:+ nl +:+ "G1" +:+ nl;
                 "rules[r].yml" := "rules" ]};
     trace := [] |}.

(** A watching object and the state shared with its thread after the
    calls [compile("a")], [compile("b")], [compile("a")]. *)
Definition watched_ids : list string :=
  rule_ids (self (compile_calls (sample_loader [pause_rule]) ["a"; "b"; "a"]
                    (sample_state true))).

Definition watched (m : Z) : Watcher.Shared :=
  {| Watcher.stopped := false; Watcher.ids := watched_ids; Watcher.mtime := Some m |}.

(** * Properties *)

(** ** The primitives on small inputs *)

Example py_str_samples :
  py_str 0 = "0"%string /\ py_str 7 = "7"%string /\ py_str 10 = "10"%string
  /\ py_str 1234567890 = "1234567890"%string /\ py_str (-305) = "-305"%string.
Proof. repeat split; reflexivity. Qed.

Example py_int_samples :
  py_int ("2" +:+ nl) = Some 2 /\ py_int " +1_000 " = Some 1000
  /\ py_int "-07" = Some (-7) /\ py_int "1__0" = None /\ py_int "" = None
  /\ py_int "- 5" = None /\ py_int "5 ;LAYER_COUNT" = None.
Proof. repeat split; reflexivity. Qed.

Example readlines_samples :
  readlines ("a" +:+ nl +:+ "b") = ["a" +:+ nl; "b"%string]
  /\ readlines ("a" +:+ nl) = ["a" +:+ nl] /\ readlines "" = []
  /\ split_on ":" ";LAYER_COUNT:2" = [";LAYER_COUNT"%string; "2"%string]
  /\ replace_first "ab" "X" "cababd" = "cXabd"%string
  /\ replace_first "ab" "X" "cd" = "cd"%string
  /\ replace_first "" "X" "cd" = "Xcd"%string.
Proof. repeat split; reflexivity. Qed.

Example splitext_samples :
  Path.splitext "a/b.c/x.tar.gz" = ("a/b.c/x.tar", ".gz")%string
  /\ Path.splitext "a/b.c/.hidden" = ("a/b.c/.hidden", "")%string
  /\ Path.splitext "..a" = ("..a", "")%string
  /\ Path.splitext "a.b/c" = ("a.b/c", "")%string.
Proof. repeat split; reflexivity. Qed.

Example scan_samples :
  scan [ ";LAYER_COUNT:2" +:+ nl; ";LAYER:0" +:+ nl ] = Some 2
  /\ scan [ ";LAYER:0" +:+ nl ] = None
  /\ scan [ ";LAYER_COUNT:x" +:+ nl ] = None
  /\ scan [ ";LAYER_COUNT:2" +:+ nl; ";LAYER_COUNT: 3 " +:+ nl ] = Some 3.
Proof. repeat split; reflexivity. Qed.


(** ** Facts about text *)

Module TextFacts.

Lemma app_nil_r (s : string) : s +:+ "" = s.
Proof. induction s as [|a s IH]; simpl; [reflexivity | now rewrite IH]. Qed.

Lemma app_assoc (s t u : string) : (s +:+ t) +:+ u = s +:+ (t +:+ u).
Proof. induction s as [|a s IH]; simpl; [reflexivity | now rewrite IH]. Qed.

Lemma length_app (s t : string) :
  String.length (s +:+ t) = (String.length s + String.length t)%nat.
Proof. induction s as [|a s IH]; simpl; [reflexivity | now rewrite IH]. Qed.

Lemma prefix_app (p s : string) : String.prefix p (p +:+ s) = true.
Proof.
  induction p as [|a p IH]; simpl.
  - now destruct s.
  - destruct (ascii_dec a a) as [_|Hne]; [exact IH | now destruct Hne].
Qed.

Lemma prefix_inv (p s : string) :
  String.prefix p s = true -> exists t, s = p +:+ t.
Proof.
  revert s; induction p as [|a p IH]; intros s H.
  - now exists s.
  - destruct s as [|b s]; simpl in H; [discriminate|].
    destruct (ascii_dec a b) as [->|]; [|discriminate].
    destruct (IH _ H) as [t ->]. now exists t.
Qed.

Lemma prefix_cons (a b : ascii) (p s : string) :
  String.prefix (String a p) (String b s) = Ascii.eqb a b && String.prefix p s.
Proof.
  simpl. destruct (ascii_dec a b) as [->|Hne].
  - now rewrite Ascii.eqb_refl.
  - now apply Ascii.eqb_neq in Hne as ->.
Qed.

Lemma drop_app (p s : string) : drop (String.length p) (p +:+ s) = s.
Proof. induction p as [|a p IH]; simpl; [now destruct s | exact IH]. Qed.

Lemma replace_first_prefix (old new s : string) :
  replace_first old new (old +:+ s) = new +:+ s.
Proof.
  destruct old as [|a old]; simpl.
  - now destruct s.
  - destruct (ascii_dec a a) as [_|Hne]; [|now destruct Hne].
    now rewrite prefix_app, drop_app.
Qed.

Lemma contains_prefix (p s : string) :
  String.prefix p s = true -> contains p s = true.
Proof. intros H. destruct s; simpl in *; now rewrite H. Qed.

Lemma replace_first_absent (old new s : string) :
  contains old s = false -> replace_first old new s = s.
Proof.
  induction s as [|a s IH]; simpl; intros H.
  - apply orb_false_iff in H as [-> _]. reflexivity.
  - apply orb_false_iff in H as [H1 H2].
    change (match old with
            | "" => true
            | String a0 s1' => if ascii_dec a0 a then String.prefix s1' s else false
            end) with (String.prefix old (String a s)) in *.
    rewrite H1. now rewrite IH.
Qed.

Lemma contains_app_r (p t s : string) :
  contains p s = true -> contains p (t +:+ s) = true.
Proof.
  intros H. induction t as [|a t IH]; simpl; [exact H|].
  rewrite IH. apply orb_true_r.
Qed.

Lemma prefix_app_l (p q s : string) :
  String.prefix (p +:+ q) s = true -> String.prefix p s = true.
Proof.
  revert s; induction p as [|a p IH]; intros s H.
  - now destruct s.
  - destruct s as [|b s]; [discriminate|].
    change (String a p +:+ q) with (String a (p +:+ q)) in H.
    rewrite prefix_cons in *. apply andb_true_iff in H as [-> H].
    simpl. now apply IH.
Qed.

Lemma contains_app_l (p q s : string) :
  contains (p +:+ q) s = true -> contains p s = true.
Proof.
  induction s as [|a s IH]; intros H.
  - unfold contains in *. apply orb_true_iff in H as [H|H]; [|discriminate].
    now rewrite (prefix_app_l _ _ _ H).
  - change (String.prefix (p +:+ q) (String a s) || contains (p +:+ q) s = true) in H.
    change (String.prefix p (String a s) || contains p s = true).
    apply orb_true_iff in H as [H|H].
    + now rewrite (prefix_app_l _ _ _ H).
    + rewrite (IH H). apply orb_true_r.
Qed.

Lemma contains_cons_absent (c : ascii) (p s : string) :
  all_chars (differs c) s = true -> contains (String c p) s = false.
Proof.
  induction s as [|a s IH]; intros H; [reflexivity|].
  change (String.prefix (String c p) (String a s) || contains (String c p) s = false).
  simpl in H. apply andb_true_iff in H as [Ha Hs].
  rewrite prefix_cons, (IH Hs). unfold differs in Ha.
  apply negb_true_iff in Ha. rewrite Ascii.eqb_sym, Ha. reflexivity.
Qed.

Lemma prefix_app_nl (p a b : string) :
  all_chars (differs NL) p = true ->
  String.prefix p (a +:+ String NL b) = String.prefix p a.
Proof.
  revert a; induction p as [|c p IH]; intros a H.
  - now destruct a.
  - simpl in H. apply andb_true_iff in H as [Hc Hp].
    destruct a as [|x a].
    + change ("" +:+ String NL b) with (String NL b).
      rewrite prefix_cons. unfold differs in Hc.
      apply negb_true_iff in Hc. now rewrite Hc.
    + change (String x a +:+ String NL b) with (String x (a +:+ String NL b)).
      rewrite !prefix_cons. now rewrite IH.
Qed.

Lemma contains_app_nl (p a b : string) :
  all_chars (differs NL) p = true ->
  contains p (a +:+ String NL b) = contains p a || contains p b.
Proof.
  intros Hp. induction a as [|x a IH].
  - change ("" +:+ String NL b) with (String NL b).
    change (String.prefix p (String NL b) || contains p b
            = (String.prefix p "" || false) || contains p b).
    rewrite orb_false_r. f_equal.
    change (String NL b) with ("" +:+ String NL b).
    now apply prefix_app_nl.
  - change (String x a +:+ String NL b) with (String x (a +:+ String NL b)).
    change (String.prefix p (String x (a +:+ String NL b))
              || contains p (a +:+ String NL b)
            = (String.prefix p (String x a) || contains p a) || contains p b).
    rewrite IH, <- orb_assoc. f_equal.
    change (String x (a +:+ String NL b)) with (String x a +:+ String NL b).
    now apply prefix_app_nl.
Qed.

Lemma all_chars_app (P : ascii -> bool) (s t : string) :
  all_chars P (s +:+ t) = all_chars P s && all_chars P t.
Proof.
  induction s as [|a s IH]; simpl; [reflexivity|].
  now rewrite IH, andb_assoc.
Qed.

Lemma all_chars_impl (P Q : ascii -> bool) (s : string) :
  (forall a, P a = true -> Q a = true) ->
  all_chars P s = true -> all_chars Q s = true.
Proof.
  intros HPQ. induction s as [|a s IH]; simpl; [reflexivity|].
  intros H. apply andb_true_iff in H as [Ha Hs].
  now rewrite (HPQ _ Ha), IH.
Qed.

(** Two texts without line break that are followed by a line break and
    then agree as far as the first goes are equal. *)
Lemma prefix_nl_inj (s t u v : string) :
  all_chars (differs NL) s = true ->
  all_chars (differs NL) t = true ->
  String.prefix (s +:+ String NL u) (t +:+ String NL v) = true -> s = t.
Proof.
  revert t; induction s as [|a s IH]; intros t Hs Ht H.
  - destruct t as [|b t]; [reflexivity|].
    change (String.prefix (String NL u) (String b (t +:+ String NL v)) = true) in H.
    rewrite prefix_cons in H. apply andb_true_iff in H as [H _].
    simpl in Ht. apply andb_true_iff in Ht as [Hb _].
    unfold differs in Hb. apply negb_true_iff in Hb.
    rewrite Ascii.eqb_sym in H. congruence.
  - simpl in Hs. apply andb_true_iff in Hs as [Ha Hs].
    destruct t as [|b t].
    + change (String.prefix (String a (s +:+ String NL u)) (String NL v) = true) in H.
      rewrite prefix_cons in H. apply andb_true_iff in H as [H _].
      unfold differs in Ha. apply negb_true_iff in Ha. congruence.
    + change (String.prefix (String a (s +:+ String NL u))
                (String b (t +:+ String NL v)) = true) in H.
      rewrite prefix_cons in H. apply andb_true_iff in H as [Hab H].
      apply Ascii.eqb_eq in Hab as ->.
      simpl in Ht. apply andb_true_iff in Ht as [_ Ht].
      f_equal. now apply IH.
Qed.

Lemma newlines_app (s t : string) :
  newlines (s +:+ t) = (newlines s + newlines t)%nat.
Proof. induction s as [|a s IH]; simpl; [reflexivity | rewrite IH; lia]. Qed.

Lemma last_char_app (s t : string) :
  last_char (s +:+ t) =
  match last_char t with Some c => Some c | None => last_char s end.
Proof.
  induction s as [|a s IH]; simpl.
  - now destruct (last_char t).
  - rewrite IH. now destruct (last_char t), (last_char s).
Qed.

Lemma last_char_None (s : string) : last_char s = None -> s = "".
Proof.
  destruct s as [|a s]; [reflexivity|]. simpl. now destruct (last_char s).
Qed.

Lemma readlines_nil (s : string) : readlines s = [] -> s = "".
Proof.
  destruct s as [|a s]; [reflexivity|]. simpl.
  destruct (Ascii.eqb a NL); [discriminate|].
  now destruct (readlines s).
Qed.

Lemma line_count_split (s : string) :
  line_count s = (newlines s + open_end s)%nat.
Proof.
  unfold line_count, open_end.
  induction s as [|a s IH]; [reflexivity|]. simpl.
  destruct (Ascii.eqb a NL) eqn:Ha.
  - simpl. rewrite IH. destruct (last_char s) eqn:Hl; [reflexivity|].
    now rewrite Ha.
  - destruct (readlines s) as [|l ls] eqn:Hr.
    + rewrite (readlines_nil _ Hr). simpl. now rewrite Ha.
    + change (length (String a l :: ls)) with (length (l :: ls)).
      rewrite IH. destruct (last_char s) eqn:Hl; [reflexivity|].
      apply last_char_None in Hl. subst s. discriminate.
Qed.

Lemma concat_readlines (s : string) : Text.concat (readlines s) = s.
Proof.
  induction s as [|a s IH]; [reflexivity|]. simpl.
  destruct (Ascii.eqb a NL).
  - simpl. now rewrite IH.
  - destruct (readlines s) as [|l ls]; simpl in *; now rewrite <- IH.
Qed.

Lemma newlines_concat (ls : list string) :
  newlines (Text.concat ls) = sum_list_with newlines ls.
Proof.
  induction ls as [|l ls IH]; [reflexivity|]. simpl.
  now rewrite newlines_app, IH.
Qed.

Lemma last_char_concat_map (f : string -> string) (ls : list string) :
  (forall l, last_char (f l) = last_char l) ->
  last_char (Text.concat (map f ls)) = last_char (Text.concat ls).
Proof.
  intros Hf. induction ls as [|l ls IH]; [reflexivity|]. simpl.
  now rewrite !last_char_app, IH, Hf.
Qed.

Lemma contains_nil_r (old : string) :
  contains old "" = true -> old = "".
Proof. destruct old; [reflexivity | discriminate]. Qed.

Lemma replace_first_newlines (old new s : string) :
  contains old s = true ->
  (newlines (replace_first old new s) + newlines old
   = newlines s + newlines new)%nat.
Proof.
  induction s as [|a s IH]; intros H.
  - apply contains_nil_r in H. subst old.
    change (replace_first "" new "") with (new +:+ "").
    rewrite newlines_app. simpl. lia.
  - change (replace_first old new (String a s))
      with (if String.prefix old (String a s)
            then new +:+ drop (String.length old) (String a s)
            else String a (replace_first old new s)).
    destruct (String.prefix old (String a s)) eqn:Hp.
    + destruct (prefix_inv _ _ Hp) as [t Ht]. rewrite Ht.
      rewrite drop_app, !newlines_app. lia.
    + change (String.prefix old (String a s) || contains old s = true) in H.
      rewrite Hp in H. simpl in H. specialize (IH H).
      simpl. lia.
Qed.

Lemma replace_first_last_char (old new s : string) (c : ascii) :
  last_char old = Some c -> last_char new = Some c ->
  last_char (replace_first old new s) = last_char s.
Proof.
  intros Ho Hn. induction s as [|a s IH].
  - destruct old; [discriminate | reflexivity].
  - change (replace_first old new (String a s))
      with (if String.prefix old (String a s)
            then new +:+ drop (String.length old) (String a s)
            else String a (replace_first old new s)).
    destruct (String.prefix old (String a s)) eqn:Hp.
    + destruct (prefix_inv _ _ Hp) as [t Ht]. rewrite Ht.
      rewrite drop_app, !last_char_app, Ho, Hn. reflexivity.
    + simpl. now rewrite IH.
Qed.

End TextFacts.

(** ** Facts about [int] and [str] *)

Module PyIntFacts.
Import TextFacts.

Lemma digit_val_digit_char (d : Z) :
  0 <= d < 10 -> digit_val (digit_char d) = Some d.
Proof.
  intros H.
  assert (d = 0 \/ d = 1 \/ d = 2 \/ d = 3 \/ d = 4 \/ d = 5 \/ d = 6
          \/ d = 7 \/ d = 8 \/ d = 9) as Hd by lia.
  repeat (destruct Hd as [->|Hd]; [reflexivity|]). now subst.
Qed.

Lemma is_digit_not_space (a : ascii) : is_digit a = true -> is_space a = false.
Proof.
  unfold is_digit, digit_val, is_space.
  destruct (48 <=? nat_of_ascii a)%nat eqn:H1; [|discriminate].
  destruct (nat_of_ascii a <=? 57)%nat eqn:H2; [|discriminate].
  intros _. apply Nat.leb_le in H1, H2.
  repeat match goal with
         | |- context [(?x <=? ?y)%nat] => destruct (Nat.leb_spec x y)
         | |- context [(?x =? ?y)%nat] => destruct (Nat.eqb_spec x y)
         end; simpl; try reflexivity; lia.
Qed.

Lemma is_digit_differs (c a : ascii) :
  is_digit c = false -> is_digit a = true -> Ascii.eqb a c = false.
Proof.
  intros Hc Ha. destruct (Ascii.eqb_spec a c) as [->|]; [congruence | reflexivity].
Qed.

Lemma parse_digits_run (s : string) (acc : Z) :
  all_chars is_digit s = true -> s <> "" ->
  parse_digits acc s = Some (digits_value acc s).
Proof.
  revert acc; induction s as [|a s IH]; intros acc H Hne; [congruence|].
  simpl in H. apply andb_true_iff in H as [Ha Hs].
  simpl. unfold is_digit in Ha.
  destruct (digit_val a) as [d|]; [|discriminate].
  destruct s as [|b s]; [reflexivity|].
  assert (Ascii.eqb b "_" = false) as ->.
  { apply is_digit_differs; [reflexivity|].
    simpl in Hs. now apply andb_true_iff in Hs as [-> _]. }
  now apply IH.
Qed.

Lemma digits_value_app (s t : string) (acc : Z) :
  all_chars is_digit s = true ->
  digits_value acc (s +:+ t) = digits_value (digits_value acc s) t.
Proof.
  revert acc; induction s as [|a s IH]; intros acc H; [reflexivity|].
  simpl in H. apply andb_true_iff in H as [Ha Hs]. simpl.
  unfold is_digit in Ha. destruct (digit_val a); [|discriminate].
  now apply IH.
Qed.

Lemma single_digit (d : Z) :
  0 <= d < 10 ->
  all_chars is_digit (String (digit_char d) "") = true
  /\ digits_value 0 (String (digit_char d) "") = d.
Proof.
  intros H. cbn [all_chars digits_value]. unfold is_digit.
  rewrite digit_val_digit_char by exact H. split; [reflexivity | lia].
Qed.

Lemma str_digits_spec (fuel : nat) (n : Z) (acc : string) :
  0 <= n < 10 ^ (Z.of_nat fuel + 1) ->
  exists ds, str_digits fuel n acc = ds +:+ acc
             /\ all_chars is_digit ds = true /\ ds <> ""
             /\ digits_value 0 ds = n.
Proof.
  revert n acc; induction fuel as [|f IH]; intros n acc Hn.
  - change (10 ^ (Z.of_nat 0 + 1)) with 10 in Hn.
    exists (String (digit_char n) ""). cbn [str_digits].
    rewrite (Z.mod_small n 10) by lia.
    destruct (single_digit n Hn) as [H1 H2].
    repeat split; [exact H1 | discriminate | exact H2].
  - cbn [str_digits]. destruct (Z.ltb_spec n 10) as [Hlt|Hge].
    + exists (String (digit_char n) "").
      rewrite (Z.mod_small n 10) by lia.
      destruct (single_digit n ltac:(lia)) as [H1 H2].
      repeat split; [exact H1 | discriminate | exact H2].
    + assert (0 <= n / 10 < 10 ^ (Z.of_nat f + 1)) as Hq.
      { split; [apply Z.div_pos; lia|].
        apply Z.div_lt_upper_bound; [lia|].
        replace (Z.of_nat (S f) + 1) with (Z.succ (Z.of_nat f + 1)) in Hn by lia.
        rewrite Z.pow_succ_r in Hn by lia. lia. }
      destruct (IH (n / 10) (String (digit_char (n mod 10)) acc) Hq)
        as (ds & Heq & Hds & Hne & Hval).
      exists (ds +:+ String (digit_char (n mod 10)) "").
      assert (0 <= n mod 10 < 10) as Hm by (apply Z.mod_pos_bound; lia).
      destruct (single_digit (n mod 10) Hm) as [H1 _].
      repeat split.
      * rewrite Heq, app_assoc. reflexivity.
      * rewrite all_chars_app, Hds. exact H1.
      * destruct ds; [congruence | discriminate].
      * rewrite digits_value_app by exact Hds. rewrite Hval.
        cbn [digits_value]. rewrite digit_val_digit_char by exact Hm.
        pose proof (Z.div_mod n 10). lia.
Qed.

Lemma log2_fuel (n : Z) : 0 <= n -> 0 <= n < 10 ^ (Z.of_nat (Z.to_nat (Z.log2 n)) + 1).
Proof.
  intros Hn. split; [exact Hn|].
  rewrite Z2Nat.id by apply Z.log2_nonneg.
  destruct (Z.eq_dec n 0) as [->|Hne]; [reflexivity|].
  pose proof (Z.log2_spec n ltac:(lia)) as [_ Hlt].
  pose proof (Z.log2_nonneg n).
  assert (2 ^ Z.succ (Z.log2 n) <= 10 ^ Z.succ (Z.log2 n)).
  { apply Z.pow_le_mono_l. lia. }
  unfold Z.succ in *. lia.
Qed.

(** The shape of [str(n)]: an optional minus sign and a non-empty run of
    digits whose value is the magnitude. *)
Lemma py_str_shape (n : Z) :
  exists ds, all_chars is_digit ds = true /\ ds <> ""
             /\ digits_value 0 ds = Z.abs n
             /\ py_str n = if n <? 0 then String "-" ds else ds.
Proof.
  unfold py_str. destruct (Z.ltb_spec n 0) as [Hneg|Hpos].
  - destruct (str_digits_spec _ _ "" (log2_fuel (- n) ltac:(lia)))
      as (ds & Heq & Hds & Hne & Hval).
    exists ds. rewrite Heq, app_nil_r. repeat split; try assumption. lia.
  - destruct (str_digits_spec _ _ "" (log2_fuel n Hpos))
      as (ds & Heq & Hds & Hne & Hval).
    exists ds. rewrite Heq, app_nil_r. repeat split; try assumption. lia.
Qed.

Lemma py_str_chars (n : Z) : all_chars is_sign_or_digit (py_str n) = true.
Proof.
  destruct (py_str_shape n) as (ds & Hds & _ & _ & ->).
  assert (all_chars is_sign_or_digit ds = true) as H.
  { revert Hds. apply all_chars_impl. intros a Ha.
    unfold is_sign_or_digit. now rewrite Ha. }
  destruct (n <? 0); [|exact H]. simpl. exact H.
Qed.

Lemma py_str_differs (c : ascii) (n : Z) :
  is_sign_or_digit c = false -> all_chars (differs c) (py_str n) = true.
Proof.
  intros Hc. generalize (py_str_chars n). apply all_chars_impl.
  intros a Ha. unfold differs.
  destruct (Ascii.eqb_spec a c) as [->|]; [congruence | reflexivity].
Qed.

Lemma rstrip_run (s e : string) :
  all_chars (fun a => negb (is_space a)) s = true ->
  e = "" \/ e = nl -> rstrip (s +:+ e) = s.
Proof.
  intros Hs He. induction s as [|a s IH].
  - destruct He as [->| ->]; reflexivity.
  - simpl in Hs. apply andb_true_iff in Hs as [Ha Hs].
    apply negb_true_iff in Ha. simpl. rewrite (IH Hs), Ha.
    now destruct s.
Qed.

Theorem py_int_py_str (n : Z) (e : string) :
  e = "" \/ e = nl -> py_int (py_str n +:+ e) = Some n.
Proof.
  intros He. destruct (py_str_shape n) as (ds & Hds & Hne & Hval & Hs).
  assert (all_chars (fun a => negb (is_space a)) ds = true) as Hsp.
  { revert Hds. apply all_chars_impl. intros a Ha.
    now rewrite (is_digit_not_space _ Ha). }
  unfold py_int. rewrite Hs. destruct (Z.ltb_spec n 0) as [Hneg|Hpos].
  - change (String "-" ds +:+ e) with (String "-" (ds +:+ e)).
    change (lstrip (String "-" (ds +:+ e))) with (String "-" (ds +:+ e)).
    change (String "-" (ds +:+ e)) with (String "-" ds +:+ e).
    rewrite rstrip_run; [|simpl; exact Hsp | exact He].
    change (Ascii.eqb "-" "-") with true. cbv iota.
    rewrite parse_digits_run by assumption. rewrite Hval. simpl. f_equal. lia.
  - destruct ds as [|a ds]; [congruence|].
    assert (is_digit a = true) as Ha.
    { simpl in Hds. now apply andb_true_iff in Hds as [-> _]. }
    change (String a ds +:+ e) with (String a (ds +:+ e)).
    simpl lstrip. rewrite (is_digit_not_space _ Ha).
    change (String a (ds +:+ e)) with (String a ds +:+ e).
    rewrite rstrip_run; [|exact Hsp | exact He].
    rewrite (is_digit_differs "-" a), (is_digit_differs "+" a) by (reflexivity || assumption).
    rewrite parse_digits_run by (assumption || discriminate). rewrite Hval. f_equal. lia.
Qed.

Lemma py_str_inj (n m : Z) : py_str n = py_str m -> n = m.
Proof.
  intros H. pose proof (py_int_py_str n "" (or_introl eq_refl)) as Hn.
  pose proof (py_int_py_str m "" (or_introl eq_refl)) as Hm.
  rewrite H in Hn. congruence.
Qed.

End PyIntFacts.

(** ** Facts about paths and file names *)

Module PathFacts.
Import TextFacts Path.

Lemma take_drop (k : nat) (p : string) : take k p +:+ drop k p = p.
Proof.
  revert p; induction k as [|k IH]; intros p; [reflexivity|].
  destruct p as [|a p]; [reflexivity|]. simpl. now rewrite IH.
Qed.

Lemma drop_get (k : nat) (p : string) (c : ascii) :
  String.get k p = Some c -> exists t, drop k p = String c t.
Proof.
  revert p; induction k as [|k IH]; intros p H.
  - destruct p as [|a p]; [discriminate|]. simpl in H.
    injection H as ->. now exists p.
  - destruct p as [|a p]; [discriminate|]. simpl in *. now apply IH.
Qed.

Lemma rfind_from_spec (c : ascii) (p : string) (i : Z) :
  0 <= i ->
  rfind_from c p i = -1
  \/ (i <= rfind_from c p i
      /\ String.get (Z.to_nat (rfind_from c p i - i)) p = Some c).
Proof.
  revert i; induction p as [|a p IH]; intros i Hi; [now left|].
  cbn [rfind_from].
  destruct (Z.leb_spec 0 (rfind_from c p (i + 1))) as [Hr|Hr].
  - destruct (IH (i + 1) ltac:(lia)) as [H|[H1 H2]]; [lia|].
    right. split; [lia|].
    replace (Z.to_nat (rfind_from c p (i + 1) - i))
      with (S (Z.to_nat (rfind_from c p (i + 1) - (i + 1)))) by lia.
    exact H2.
  - destruct (Ascii.eqb_spec a c) as [->|]; [|now left].
    right. split; [lia|]. now rewrite Z.sub_diag.
Qed.

(** The two parts returned by [splitext] make up the path, and the
    extension is empty or starts with a dot. *)
Lemma splitext_spec (p : string) :
  fst (splitext p) +:+ snd (splitext p) = p
  /\ (snd (splitext p) = "" \/ exists t, snd (splitext p) = String "." t).
Proof.
  unfold splitext.
  destruct ((rfind "/" p <? rfind "." p)
            && has_stem (String.length p) p (rfind "/" p + 1) (rfind "." p))
    eqn:Hc; cbn [fst snd].
  - split; [apply take_drop|]. right.
    apply andb_true_iff in Hc as [Hlt _]. apply Z.ltb_lt in Hlt.
    unfold rfind in *.
    destruct (rfind_from_spec "." p 0 ltac:(lia)) as [H|[_ H]].
    + destruct (rfind_from_spec "/" p 0 ltac:(lia)) as [H'|[H' _]]; lia.
    + rewrite Z.sub_0_r in H. now apply drop_get.
  - split; [apply app_nil_r | now left].
Qed.

Lemma output_name_not_source (p rule_id : string) :
  output_name (fst (splitext p)) rule_id <> p.
Proof.
  destruct (splitext_spec p) as [Hp Hext]. intros H.
  rewrite <- Hp in H at 2. unfold output_name in H.
  apply (inj (String.app _)) in H.
  destruct Hext as [He|[t He]]; rewrite He in H; discriminate.
Qed.

Lemma output_name_not_rules (stem rule_id rule_id' : string) :
  output_name stem rule_id <> rules_filename rule_id'.
Proof.
  intros H. apply (f_equal last_char) in H.
  unfold output_name, rules_filename in H.
  rewrite !last_char_app in H. discriminate.
Qed.

End PathFacts.

(** ** Facts about [compile] *)

Section CompileFacts.

Variable yaml_load : string -> option (list Rule).

Lemma state_eta (st : State) :
  {| self := self st; files := files st; trace := trace st |} = st.
Proof. now destruct st. Qed.

Lemma set_output_filename_id (g : GCodePP) (f : string) :
  output_filename g = Some f -> set_output_filename g f = g.
Proof. destruct g; simpl; now intros ->. Qed.

Lemma remember_rule_id_spec (rule_id : string) (st : State) :
  remember_rule_id rule_id st
  = (Ok tt, {| self := remembered (self st) rule_id;
               files := files st; trace := trace st |}).
Proof.
  unfold remember_rule_id, remembered, bind, get_self.
  destruct (watcher (self st)).
  - destruct (bool_decide (rule_id ∈ rule_ids (self st)));
      unfold ret, set_self; now rewrite ?state_eta.
  - unfold ret. now rewrite state_eta.
Qed.

Lemma remembered_code_filename (g : GCodePP) (rule_id : string) :
  code_filename (remembered g rule_id) = code_filename g.
Proof.
  unfold remembered.
  destruct (watcher g); [|reflexivity].
  now destruct (bool_decide (rule_id ∈ rule_ids g)).
Qed.

Lemma remembered_output_filename (g : GCodePP) (rule_id : string) :
  output_filename (remembered g rule_id) = output_filename g.
Proof.
  unfold remembered.
  destruct (watcher g); [|reflexivity].
  now destruct (bool_decide (rule_id ∈ rule_ids g)).
Qed.

Lemma output_stem_remembered (g : GCodePP) (rule_id : string) :
  output_stem (remembered g rule_id) = output_stem g.
Proof.
  unfold output_stem.
  now rewrite remembered_code_filename, remembered_output_filename.
Qed.

Lemma write_lines_spec (out : string) (rules : list Rule)
    (code_lines : list string) (st : State) (acc : string) :
  files st !! out = Some acc ->
  write_lines out rules code_lines st
  = (Ok tt,
     {| self := self st;
        files := <[out := acc +:+ Text.concat (map (apply_rules rules) code_lines)]>
                   (files st);
        trace := trace st ++ map (EvWrite out) (map (apply_rules rules) code_lines) |}).
Proof.
  revert st acc; induction code_lines as [|l ls IH]; intros st acc Hacc.
  - simpl. unfold ret. rewrite TextFacts.app_nil_r, app_nil_r.
    rewrite insert_id by exact Hacc. now rewrite state_eta.
  - cbn [write_lines]. unfold bind at 1. unfold write at 1.
    rewrite Hacc. cbn [default].
    erewrite IH; [|cbn [files]; apply lookup_insert_eq].
    cbn [self files trace map Text.concat].
    rewrite insert_insert_eq, TextFacts.app_assoc, <- app_assoc.
    reflexivity.
Qed.

(** The source file is missing: the exception of [open] leaves [compile]. *)
Lemma compile_source_missing (rule_id : string) (st : State) :
  files st !! code_filename (self st) = None ->
  compile yaml_load rule_id st
  = (Raise (FileNotFoundError (code_filename (self st))),
     {| self := remembered (self st) rule_id;
        files := files st; trace := trace st |}).
Proof.
  intros Hsrc. unfold compile. unfold bind at 1.
  rewrite remember_rule_id_spec. unfold bind at 1. unfold get_self at 1.
  cbn [self]. unfold bind at 1. unfold SourceCode_init, bind at 1, open_read.
  cbn [files]. rewrite remembered_code_filename, Hsrc. reflexivity.
Qed.

Lemma compile_unfold (rule_id : string) (st : State) (content : string) :
  files st !! code_filename (self st) = Some content ->
  compile yaml_load rule_id st
  = try_finally
      (let* rules := load_rules yaml_load (source_of st content) rule_id in
       let* stem := resolve_output_filename in
       inject (source_of st content) rules (output_name stem rule_id))
      (SourceCode_close (source_of st content))
      (opened rule_id st).
Proof.
  intros Hsrc. unfold compile. unfold bind at 1.
  rewrite remember_rule_id_spec. unfold bind at 1. unfold get_self at 1.
  cbn [self]. unfold bind at 1. unfold SourceCode_init, bind at 1, open_read.
  cbn [files]. rewrite remembered_code_filename, Hsrc.
  unfold bind at 1, emit at 1, ret at 1. cbn [self files trace].
  unfold ret at 1. reflexivity.
Qed.

Lemma load_rules_spec (source_code : SourceCode) (rule_id : string) (st : State) :
  load_rules yaml_load source_code rule_id st
  = (load_outcome yaml_load (files st) (count_layers source_code) rule_id,
     match files st !! rules_filename rule_id with
     | None => st
     | Some _ => {| self := self st; files := files st;
                    trace := trace st ++ [EvOpen (rules_filename rule_id)] |}
     end).
Proof.
  unfold load_rules, load_outcome, except_FileNotFoundError, bind at 1, open_read.
  destruct (files st !! rules_filename rule_id) as [document|]; [|reflexivity].
  unfold bind at 1, emit, ret at 1.
  destruct (yaml_load document) as [rules|]; [|reflexivity].
  unfold bind, lift. cbn [files].
  destruct (validate (count_layers source_code) rules) as [[]|e] eqn:Hv.
  - reflexivity.
  - destruct rules as [|r rs]; [discriminate|]. cbn [validate] in Hv.
    destruct (count_layers source_code) as [n|].
    + destruct (n <=? layer r).
      * now injection Hv as <-.
      * clear -Hv. revert Hv. induction rs as [|r' rs IH]; [discriminate|].
        cbn [validate]. destruct (n <=? layer r').
        -- now intros [= <-].
        -- exact IH.
    + now injection Hv as <-.
Qed.

(** Loading or validation fails: the exception leaves [compile] after the
    source stream is closed; no file is touched. *)
Lemma compile_failure (rule_id : string) (st : State) (content : string) (e : exn) :
  files st !! code_filename (self st) = Some content ->
  load_outcome yaml_load (files st) (scan (readlines content)) rule_id = Raise e ->
  compile yaml_load rule_id st
  = (Raise e,
     {| self := remembered (self st) rule_id;
        files := files st;
        trace := trace st ++ [EvOpen (code_filename (self st))]
                   ++ rules_opened (files st) rule_id
                   ++ [EvClose (code_filename (self st))] |}).
Proof.
  intros Hsrc Hload. rewrite (compile_unfold _ _ _ Hsrc).
  unfold try_finally, bind at 1. rewrite load_rules_spec.
  cbn [opened files source_of count_layers]. rewrite Hload.
  unfold SourceCode_close, emit, rules_opened. cbn [stream].
  unfold opened, source_of.
  destruct (files st !! rules_filename rule_id);
    cbn [self files trace stream]; now rewrite <- ?app_assoc.
Qed.

Lemma reread_ne (fs : gmap string string) (out src content : string) :
  out <> src -> fs !! src = Some content -> reread fs out src = content.
Proof.
  intros Hne Hsrc. unfold reread. rewrite lookup_insert_ne by exact Hne.
  now rewrite Hsrc.
Qed.

(** Loading and validation succeed: the output file holds the rewritten
    text. *)
Lemma compile_loaded (rule_id : string) (st : State) (content : string)
    (rules : list Rule) :
  files st !! code_filename (self st) = Some content ->
  load_outcome yaml_load (files st) (scan (readlines content)) rule_id = Ok rules ->
  let out := output_name (output_stem (self st)) rule_id in
  let text := reread (files st) out (code_filename (self st)) in
  compile yaml_load rule_id st
  = (Ok tt,
     {| self := set_output_filename (remembered (self st) rule_id)
                  (output_stem (self st));
        files := <[out := rewrite rules text]> (files st);
        trace := trace st ++ [EvOpen (code_filename (self st))]
                   ++ rules_opened (files st) rule_id
                   ++ [EvCreate out]
                   ++ map (EvWrite out) (map (apply_rules rules) (readlines text))
                   ++ [EvClose out; EvClose (code_filename (self st))] |}).
Proof.
  intros Hsrc Hload out text. rewrite (compile_unfold _ _ _ Hsrc).
  unfold try_finally, bind at 1. rewrite load_rules_spec.
  cbn [opened files source_of count_layers]. rewrite Hload.
  assert (exists document, files st !! rules_filename rule_id = Some document)
    as [document Hdoc].
  { unfold load_outcome in Hload.
    destruct (files st !! rules_filename rule_id); [eauto | discriminate]. }
  unfold rules_opened. rewrite Hdoc. unfold opened, source_of.
  cbn [self files trace stream].
  set (g1 := remembered (self st) rule_id).
  set (src := code_filename (self st)) in *.
  assert (forall tr,
    resolve_output_filename {| self := g1; files := files st; trace := tr |}
    = (Ok (output_stem (self st)),
       {| self := set_output_filename g1 (output_stem (self st));
          files := files st; trace := tr |})) as Hres.
  { intros tr. unfold resolve_output_filename, bind at 1, get_self. cbn [self].
    pose proof (output_stem_remembered (self st) rule_id) as Hstem.
    fold g1 in Hstem. unfold output_stem in Hstem |- *.
    destruct (output_filename g1) as [f|] eqn:Hf.
    - simpl in Hstem. rewrite <- Hstem. unfold ret.
      now rewrite (set_output_filename_id g1 f Hf).
    - simpl in Hstem. unfold bind, set_self, ret. cbn [self files trace].
      rewrite <- Hstem. unfold g1. now rewrite !remembered_code_filename. }
  unfold bind at 1. rewrite Hres. fold out.
  unfold inject, bind at 1, open_write. cbn [self files trace].
  unfold try_finally, bind at 1, SourceCode_iter. cbn [files stream].
  fold src. fold (reread (files st) out src). fold text.
  erewrite write_lines_spec; [|cbn [files]; apply lookup_insert_eq].
  unfold emit, SourceCode_close, emit. cbn [self files trace stream].
  rewrite insert_insert_eq. unfold rewrite. cbn [String.append].
  now rewrite <- !app_assoc.
Qed.

(** The same when the output is not the source file. *)
Lemma compile_success (rule_id : string) (st : State) (content : string)
    (rules : list Rule) :
  files st !! code_filename (self st) = Some content ->
  load_outcome yaml_load (files st) (scan (readlines content)) rule_id = Ok rules ->
  output_name (output_stem (self st)) rule_id <> code_filename (self st) ->
  compile yaml_load rule_id st
  = (Ok tt,
     {| self := set_output_filename (remembered (self st) rule_id)
                  (output_stem (self st));
        files := <[output_name (output_stem (self st)) rule_id
                   := rewrite rules content]> (files st);
        trace := trace st ++ [EvOpen (code_filename (self st))]
                   ++ rules_opened (files st) rule_id
                   ++ [EvCreate (output_name (output_stem (self st)) rule_id)]
                   ++ map (EvWrite (output_name (output_stem (self st)) rule_id))
                        (map (apply_rules rules) (readlines content))
                   ++ [EvClose (output_name (output_stem (self st)) rule_id);
                       EvClose (code_filename (self st))] |}).
Proof.
  intros Hsrc Hload Hout. rewrite (compile_loaded _ _ _ _ Hsrc Hload).
  cbv zeta. now rewrite (reread_ne _ _ _ _ Hout Hsrc).
Qed.

(** The result of [compile] in all cases. *)
Lemma compile_result (rule_id : string) (st : State) :
  fst (compile yaml_load rule_id st)
  = match files st !! code_filename (self st) with
    | None => Raise (FileNotFoundError (code_filename (self st)))
    | Some content =>
        match load_outcome yaml_load (files st) (scan (readlines content)) rule_id with
        | Ok _ => Ok tt
        | Raise e => Raise e
        end
    end.
Proof.
  destruct (files st !! code_filename (self st)) as [content|] eqn:Hsrc.
  - destruct (load_outcome yaml_load (files st) (scan (readlines content)) rule_id)
      as [rules|e] eqn:Hload.
    + now rewrite (compile_loaded _ _ _ _ Hsrc Hload).
    + now rewrite (compile_failure _ _ _ _ Hsrc Hload).
  - now rewrite (compile_source_missing _ _ Hsrc).
Qed.

(** [compile] changes the list of rule identifiers at its start only. *)
Lemma compile_rule_ids (rule_id : string) (st : State) :
  rule_ids (self (snd (compile yaml_load rule_id st)))
  = rule_ids (remembered (self st) rule_id)
  /\ watcher (self (snd (compile yaml_load rule_id st))) = watcher (self st).
Proof.
  assert (watcher (remembered (self st) rule_id) = watcher (self st)) as Hw.
  { unfold remembered. destruct (watcher (self st)) eqn:E; [|exact E].
    now destruct (bool_decide (rule_id ∈ rule_ids (self st))). }
  destruct (files st !! code_filename (self st)) as [content|] eqn:Hsrc.
  - destruct (load_outcome yaml_load (files st) (scan (readlines content)) rule_id)
      as [rules|e] eqn:Hload.
    + now rewrite (compile_loaded _ _ _ _ Hsrc Hload).
    + now rewrite (compile_failure _ _ _ _ Hsrc Hload).
  - now rewrite (compile_source_missing _ _ Hsrc).
Qed.

End CompileFacts.

(** ** Validation of the rules *)

Lemma validate_ok (n : Z) (rules : list Rule) :
  Forall (fun r => layer r < n) rules -> validate (Some n) rules = Ok tt.
Proof.
  induction 1 as [|r rs Hr _ IH]; [reflexivity|].
  cbn [validate]. destruct (Z.leb_spec n (layer r)); [lia | exact IH].
Qed.

Lemma validate_ok_inv (n : Z) (rules : list Rule) :
  validate (Some n) rules = Ok tt -> Forall (fun r => layer r < n) rules.
Proof.
  induction rules as [|r rs IH]; [constructor|].
  cbn [validate]. destruct (Z.leb_spec n (layer r)) as [Hle|Hlt]; [discriminate|].
  intros Hv. constructor; [lia | now apply IH].
Qed.

Lemma validate_first_bad (n : Z) (before after : list Rule) (rule : Rule) :
  Forall (fun r => layer r < n) before -> n <= layer rule ->
  validate (Some n) (before ++ rule :: after)
  = Raise (ValueError (out_of_range_message (layer rule))).
Proof.
  intros Hb Hr. induction Hb as [|r rs Hlt _ IH]; cbn [app validate].
  - destruct (Z.leb_spec n (layer rule)); [reflexivity | lia].
  - destruct (Z.leb_spec n (layer r)); [lia | exact IH].
Qed.

(** C5. For a declared layer count [n], a rule whose layer is [n] fails
    validation with the [ValueError] whose message names [n] (the text
    [str(n)], which reads back as [n]), while a rule whose layer is [n - 1]
    passes: the bound [layer < n] is strict. The rules before and after are
    in range. *)
Theorem C5_layer_bound_is_strict (n : Z) (before after : list Rule) (rule : Rule) :
  Forall (fun r => layer r < n) before ->
  Forall (fun r => layer r < n) after ->
  (layer rule = n ->
   validate (Some n) (before ++ rule :: after)
   = Raise (ValueError ("The layer number [" +:+ py_str n
                        +:+ "] cannot be more than count layers"))
   /\ py_int (py_str n) = Some n)
  /\ (layer rule = n - 1 ->
      validate (Some n) (before ++ rule :: after) = Ok tt).
Proof.
  intros Hb Ha. split.
  - intros Hn. split.
    + rewrite validate_first_bad by (assumption || lia). now rewrite Hn.
    + rewrite <- (TextFacts.app_nil_r (py_str n)).
      apply PyIntFacts.py_int_py_str. now left.
  - intros Hn. apply validate_ok. apply Forall_app. split; [exact Hb|].
    constructor; [lia | exact Ha].
Qed.

Lemma C5_witness :
  validate (Some 3) [ {| layer := 0; code := "G4" |}; {| layer := 3; code := "M0" |} ]
  = Raise (ValueError "The layer number [3] cannot be more than count layers")
  /\ validate (Some 3) [ {| layer := 0; code := "G4" |}; {| layer := 2; code := "M0" |} ]
     = Ok tt.
Proof.
  split.
  - apply (C5_layer_bound_is_strict 3 [ {| layer := 0; code := "G4" |} ] []
             {| layer := 3; code := "M0" |}).
    + repeat constructor.
    + constructor.
    + reflexivity.
  - apply (C5_layer_bound_is_strict 3 [ {| layer := 0; code := "G4" |} ] []
             {| layer := 2; code := "M0" |}).
    + repeat constructor.
    + constructor.
    + reflexivity.
Defined.

(** C6. When the rules file of identifier [rule_id] does not exist, the
    loader raises a [NameError] whose message names [rules[rule_id].yml];
    so does [compile] once the source is open. A missing source file
    raises another exception, [FileNotFoundError], naming the source. *)
Theorem C6_rules_not_found (yaml_load : string -> option (list Rule))
    (rule_id : string) (st : State) :
  files st !! ("rules[" +:+ rule_id +:+ "].yml") = None ->
  (forall source_code,
     load_rules yaml_load source_code rule_id st
     = (Raise (NameError ("Rules with a filename " +:+ dquote
                          +:+ ("rules[" +:+ rule_id +:+ "].yml") +:+ dquote
                          +:+ " cannot be find")), st))
  /\ (forall content,
        files st !! code_filename (self st) = Some content ->
        fst (compile yaml_load rule_id st)
        = Raise (NameError ("Rules with a filename " +:+ dquote
                            +:+ ("rules[" +:+ rule_id +:+ "].yml") +:+ dquote
                            +:+ " cannot be find")))
  /\ (files st !! code_filename (self st) = None ->
      fst (compile yaml_load rule_id st)
      = Raise (FileNotFoundError (code_filename (self st))))
  /\ (forall msg filename, NameError msg <> FileNotFoundError filename).
Proof.
  intros Hrules.
  change (files st !! rules_filename rule_id = None) in Hrules.
  change ("Rules with a filename " +:+ dquote +:+ ("rules[" +:+ rule_id
          +:+ "].yml") +:+ dquote +:+ " cannot be find")
    with (rules_not_found_message (rules_filename rule_id)).
  repeat split.
  - intros source_code. rewrite load_rules_spec.
    unfold load_outcome. now rewrite Hrules.
  - intros content Hsrc. rewrite compile_result, Hsrc.
    unfold load_outcome. now rewrite Hrules.
  - intros Hsrc. now rewrite compile_result, Hsrc.
  - discriminate.
Qed.

Lemma C6_witness :
  fst (compile (sample_loader [pause_rule]) "X" (sample_state false))
  = Raise (NameError ("Rules with a filename " +:+ dquote +:+ "rules[X].yml"
                      +:+ dquote +:+ " cannot be find")).
Proof.
  refine (proj1 (proj2 (C6_rules_not_found (sample_loader [pause_rule]) "X"
                          (sample_state false) _)) sample_source _);
    reflexivity.
Defined.

(** C7. If [compile] raises after the source was opened (a rule fails
    validation, the rules file is missing or the loader rejects it), no
    file is created or written: the file system is as before, and the
    events are the opening of the source, possibly that of the rules file,
    and the closing of the source. *)
Theorem C7_failure_writes_nothing (yaml_load : string -> option (list Rule))
    (rule_id : string) (st : State) (content : string) (e : exn) :
  files st !! code_filename (self st) = Some content ->
  fst (compile yaml_load rule_id st) = Raise e ->
  files (snd (compile yaml_load rule_id st)) = files st
  /\ trace (snd (compile yaml_load rule_id st))
     = trace st ++ [EvOpen (code_filename (self st))]
         ++ match files st !! rules_filename rule_id with
            | None => []
            | Some _ => [EvOpen (rules_filename rule_id)]
            end
         ++ [EvClose (code_filename (self st))].
Proof.
  intros Hsrc Hres. rewrite compile_result, Hsrc in Hres.
  destruct (load_outcome yaml_load (files st) (scan (readlines content)) rule_id)
    as [rules|e'] eqn:Hload; [discriminate|].
  rewrite (compile_failure _ _ _ _ _ Hsrc Hload). split; reflexivity.
Qed.

Lemma C7_witness :
  fst (compile (sample_loader [ {| layer := 2; code := "M0" |} ]) "pause"
         (sample_state false))
  = Raise (ValueError "The layer number [2] cannot be more than count layers")
  /\ files (snd (compile (sample_loader [ {| layer := 2; code := "M0" |} ]) "pause"
                   (sample_state false)))
     = files (sample_state false)
  /\ trace (snd (compile (sample_loader [ {| layer := 2; code := "M0" |} ]) "pause"
                   (sample_state false)))
     = [EvOpen "model.gcode"; EvOpen "rules[pause].yml"; EvClose "model.gcode"].
Proof.
  split; [reflexivity|].
  apply (C7_failure_writes_nothing
           (sample_loader [ {| layer := 2; code := "M0" |} ]) "pause"
           (sample_state false) sample_source
           (ValueError "The layer number [2] cannot be more than count layers"));
    reflexivity.
Defined.

(** C2. For the source [";LAYER_COUNT:2\n;LAYER:0\nA\n;LAYER:1\nB\n"] and
    the single rule [{layer: 1, code: "PAUSE"}], [compile] on a fresh
    object succeeds and the output file holds
    [";LAYER_COUNT:2\n;LAYER:0\nA\n;LAYER:1\nPAUSE\nB\n"]. *)
Theorem C2_end_to_end (yaml_load : string -> option (list Rule))
    (rule_id : string) (st : State) (document : string) :
  output_filename (self st) = None ->
  files st !! code_filename (self st)
  = Some (";LAYER_COUNT:2" +:+ nl +:+ ";LAYER:0" +:+ nl +:+ "A" +:+ nl
          +:+ ";LAYER:1" +:+ nl +:+ "B" +:+ nl) ->
  files st !! rules_filename rule_id = Some document ->
  yaml_load document = Some [ {| layer := 1; code := "PAUSE" |} ] ->
  fst (compile yaml_load rule_id st) = Ok tt
  /\ files (snd (compile yaml_load rule_id st))
       !! (fst (Path.splitext (code_filename (self st))) +:+ "[" +:+ rule_id
           +:+ "]" +:+ ".gcode")
     = Some (";LAYER_COUNT:2" +:+ nl +:+ ";LAYER:0" +:+ nl +:+ "A" +:+ nl
             +:+ ";LAYER:1" +:+ nl +:+ "PAUSE" +:+ nl +:+ "B" +:+ nl).
Proof.
  intros Hout Hsrc Hdoc Hload.
  assert (load_outcome yaml_load (files st)
            (scan (readlines sample_source)) rule_id = Ok [pause_rule]) as Hl.
  { unfold load_outcome. rewrite Hdoc, Hload. reflexivity. }
  assert (output_stem (self st) = fst (Path.splitext (code_filename (self st))))
    as Hstem by (unfold output_stem; now rewrite Hout).
  rewrite (compile_success yaml_load _ _ _ _ Hsrc Hl).
  - split; [reflexivity|]. cbn [snd files]. rewrite Hstem.
    apply lookup_insert_eq.
  - rewrite Hstem. apply PathFacts.output_name_not_source.
Qed.

Lemma C2_witness :
  fst (compile (sample_loader [pause_rule]) "pause" (sample_state false)) = Ok tt
  /\ files (snd (compile (sample_loader [pause_rule]) "pause" (sample_state false)))
       !! "model[pause].gcode"
     = Some sample_output.
Proof.
  apply (C2_end_to_end (sample_loader [pause_rule]) "pause" (sample_state false)
           "rules"); reflexivity.
Defined.

(** ** Running [compile] again *)

Section Rerun.

Variable yaml_load : string -> option (list Rule).

(** The files and the object [compile] leaves, in all cases. *)
Lemma compile_files (rule_id : string) (st : State) :
  files (snd (compile yaml_load rule_id st))
  = match files st !! code_filename (self st) with
    | None => files st
    | Some content =>
        match load_outcome yaml_load (files st) (scan (readlines content)) rule_id with
        | Ok rules =>
            <[output_name (output_stem (self st)) rule_id
              := rewrite rules
                   (reread (files st) (output_name (output_stem (self st)) rule_id)
                      (code_filename (self st)))]> (files st)
        | Raise _ => files st
        end
    end.
Proof.
  destruct (files st !! code_filename (self st)) as [content|] eqn:Hsrc.
  - destruct (load_outcome yaml_load (files st) (scan (readlines content)) rule_id)
      as [rules|e] eqn:Hload.
    + now rewrite (compile_loaded _ _ _ _ _ Hsrc Hload).
    + now rewrite (compile_failure _ _ _ _ _ Hsrc Hload).
  - now rewrite (compile_source_missing _ _ _ Hsrc).
Qed.

Lemma compile_self (rule_id : string) (st : State) :
  code_filename (self (snd (compile yaml_load rule_id st)))
  = code_filename (self st)
  /\ output_stem (self (snd (compile yaml_load rule_id st)))
     = output_stem (self st).
Proof.
  assert (forall g f, code_filename (set_output_filename g f) = code_filename g)
    as Hc by reflexivity.
  assert (forall g f, output_stem (set_output_filename g f) = f)
    as Ho by reflexivity.
  destruct (files st !! code_filename (self st)) as [content|] eqn:Hsrc.
  - destruct (load_outcome yaml_load (files st) (scan (readlines content)) rule_id)
      as [rules|e] eqn:Hload.
    + rewrite (compile_loaded _ _ _ _ _ Hsrc Hload). cbn [snd self].
      now rewrite Hc, Ho, remembered_code_filename.
    + rewrite (compile_failure _ _ _ _ _ Hsrc Hload). cbn [snd self].
      now rewrite remembered_code_filename, output_stem_remembered.
  - rewrite (compile_source_missing _ _ _ Hsrc). cbn [snd self].
    now rewrite remembered_code_filename, output_stem_remembered.
Qed.

Lemma load_outcome_ext (fs fs' : gmap string string) (count : option Z)
    (rule_id : string) :
  fs' !! rules_filename rule_id = fs !! rules_filename rule_id ->
  load_outcome yaml_load fs' count rule_id = load_outcome yaml_load fs count rule_id.
Proof. unfold load_outcome. now intros ->. Qed.

(** When the output name comes from the source name, [compile] leaves
    every file but its output as it was. *)
Lemma compile_other_files (rule_id : string) (st : State) (filename : string) :
  filename <> output_name (output_stem (self st)) rule_id ->
  files (snd (compile yaml_load rule_id st)) !! filename = files st !! filename.
Proof.
  intros Hne. rewrite compile_files.
  destruct (files st !! code_filename (self st)) as [content|]; [|reflexivity].
  destruct (load_outcome yaml_load (files st) (scan (readlines content)) rule_id);
    [|reflexivity].
  now rewrite lookup_insert_ne.
Qed.

End Rerun.

(** C4. On an object whose output name derives from the source name (as
    for every object the program creates), running [compile] a second time
    with the same rule identifier, the source and the rules file being as
    they were, gives the same result and leaves every file, the output
    included, exactly as the first run left it; and neither run changes the
    source file. *)
Theorem C4_rerun_is_stable (yaml_load : string -> option (list Rule))
    (rule_id : string) (st : State) :
  output_filename (self st) = None
  \/ output_filename (self st) = Some (fst (Path.splitext (code_filename (self st)))) ->
  let run1 := compile yaml_load rule_id st in
  let run2 := compile yaml_load rule_id (snd run1) in
  fst run2 = fst run1
  /\ files (snd run2) = files (snd run1)
  /\ files (snd run1) !! code_filename (self st) = files st !! code_filename (self st)
  /\ files (snd run2) !! code_filename (self st) = files st !! code_filename (self st).
Proof.
  intros Hdefault run1 run2.
  assert (output_stem (self st) = fst (Path.splitext (code_filename (self st))))
    as Hstem.
  { unfold output_stem. now destruct Hdefault as [-> | ->]. }
  set (src := code_filename (self st)) in *.
  set (out := output_name (output_stem (self st)) rule_id).
  assert (src <> out) as Hsrc_out.
  { unfold out. rewrite Hstem. intros E. symmetry in E.
    exact (PathFacts.output_name_not_source _ _ E). }
  assert (rules_filename rule_id <> out) as Hrules_out.
  { intros E. symmetry in E. exact (PathFacts.output_name_not_rules _ _ _ E). }
  destruct (compile_self yaml_load rule_id st) as [Hc1 Ho1].
  fold run1 in Hc1, Ho1. fold src in Hc1.
  assert (files (snd run1) !! src = files st !! src) as Hsrc1
    by (apply compile_other_files; exact Hsrc_out).
  assert (files (snd run1) !! rules_filename rule_id
          = files st !! rules_filename rule_id) as Hrules1
    by (apply compile_other_files; exact Hrules_out).
  assert (fst run2 = fst run1) as Hres.
  { unfold run2. rewrite compile_result, Hc1, Hsrc1.
    unfold run1 at 2. rewrite compile_result. fold src.
    destruct (files st !! src) as [content|]; [|reflexivity].
    now rewrite (load_outcome_ext _ _ _ _ _ Hrules1). }
  assert (files (snd run2) = files (snd run1)) as Hfiles.
  { unfold run2. rewrite compile_files, Hc1, Ho1, Hsrc1. fold out.
    destruct (files st !! src) as [content|] eqn:Hsrc; [|reflexivity].
    rewrite (load_outcome_ext _ _ _ _ _ Hrules1).
    destruct (load_outcome yaml_load (files st) (scan (readlines content)) rule_id)
      as [rules|e] eqn:Hload; [|reflexivity].
    assert (out <> src) as Hne by congruence.
    rewrite (reread_ne _ _ _ content Hne) by exact Hsrc1.
    unfold run1. rewrite compile_files. fold src out. rewrite Hsrc, Hload.
    rewrite (reread_ne _ _ _ content Hne Hsrc).
    apply insert_insert_eq. }
  repeat split; [exact Hres | exact Hfiles | exact Hsrc1 |].
  rewrite Hfiles. exact Hsrc1.
Qed.

Lemma C4_witness :
  let run1 := compile (sample_loader [pause_rule]) "pause" (sample_state true) in
  let run2 := compile (sample_loader [pause_rule]) "pause" (snd run1) in
  fst run2 = fst run1
  /\ files (snd run2) = files (snd run1)
  /\ files (snd run1) !! "model.gcode" = Some sample_source
  /\ files (snd run2) !! "model.gcode" = Some sample_source.
Proof.
  apply (C4_rerun_is_stable (sample_loader [pause_rule]) "pause" (sample_state true)).
  left. reflexivity.
Defined.

(** ** The declared layer count *)

Module ScanFacts.
Import TextFacts PyIntFacts.

Lemma split_on_absent (c : ascii) (s : string) :
  all_chars (differs c) s = true -> split_on c s = [s].
Proof.
  induction s as [|a s IH]; [reflexivity|]. simpl. intros H.
  apply andb_true_iff in H as [Ha Hs]. unfold differs in Ha.
  apply negb_true_iff in Ha. now rewrite Ha, (IH Hs).
Qed.

Lemma split_on_sep (c : ascii) (a b : string) :
  all_chars (differs c) a = true ->
  split_on c (a +:+ String c b) = a :: split_on c b.
Proof.
  induction a as [|x a IH]; intros H.
  - simpl. now rewrite Ascii.eqb_refl.
  - simpl in H. apply andb_true_iff in H as [Hx Ha]. unfold differs in Hx.
    apply negb_true_iff in Hx. simpl. now rewrite Hx, (IH Ha).
Qed.

(** On a line that starts with the sentinel text and has no further
    colon, the field read is the whole rest of the line. *)
Lemma scan_line_plain (rest : string) :
  all_chars (differs ":") rest = true ->
  scan_line (";LAYER_COUNT:" +:+ rest) = py_int rest.
Proof.
  intros H. unfold scan_line.
  rewrite (contains_prefix _ _ (prefix_app _ _)).
  change (";LAYER_COUNT:" +:+ rest) with (";LAYER_COUNT" +:+ String ":" rest).
  rewrite split_on_sep by reflexivity.
  now rewrite split_on_absent.
Qed.

(** A sentinel line sets the count to its number. *)
Lemma scan_line_sentinel (n : Z) (e : string) :
  e = "" \/ e = nl ->
  scan_line (";LAYER_COUNT:" +:+ py_str n +:+ e) = Some n.
Proof.
  intros He. unfold scan_line.
  rewrite (contains_prefix _ _ (prefix_app _ _)).
  change (";LAYER_COUNT:" +:+ py_str n +:+ e)
    with (";LAYER_COUNT" +:+ String ":" (py_str n +:+ e)).
  rewrite split_on_sep by reflexivity.
  rewrite split_on_absent.
  - now apply py_int_py_str.
  - rewrite all_chars_app, py_str_differs by reflexivity.
    now destruct He as [-> | ->].
Qed.

Lemma sentinel_value_plain (code_line : string) :
  plain_sentinel code_line = true -> scan_line code_line = sentinel_value code_line.
Proof.
  unfold plain_sentinel, sentinel_value. intros H.
  apply andb_true_iff in H as [Hp Hc]. rewrite Hp.
  destruct (prefix_inv _ _ Hp) as [rest ->]. rewrite drop_app in Hc |- *.
  now apply scan_line_plain.
Qed.

Lemma sentinel_value_contains (code_line : string) :
  contains ";LAYER_COUNT:" code_line = false -> sentinel_value code_line = None.
Proof.
  intros H. unfold sentinel_value.
  destruct (String.prefix ";LAYER_COUNT:" code_line) eqn:Hp; [|reflexivity].
  rewrite (contains_prefix _ _ Hp) in H. discriminate.
Qed.

(** The scanning loop keeps the value of the last line that sets one. *)
Lemma scan_fold (f : string -> option Z) (code_lines : list string) (count : option Z) :
  fold_left (fun count code_line =>
               match f code_line with Some n => Some n | None => count end)
            code_lines count
  = match (fix last (ls : list string) : option Z :=
             match ls with
             | [] => None
             | l :: ls' => match last ls' with Some n => Some n | None => f l end
             end) code_lines with
    | Some n => Some n
    | None => count
    end.
Proof.
  revert count; induction code_lines as [|l ls IH]; intros count; [reflexivity|].
  cbn [fold_left]. rewrite IH.
  match goal with |- context [match ?x with Some _ => _ | None => f l end] =>
    destruct x end; [reflexivity|].
  now destruct (f l).
Qed.

End ScanFacts.

(** Where every line that contains the text [;LAYER_COUNT:] starts with it
    and has no further colon, the count the source reader parses is the
    number of the last sentinel line, and it stays unset ([None]) when there
    is none. *)
Lemma scan_plain_sentinels (code_lines : list string) :
  Forall (fun code_line =>
            contains ";LAYER_COUNT:" code_line = true ->
            plain_sentinel code_line = true) code_lines ->
  scan code_lines = declared_count code_lines.
Proof.
  intros Hform. unfold scan. rewrite ScanFacts.scan_fold.
  induction Hform as [|l ls Hl _ IH]; [reflexivity|].
  cbn [declared_count]. rewrite <- IH.
  match goal with |- context [match ?x with Some _ => _ | None => scan_line l end] =>
    destruct x end; [reflexivity|].
  destruct (contains ";LAYER_COUNT:" l) eqn:Hc.
  - rewrite (ScanFacts.sentinel_value_plain _ (Hl eq_refl)).
    now destruct (sentinel_value l).
  - rewrite (ScanFacts.sentinel_value_contains _ Hc).
    unfold scan_line. now rewrite Hc.
Qed.

Example scan_plain_sentinels_samples :
  scan [ ";LAYER_COUNT:7" +:+ nl; "G1 X1" +:+ nl; ";LAYER_COUNT:012" +:+ nl ]
  = Some 12
  /\ scan [ ";LAYER_COUNT:7" +:+ nl; ";LAYER_COUNT:x" +:+ nl ] = Some 7
  /\ scan [ ";LAYER_COUNT: 12 " +:+ nl ] = Some 12
  /\ scan [ "G1 X1" +:+ nl ] = None.
Proof.
  repeat split;
    (rewrite scan_plain_sentinels;
     [reflexivity | repeat constructor; vm_compute; (discriminate || reflexivity)]).
Qed.

(** C8. The count is not always the [<N>] of the last sentinel line: the
    reader takes the text between the first and the second colon of any
    line that contains [;LAYER_COUNT:], wherever the text stands in the
    line. In the source below the only sentinel line declares 2 and the
    line after it carries the text [;LAYER_COUNT:9] behind two other
    colons; the count read is 5, which no sentinel declares, and with that
    line alone the count is 5 where no sentinel line exists. *)
Theorem C8_count_taken_from_second_field :
  let code_lines := [ ";LAYER_COUNT:2" +:+ nl; "x:5:;LAYER_COUNT:9" +:+ nl ] in
  let st := {| self := GCodePP_init "model.gcode" false;
               files := {[ "model.gcode" := concat code_lines ]};
               trace := [] |} in
  readlines (concat code_lines) = code_lines
  /\ fst (SourceCode_init "model.gcode" st)
     = Ok {| stream := "model.gcode"; count_layers := Some 5 |}
  /\ declared_count code_lines = Some 2
  /\ scan [ "x:5:;LAYER_COUNT:9" +:+ nl ] = Some 5
  /\ declared_count [ "x:5:;LAYER_COUNT:9" +:+ nl ] = None.
Proof. repeat split; reflexivity. Qed.

(** ** Injection at a marker line *)

Module InjectFacts.
Import TextFacts PyIntFacts.

Lemma prefix_app_same (p a b : string) :
  String.prefix (p +:+ a) (p +:+ b) = String.prefix a b.
Proof.
  induction p as [|c p IH]; [reflexivity|].
  change (String.prefix (String c (p +:+ a)) (String c (p +:+ b))
          = String.prefix a b).
  now rewrite prefix_cons, Ascii.eqb_refl.
Qed.

Lemma concat_app (ls ls' : list string) :
  Text.concat (ls ++ ls') = Text.concat ls +:+ Text.concat ls'.
Proof.
  induction ls as [|l ls IH]; [reflexivity|]. simpl.
  now rewrite IH, app_assoc.
Qed.

Lemma marker_shape (l : Z) (tail : string) :
  marker l +:+ tail = String ";" (("LAYER:" +:+ py_str l) +:+ String NL tail).
Proof.
  unfold marker. rewrite !app_assoc.
  change (";LAYER:" +:+ py_str l +:+ nl +:+ tail)
    with (String ";" ("LAYER:" +:+ py_str l +:+ String NL tail)).
  now rewrite <- app_assoc.
Qed.

(** The marker of another layer does not occur in a marker line followed
    by text that has no [;LAYER:] in it. *)
Lemma marker_absent (l l' : Z) (tail : string) :
  l' <> l -> contains ";LAYER:" tail = false ->
  contains (marker l') (marker l +:+ tail) = false.
Proof.
  intros Hne Htail. rewrite marker_shape.
  change (String.prefix (marker l')
            (String ";" (("LAYER:" +:+ py_str l) +:+ String NL tail))
          || contains (marker l') (("LAYER:" +:+ py_str l) +:+ String NL tail)
          = false).
  apply orb_false_iff. split.
  - rewrite <- marker_shape. unfold marker.
    rewrite !(app_assoc ";LAYER:"), prefix_app_same.
    destruct (String.prefix (py_str l' +:+ nl) ((py_str l +:+ nl) +:+ tail)) eqn:Hp;
      [|reflexivity].
    rewrite app_assoc in Hp. apply prefix_nl_inj in Hp.
    + now apply py_str_inj in Hp.
    + now apply py_str_differs.
    + now apply py_str_differs.
  - destruct (contains (marker l') (("LAYER:" +:+ py_str l) +:+ String NL tail))
      eqn:Hc; [|reflexivity].
    unfold marker in Hc. apply contains_app_l in Hc.
    rewrite contains_app_nl in Hc by reflexivity.
    rewrite Htail, orb_false_r in Hc.
    rewrite contains_cons_absent in Hc; [discriminate|].
    rewrite all_chars_app. now rewrite py_str_differs.
Qed.

(** On the marker line of layer [l], the rules of that layer put their
    blocks right after the marker, each new block in front of the earlier
    ones; the other rules leave the line alone. *)
Lemma apply_rules_marker (l : Z) (rules : list Rule) (tail : string) :
  contains ";LAYER:" tail = false ->
  Forall (fun rule => contains ";LAYER:" (code rule) = false) rules ->
  apply_rules rules (marker l +:+ tail)
  = marker l
    +:+ injected_block (rev (filter (fun rule => layer rule = l) rules))
    +:+ tail.
Proof.
  intros Htail Hcodes. revert tail Htail.
  induction Hcodes as [|r rs Hr _ IH]; intros tail Htail; [reflexivity|].
  unfold apply_rules. cbn [fold_left]. fold (apply_rules rs).
  rewrite filter_cons. destruct (decide (layer r = l)) as [Hl|Hl].
  - unfold apply_rule, layer_comment. rewrite Hl.
    rewrite replace_first_prefix, !app_assoc.
    rewrite IH.
    + cbn [rev]. unfold injected_block at 2.
      rewrite map_app, concat_app. cbn [map Text.concat].
      now rewrite !app_assoc.
    + change (code r +:+ nl +:+ tail) with (code r +:+ String NL tail).
      rewrite contains_app_nl by reflexivity. now rewrite Hr, Htail.
  - unfold apply_rule, layer_comment.
    rewrite replace_first_absent by (now apply marker_absent).
    now apply IH.
Qed.

(** A pattern whose only line break is its last character is found in
    [u + "\n" + v] either up to that line break or after it. *)
Lemma prefix_until_nl (w u v : string) :
  all_chars (differs NL) w = true ->
  String.prefix (w +:+ nl) (u +:+ String NL v) = String.prefix (w +:+ nl) (u +:+ nl).
Proof.
  revert u; induction w as [|c w IH]; intros u Hw.
  - destruct u as [|a u]; [now destruct v|].
    change (String.prefix (String NL "") (String a (u +:+ String NL v))
            = String.prefix (String NL "") (String a (u +:+ nl))).
    rewrite !prefix_cons. f_equal. now destruct (u +:+ String NL v), (u +:+ nl).
  - simpl in Hw. apply andb_true_iff in Hw as [Hc Hw].
    unfold differs in Hc. apply negb_true_iff in Hc.
    destruct u as [|a u].
    + change (String.prefix (String c (w +:+ nl)) (String NL v)
              = String.prefix (String c (w +:+ nl)) (String NL "")).
      rewrite !prefix_cons. now rewrite Hc.
    + change (String.prefix (String c (w +:+ nl)) (String a (u +:+ String NL v))
              = String.prefix (String c (w +:+ nl)) (String a (u +:+ nl))).
      rewrite !prefix_cons. now rewrite IH.
Qed.

Lemma contains_until_nl (w u v : string) :
  all_chars (differs NL) w = true ->
  contains (w +:+ nl) (u +:+ String NL v)
  = contains (w +:+ nl) (u +:+ nl) || contains (w +:+ nl) v.
Proof.
  intros Hw. induction u as [|a u IH].
  - change (String.prefix (w +:+ nl) ("" +:+ String NL v) || contains (w +:+ nl) v
            = (String.prefix (w +:+ nl) ("" +:+ nl)
               || (String.prefix (w +:+ nl) "" || false))
              || contains (w +:+ nl) v).
    rewrite (prefix_until_nl w "" v Hw). f_equal.
    assert (String.prefix (w +:+ nl) "" = false) as -> by now destruct w.
    now rewrite !orb_false_r.
  - change (String.prefix (w +:+ nl) (String a u +:+ String NL v)
            || contains (w +:+ nl) (u +:+ String NL v)
            = (String.prefix (w +:+ nl) (String a u +:+ nl)
               || contains (w +:+ nl) (u +:+ nl))
              || contains (w +:+ nl) v).
    rewrite IH, (prefix_until_nl w (String a u) v Hw). now rewrite orb_assoc.
Qed.

Lemma replace_first_decomp (old new s : string) :
  contains old s = true ->
  exists pre post, s = pre +:+ old +:+ post
                   /\ replace_first old new s = pre +:+ new +:+ post.
Proof.
  induction s as [|a s IH]; intros H.
  - apply contains_nil_r in H. subst old. now exists "", "".
  - change (replace_first old new (String a s))
      with (if String.prefix old (String a s)
            then new +:+ drop (String.length old) (String a s)
            else String a (replace_first old new s)).
    destruct (String.prefix old (String a s)) eqn:Hp.
    + destruct (prefix_inv _ _ Hp) as [t Ht]. exists "", t.
      rewrite Ht, drop_app. now split.
    + change (String.prefix old (String a s) || contains old s = true) in H.
      rewrite Hp in H. destruct (IH H) as (pre & post & Hs & Hr).
      exists (String a pre), post. rewrite Hr. split; [|reflexivity].
      now rewrite Hs at 1.
Qed.

Lemma marker_split (l : Z) : marker l = (";LAYER:" +:+ py_str l) +:+ nl.
Proof. unfold marker. now rewrite app_assoc. Qed.

Lemma marker_stem_no_nl (l : Z) :
  all_chars (differs NL) (";LAYER:" +:+ py_str l) = true.
Proof. rewrite all_chars_app. now rewrite py_str_differs. Qed.

(** Applying a rule whose code has no [;LAYER:] in it does not change
    which markers the line contains. *)
Lemma contains_marker_apply_rule (l : Z) (rule : Rule) (code_line : string) :
  contains ";LAYER:" (code rule) = false ->
  contains (marker l) (apply_rule code_line rule) = contains (marker l) code_line.
Proof.
  intros Hcode. unfold apply_rule.
  destruct (contains (layer_comment rule) code_line) eqn:Hc;
    [|now rewrite replace_first_absent].
  destruct (replace_first_decomp _ (layer_comment rule +:+ code rule +:+ nl) _ Hc)
    as (pre & post & Hs & ->).
  rewrite Hs. unfold layer_comment. rewrite (marker_split (layer rule)).
  rewrite (marker_split l).
  set (w := ";LAYER:" +:+ py_str l).
  set (m := ";LAYER:" +:+ py_str (layer rule)).
  assert (all_chars (differs NL) w = true) as Hw by apply marker_stem_no_nl.
  assert (pre +:+ (m +:+ nl) +:+ post = (pre +:+ m) +:+ String NL post) as ->.
  { now rewrite !app_assoc. }
  assert (pre +:+ ((m +:+ nl) +:+ code rule +:+ nl) +:+ post
          = (pre +:+ m) +:+ String NL (code rule +:+ String NL post)) as ->.
  { now rewrite !app_assoc. }
  rewrite !(contains_until_nl w) by exact Hw.
  assert (contains (w +:+ nl) (code rule +:+ nl) = false) as ->; [|reflexivity].
  destruct (contains (w +:+ nl) (code rule +:+ nl)) eqn:Hin; [|reflexivity].
  unfold w in Hin. rewrite app_assoc in Hin. apply contains_app_l in Hin.
  change (code rule +:+ nl) with (code rule +:+ String NL "") in Hin.
  rewrite contains_app_nl in Hin by reflexivity.
  rewrite Hcode in Hin. discriminate.
Qed.

Lemma matched_lines_apply_rule (rules : list Rule) (rule : Rule) (code_line : string) :
  contains ";LAYER:" (code rule) = false ->
  matched_lines rules (apply_rule code_line rule) = matched_lines rules code_line.
Proof.
  intros Hcode. unfold matched_lines.
  induction rules as [|r rs IH]; [reflexivity|].
  cbn [sum_list_with]. rewrite IH. unfold layer_comment at 1 3.
  now rewrite contains_marker_apply_rule.
Qed.

(** With codes that have no [;LAYER:] in them, a rule matches the line as
    rewritten so far exactly when it matches the source line. *)
Lemma injected_lines_matched (rules : list Rule) (code_line : string) :
  Forall (fun rule => contains ";LAYER:" (code rule) = false) rules ->
  injected_lines rules code_line = matched_lines rules code_line.
Proof.
  intros Hcodes. revert code_line.
  induction Hcodes as [|r rs Hr _ IH]; intros code_line; [reflexivity|].
  cbn [injected_lines]. rewrite IH, (matched_lines_apply_rule rs r _ Hr).
  reflexivity.
Qed.

Lemma injected_total_matched (rules : list Rule) (code_lines : list string) :
  Forall (fun rule => contains ";LAYER:" (code rule) = false) rules ->
  injected_total rules code_lines = matched_total rules code_lines.
Proof.
  intros Hcodes. unfold injected_total, matched_total.
  induction code_lines as [|l ls IH]; [reflexivity|].
  cbn [sum_list_with]. now rewrite IH, injected_lines_matched.
Qed.

End InjectFacts.

(** ** Line counts *)

Module CountFacts.
Import TextFacts.

Lemma last_char_marker (l : Z) : last_char (marker l) = Some NL.
Proof. unfold marker. now rewrite !last_char_app. Qed.

Lemma last_char_block (s code : string) : last_char (s +:+ code +:+ nl) = Some NL.
Proof. now rewrite !last_char_app. Qed.

Lemma line_count_block (code : string) :
  line_count (code +:+ nl) = newlines (code +:+ nl).
Proof.
  rewrite line_count_split. unfold open_end.
  change (code +:+ nl) with ("" +:+ code +:+ nl).
  rewrite (last_char_block "" code). simpl. lia.
Qed.

Lemma apply_rule_last_char (code_line : string) (rule : Rule) :
  last_char (apply_rule code_line rule) = last_char code_line.
Proof.
  unfold apply_rule, layer_comment.
  apply (replace_first_last_char _ _ _ NL).
  - apply last_char_marker.
  - apply last_char_block.
Qed.

Lemma apply_rule_newlines (code_line : string) (rule : Rule) :
  newlines (apply_rule code_line rule)
  = (newlines code_line
     + (if contains (layer_comment rule) code_line
        then line_count (code rule +:+ nl) else O))%nat.
Proof.
  unfold apply_rule.
  destruct (contains (layer_comment rule) code_line) eqn:Hc.
  - pose proof (replace_first_newlines (layer_comment rule)
                  (layer_comment rule +:+ code rule +:+ nl) code_line Hc) as H.
    rewrite newlines_app in H. rewrite line_count_block. lia.
  - rewrite replace_first_absent by exact Hc. lia.
Qed.

Lemma apply_rules_last_char (rules : list Rule) (code_line : string) :
  last_char (apply_rules rules code_line) = last_char code_line.
Proof.
  revert code_line; induction rules as [|r rs IH]; intros code_line; [reflexivity|].
  unfold apply_rules. cbn [fold_left]. fold (apply_rules rs).
  now rewrite IH, apply_rule_last_char.
Qed.

Lemma apply_rules_newlines (rules : list Rule) (code_line : string) :
  newlines (apply_rules rules code_line)
  = (newlines code_line + injected_lines rules code_line)%nat.
Proof.
  revert code_line; induction rules as [|r rs IH]; intros code_line.
  - simpl. lia.
  - unfold apply_rules. cbn [fold_left injected_lines]. fold (apply_rules rs).
    rewrite IH, apply_rule_newlines. lia.
Qed.

(** Every source line yields one output line plus the injected lines. *)
Lemma line_count_apply_rules (rules : list Rule) (code_line : string) :
  line_count (apply_rules rules code_line)
  = (line_count code_line + injected_lines rules code_line)%nat.
Proof.
  rewrite !line_count_split. unfold open_end.
  rewrite apply_rules_last_char, apply_rules_newlines. lia.
Qed.

Lemma line_count_rewrite (rules : list Rule) (content : string) :
  line_count (rewrite rules content)
  = (line_count content + injected_total rules (readlines content))%nat.
Proof.
  assert (newlines content = sum_list_with newlines (readlines content)) as Hn.
  { now rewrite <- newlines_concat, concat_readlines. }
  rewrite !line_count_split. unfold open_end, rewrite.
  rewrite (last_char_concat_map _ _ (apply_rules_last_char rules)).
  rewrite concat_readlines, newlines_concat, Hn.
  unfold injected_total. clear Hn.
  match goal with |- context [match last_char content with _ => _ end] =>
    generalize (match last_char content with
                | Some c => if Ascii.eqb c NL then O else 1%nat
                | None => O
                end) end.
  intros k. induction (readlines content) as [|l ls IH]; cbn [map sum_list_with].
  - lia.
  - rewrite apply_rules_newlines. lia.
Qed.

End CountFacts.

(** The count read from a source with one sentinel line. *)
Lemma scan_single_sentinel (before after : list string) (n : Z) (e : string) :
  e = "" \/ e = nl ->
  Forall (fun l => contains ";LAYER_COUNT:" l = false) (before ++ after) ->
  scan (before ++ (";LAYER_COUNT:" +:+ py_str n +:+ e) :: after) = Some n.
Proof.
  intros He Hrest. apply Forall_app in Hrest as [_ Hafter].
  unfold scan. rewrite fold_left_app. cbn [fold_left].
  rewrite (ScanFacts.scan_line_sentinel n e He).
  induction Hafter as [|l ls Hl _ IH]; [reflexivity|].
  cbn [fold_left]. unfold scan_line at 2. now rewrite Hl.
Qed.

(** C3. For a source with a single [;LAYER_COUNT:<n>] line and rules whose
    layers are all below [n], [compile] on a fresh object succeeds and the
    output has as many lines as the source plus, for every source line and
    every rule whose marker is found in it when the rule is applied, the
    lines of the rule's code followed by a line break. When no rule's code
    contains the text [;LAYER:], those matches are the pairs of a source
    line and a rule whose marker the source line contains. *)
Theorem C3_output_line_count (yaml_load : string -> option (list Rule))
    (rule_id : string) (st : State) (content document : string)
    (rules : list Rule) (n : Z) (before after : list string) (e : string) :
  output_filename (self st) = None ->
  files st !! code_filename (self st) = Some content ->
  readlines content = before ++ (";LAYER_COUNT:" +:+ py_str n +:+ e) :: after ->
  e = "" \/ e = nl ->
  Forall (fun l => contains ";LAYER_COUNT:" l = false) (before ++ after) ->
  files st !! rules_filename rule_id = Some document ->
  yaml_load document = Some rules ->
  Forall (fun rule => layer rule < n) rules ->
  fst (compile yaml_load rule_id st) = Ok tt
  /\ exists output,
       files (snd (compile yaml_load rule_id st))
         !! output_name (fst (Path.splitext (code_filename (self st)))) rule_id
       = Some output
       /\ line_count output
          = (line_count content + injected_total rules (readlines content))%nat
       /\ (Forall (fun rule => contains ";LAYER:" (code rule) = false) rules ->
           injected_total rules (readlines content)
           = matched_total rules (readlines content)).
Proof.
  intros Hout Hsrc Hlines He Hsingle Hdoc Hload Hrules.
  assert (load_outcome yaml_load (files st) (scan (readlines content)) rule_id
          = Ok rules) as Hl.
  { unfold load_outcome. rewrite Hdoc, Hload, Hlines.
    rewrite (scan_single_sentinel _ _ _ _ He Hsingle).
    now rewrite (validate_ok _ _ Hrules). }
  assert (output_stem (self st) = fst (Path.splitext (code_filename (self st))))
    as Hstem by (unfold output_stem; now rewrite Hout).
  rewrite (compile_success yaml_load _ _ _ _ Hsrc Hl).
  - split; [reflexivity|]. exists (rewrite rules content). split; [|split].
    + cbn [snd files]. rewrite Hstem. apply lookup_insert_eq.
    + apply CountFacts.line_count_rewrite.
    + apply InjectFacts.injected_total_matched.
  - rewrite Hstem. apply PathFacts.output_name_not_source.
Qed.

Lemma C3_witness :
  fst (compile (sample_loader [pause_rule]) "pause" (sample_state false)) = Ok tt
  /\ exists output,
       files (snd (compile (sample_loader [pause_rule]) "pause" (sample_state false)))
         !! "model[pause].gcode" = Some output
       /\ line_count output = (5 + 1)%nat
       /\ matched_total [pause_rule] (readlines sample_source) = 1%nat.
Proof.
  destruct (C3_output_line_count (sample_loader [pause_rule]) "pause"
              (sample_state false) sample_source "rules" [pause_rule] 2
              [] [ ";LAYER:0" +:+ nl; "A" +:+ nl; ";LAYER:1" +:+ nl; "B" +:+ nl ] nl
              eq_refl eq_refl eq_refl (or_intror eq_refl)
              ltac:(repeat constructor) eq_refl eq_refl
              ltac:(repeat constructor))
    as (Hok & output & Hfile & Hcount & Hmatch).
  split; [exact Hok|]. exists output. split; [exact Hfile|].
  split; [exact Hcount|]. rewrite <- Hmatch; [reflexivity | repeat constructor].
Defined.

(** C1, as amended. On a fresh object, when exactly two rules of the list
    target layer [l], no rule's code contains the text [;LAYER:], and the
    source has the marker line of layer [l], the output has, right after
    that marker line, the code of the second of the two rules and then the
    code of the first: the blocks come in the reverse of the rule order. *)
Theorem C1_same_layer_blocks (yaml_load : string -> option (list Rule))
    (rule_id : string) (st : State) (content document : string)
    (rules : list Rule) (first second : Rule) (l : Z)
    (before after : list string) :
  output_filename (self st) = None ->
  files st !! code_filename (self st) = Some content ->
  files st !! rules_filename rule_id = Some document ->
  yaml_load document = Some rules ->
  validate (scan (readlines content)) rules = Ok tt ->
  filter (fun rule => layer rule = l) rules = [first; second] ->
  Forall (fun rule => contains ";LAYER:" (code rule) = false) rules ->
  readlines content = before ++ marker l :: after ->
  files (snd (compile yaml_load rule_id st))
    !! output_name (fst (Path.splitext (code_filename (self st)))) rule_id
  = Some (Text.concat (map (apply_rules rules) before)
          +:+ (marker l +:+ code second +:+ nl +:+ code first +:+ nl)
          +:+ Text.concat (map (apply_rules rules) after)).
Proof.
  intros Hout Hsrc Hdoc Hload Hvalid Htwo Hcodes Hlines.
  assert (load_outcome yaml_load (files st) (scan (readlines content)) rule_id
          = Ok rules) as Hl.
  { unfold load_outcome. now rewrite Hdoc, Hload, Hvalid. }
  assert (output_stem (self st) = fst (Path.splitext (code_filename (self st))))
    as Hstem by (unfold output_stem; now rewrite Hout).
  rewrite (compile_success yaml_load _ _ _ _ Hsrc Hl).
  - cbn [snd files]. rewrite Hstem, lookup_insert_eq. f_equal.
    unfold rewrite. rewrite Hlines, map_app, InjectFacts.concat_app.
    cbn [map Text.concat]. do 2 f_equal.
    rewrite <- (TextFacts.app_nil_r (marker l)) at 1.
    rewrite (InjectFacts.apply_rules_marker l rules "" eq_refl Hcodes), Htwo.
    unfold injected_block. cbn [rev app map Text.concat].
    now rewrite !TextFacts.app_nil_r, !TextFacts.app_assoc.
  - rewrite Hstem. apply PathFacts.output_name_not_source.
Qed.

Lemma C1_witness :
  files (snd (compile (sample_loader two_rules) "r" two_rules_state))
    !! "model[r].gcode"
  = Some (";LAYER_COUNT:4" +:+ nl +:+ ";LAYER:3" +:+ nl +:+ "B" +:+ nl
          +:+ "A" +:+ nl +:+ "G1" +:+ nl).
Proof.
  apply (C1_same_layer_blocks (sample_loader two_rules) "r" two_rules_state
           (";LAYER_COUNT:4" +:+ nl +:+ ";LAYER:3" +:+ nl +:+ "G1" +:+ nl)
           "rules" two_rules
           {| layer := 3; code := "A" |} {| layer := 3; code := "B" |} 3
           [ ";LAYER_COUNT:4" +:+ nl ] [ "G1" +:+ nl ]).
  - reflexivity.
  - reflexivity.
  - reflexivity.
  - reflexivity.
  - reflexivity.
  - reflexivity.
  - repeat constructor.
  - reflexivity.
Defined.

(** C1, as stated, fails: with the rules [A] then [B] for layer 3, the
    output has [B] right after the marker and [A] after it, not [A] then
    [B]. *)
Lemma C1_counterexample :
  files (snd (compile (sample_loader two_rules) "r" two_rules_state))
    !! "model[r].gcode"
  = Some (";LAYER_COUNT:4" +:+ nl +:+ ";LAYER:3" +:+ nl +:+ "B" +:+ nl
          +:+ "A" +:+ nl +:+ "G1" +:+ nl)
  /\ files (snd (compile (sample_loader two_rules) "r" two_rules_state))
       !! "model[r].gcode"
     <> Some (";LAYER_COUNT:4" +:+ nl +:+ ";LAYER:3" +:+ nl +:+ "A" +:+ nl
              +:+ "B" +:+ nl +:+ "G1" +:+ nl).
Proof.
  assert (files (snd (compile (sample_loader two_rules) "r" two_rules_state))
            !! "model[r].gcode"
          = Some (";LAYER_COUNT:4" +:+ nl +:+ ";LAYER:3" +:+ nl +:+ "B" +:+ nl
                  +:+ "A" +:+ nl +:+ "G1" +:+ nl)) as H by (vm_compute; reflexivity).
  split; [exact H|]. rewrite H. intros E.
  apply (f_equal (fun o => match o with
                           | Some t => String.get 24 t
                           | None => None
                           end)) in E.
  vm_compute in E. discriminate E.
Qed.

(** ** The watcher *)

Module WatcherFacts.
Import Watcher.

Lemma exec_app (s1 s2 : list action) (s : Shared * Thread) :
  exec (s1 ++ s2) s
  = (fst (exec s2 (fst (exec s1 s))),
     snd (exec s1 s) ++ snd (exec s2 (fst (exec s1 s)))).
Proof.
  revert s; induction s1 as [|a s1 IH]; intros s.
  - simpl. now destruct (exec s2 s).
  - cbn [app exec]. destruct (act a s) as [s' evs].
    rewrite IH. destruct (exec s1 s') as [s'' evs'].
    cbn [fst snd]. destruct (exec s2 s'') as [s3 evs3].
    cbn [fst snd]. now rewrite app_assoc.
Qed.

(** The [for] loop, left alone and with callbacks that return, calls the
    remaining identifiers in order and then records the new time. *)
Lemma loop_ticks (sh : Shared) (done rest : list string) (m : Z) (t : option Z) :
  ids sh = done ++ rest ->
  exec (repeat (Tick true) (length rest + 1))
       (sh, {| at_pc := InLoop m (length done); started_time := t |})
  = ((sh, {| at_pc := AtSleep; started_time := Some m |}), map Call rest).
Proof.
  revert done; induction rest as [|x rest IH]; intros done Hids.
  - cbn [length Nat.add repeat exec act]. unfold step. cbn [at_pc].
    rewrite Hids, app_nil_r. rewrite (proj2 (lookup_ge_None _ _)) by lia.
    reflexivity.
  - cbn [length Nat.add repeat exec act]. unfold step at 1. cbn [at_pc].
    rewrite Hids, list_lookup_middle by reflexivity.
    cbn [started_time].
    replace (S (length done)) with (length (done ++ [x]))
      by (rewrite length_app; simpl; lia).
    rewrite IH by (now rewrite <- app_assoc).
    reflexivity.
Qed.

Lemma first_seen_spec (seen history : list string) :
  NoDup seen ->
  NoDup (first_seen seen history)
  /\ (forall x, x ∈ first_seen seen history <-> x ∈ seen \/ x ∈ history)
  /\ exists added, first_seen seen history = seen ++ added.
Proof.
  revert seen; induction history as [|h hs IH]; intros seen Hnd.
  - cbn [first_seen]. repeat split; [exact Hnd| | |exists []; now rewrite app_nil_r].
    + now left.
    + intros [H|H]; [exact H | inversion H].
  - cbn [first_seen]. destruct (bool_decide_reflect (h ∈ seen)) as [Hin|Hnin].
    + destruct (IH seen Hnd) as (H1 & H2 & H3). repeat split; try assumption.
      * intros H. apply H2 in H as [H|H]; [now left | right; now right].
      * intros [H|H]; apply H2; [now left|].
        apply elem_of_cons in H as [->|H]; [now left | now right].
    + assert (NoDup (seen ++ [h])) as Hnd'.
      { apply NoDup_app. repeat split; [exact Hnd | | apply NoDup_singleton].
        intros x Hx Hx'. apply list_elem_of_singleton in Hx'. now subst. }
      destruct (IH (seen ++ [h]) Hnd') as (H1 & H2 & [added H3]).
      repeat split; try assumption.
      * intros H. apply H2 in H as [H|H].
        -- apply elem_of_app in H as [H|H]; [now left|].
           apply list_elem_of_singleton in H. subst. right. now left.
        -- right. now right.
      * intros [H|H]; apply H2.
        -- left. apply elem_of_app. now left.
        -- apply elem_of_cons in H as [->|H]; [|now right].
           left. apply elem_of_app. right. now apply list_elem_of_singleton.
      * exists ([h] ++ added). now rewrite H3, <- app_assoc.
Qed.

(** With a watcher attached, the list of rule identifiers after a history
    of [compile] calls holds the identifiers in the order first seen. *)
Lemma compile_calls_rule_ids (yaml_load : string -> option (list Rule))
    (history : list string) (st : State) :
  watcher (self st) = true ->
  rule_ids (self (compile_calls yaml_load history st))
  = first_seen (rule_ids (self st)) history.
Proof.
  revert st; induction history as [|h hs IH]; intros st Hw; [reflexivity|].
  unfold compile_calls. cbn [fold_left first_seen].
  fold (compile_calls yaml_load hs (snd (compile yaml_load h st))).
  destruct (compile_rule_ids yaml_load h st) as [Hids Hw'].
  rewrite IH by (now rewrite Hw'). rewrite Hids.
  unfold remembered. rewrite Hw.
  now destruct (bool_decide (h ∈ rule_ids (self st))).
Qed.

Lemma act_stopped (a : action) (s : Shared * Thread) :
  stopped (fst s) = true -> stopped (fst (fst (act a s))) = true.
Proof.
  destruct s as [sh th]. destruct a as [r| |x|m]; cbn [act fst]; try easy.
  now destruct (step r sh th).
Qed.

Lemma exec_cons (a : action) (rest : list action) (s : Shared * Thread) :
  exec (a :: rest) s
  = (fst (exec rest (fst (act a s))),
     snd (act a s) ++ snd (exec rest (fst (act a s)))).
Proof.
  cbn [exec]. destruct (act a s) as [s' evs]. cbn [fst snd].
  now destruct (exec rest s').
Qed.

(** One step of the thread under a set stop flag. *)
Lemma step_after_stop (returns : bool) (sh : Shared) (th : Thread)
    (rest : list event) :
  stopped sh = true ->
  after_stop (at_pc (fst (step returns sh th))) rest ->
  after_stop (at_pc th) (snd (step returns sh th) ++ rest).
Proof.
  intros Hstop. unfold step. destruct (at_pc th) as [| |m i| | |] eqn:Hpc.
  - rewrite Hstop. cbn [fst snd at_pc after_stop app]. easy.
  - destruct (mtime sh) as [m|]; [destruct (started_time th) as [t|];
      [destruct (t <? m)|]|]; cbn [fst snd at_pc after_stop app]; intros H.
    + exact H.
    + exists []. split; [constructor|].
      destruct H as [-> | ->]; [now left | now right].
    + exists []. split; [constructor|].
      destruct H as [-> | ->]; [now left | now right].
    + exists []. split; [constructor|]. left. exact H.
  - destruct (ids sh !! i) as [rule_id|]; [destruct returns|];
      cbn [fst snd at_pc after_stop app]; intros H.
    + destruct H as (calls & Hcalls & H). exists (Call rule_id :: calls).
      split; [now constructor|].
      destruct H as [-> | ->]; [now left | now right].
    + subst rest. exists [Call rule_id]. split; [now repeat constructor | now left].
    + exists []. split; [constructor|].
      destruct H as [-> | ->]; [now left | now right].
  - cbn [fst snd at_pc after_stop app]. intros ->. now right.
  - cbn [fst snd app]. rewrite Hpc. cbn [after_stop]. easy.
  - cbn [fst snd app]. rewrite Hpc. cbn [after_stop]. easy.
Qed.

Lemma exec_after_stop (schedule : list action) (sh : Shared) (th : Thread) :
  stopped sh = true ->
  stopped (fst (fst (exec schedule (sh, th)))) = true
  /\ after_stop (at_pc th) (snd (exec schedule (sh, th))).
Proof.
  revert sh th; induction schedule as [|a rest IH]; intros sh th Hstop.
  - cbn [exec fst snd]. split; [exact Hstop|]. now destruct (at_pc th); try left;
      try (exists []; split; [constructor | now left]).
  - rewrite exec_cons. cbn [fst snd].
    destruct a as [r| |x|m].
    + cbn [act]. destruct (step r sh th) as [th' evs] eqn:Hstep. cbn [fst snd].
      destruct (IH sh th' Hstop) as [H1 H2]. split; [exact H1|].
      pose proof (step_after_stop r sh th
                    (snd (exec rest (sh, th'))) Hstop) as H.
      rewrite Hstep in H. cbn [fst snd] in H. now apply H.
    + cbn [act fst snd app]. now apply IH.
    + cbn [act fst snd app]. now apply IH.
    + cbn [act fst snd app]. now apply IH.
Qed.

Lemma step_steps_left (returns : bool) (sh : Shared) (th : Thread) :
  stopped sh = true ->
  (steps_left sh (fst (step returns sh th)) <= steps_left sh th - 1)%nat.
Proof.
  intros Hstop. unfold step, steps_left.
  destruct (at_pc th) as [| |m i| | |] eqn:Hpc.
  - rewrite Hstop. cbn [fst at_pc]. lia.
  - destruct (mtime sh) as [m|]; [destruct (started_time th) as [t|];
      [destruct (t <? m)|]|]; cbn [fst at_pc]; lia.
  - destruct (ids sh !! i) as [rule_id|] eqn:Hi.
    + apply lookup_lt_Some in Hi. destruct returns; cbn [fst at_pc]; lia.
    + cbn [fst at_pc]. lia.
  - cbn [fst at_pc]. lia.
  - cbn [fst]. rewrite Hpc. lia.
  - cbn [fst]. rewrite Hpc. lia.
Qed.

Lemma ticks_finish (returns : list bool) (sh : Shared) (th : Thread) :
  stopped sh = true ->
  (steps_left sh th <= length returns)%nat ->
  finished (snd (fst (exec (map Tick returns) (sh, th)))) = true.
Proof.
  intros Hstop. revert th; induction returns as [|r rs IH]; intros th Hle.
  - cbn [map exec fst snd]. simpl in Hle. unfold steps_left, finished in *.
    destruct (at_pc th); (reflexivity || lia).
  - cbn [map]. rewrite exec_cons. cbn [fst snd act].
    pose proof (step_steps_left r sh th Hstop) as Hdec.
    destruct (step r sh th) as [th' evs]. cbn [fst snd] in *.
    apply IH. simpl in Hle. lia.
Qed.

Lemma steps_left_bound (sh : Shared) (th : Thread) :
  (steps_left sh th <= length (ids sh) + 4)%nat.
Proof. unfold steps_left. destruct (at_pc th); lia. Qed.

End WatcherFacts.

Import Watcher.

(** One step of the thread in a schedule, with the facts [H1 H2 H3] about
    the shared state. *)
Ltac tick H1 H2 H3 :=
  rewrite WatcherFacts.exec_cons; cbn [act]; unfold step;
  cbn [at_pc started_time]; rewrite ?H1, ?H2, ?H3; cbn [fst snd app].

(** C9. A thread left alone, with callbacks that return, a stop flag that
    is not set and a source file whose modification time is [m], behaves
    as follows in one iteration of its loop. On its first observation it
    records [m] and calls nothing. With a recorded time [t < m] it calls
    the callback once for every rule identifier, in the order of the list,
    and then records [m]. With a recorded time [t >= m] it calls nothing
    and keeps [t]. The list, as [compile] builds it on a watching object,
    holds every identifier of the call history once, in the order first
    seen. *)
Theorem C9_watcher_triggering (yaml_load : string -> option (list Rule))
    (history : list string) (st0 : State) (sh : Shared) (th : Thread) (m : Z) :
  watcher (self st0) = true ->
  rule_ids (self st0) = [] ->
  ids sh = rule_ids (self (compile_calls yaml_load history st0)) ->
  stopped sh = false ->
  mtime sh = Some m ->
  at_pc th = AtCheck ->
  (ids sh = first_seen [] history
   /\ NoDup (ids sh)
   /\ forall rule_id, rule_id ∈ ids sh <-> rule_id ∈ history)
  /\ (started_time th = None ->
      exec (repeat (Tick true) 3) (sh, th)
      = ((sh, {| at_pc := AtCheck; started_time := Some m |}), [Sleep]))
  /\ (forall t, started_time th = Some t -> t < m ->
      exec (repeat (Tick true) (length (ids sh) + 4)) (sh, th)
      = ((sh, {| at_pc := AtCheck; started_time := Some m |}),
         map Call (ids sh) ++ [Sleep]))
  /\ (forall t, started_time th = Some t -> m <= t ->
      exec (repeat (Tick true) 3) (sh, th)
      = ((sh, {| at_pc := AtCheck; started_time := Some t |}), [Sleep])).
Proof.
  intros Hw Hempty Hids Hstop Hm Hpc.
  destruct th as [p started]. cbn [at_pc started_time] in *. subst p.
  split; [|split; [|split]].
  - rewrite Hids, (WatcherFacts.compile_calls_rule_ids _ _ _ Hw), Hempty.
    destruct (WatcherFacts.first_seen_spec [] history (NoDup_nil_2))
      as (Hnd & Hin & _).
    repeat split; [exact Hnd | |].
    + intros H. apply Hin in H as [H|H]; [inversion H | exact H].
    + intros H. apply Hin. now right.
  - intros ->. cbn [repeat]. do 3 tick Hstop Hm Hm. reflexivity.
  - intros t -> Hlt. apply Z.ltb_lt in Hlt.
    replace (length (ids sh) + 4)%nat with (2 + ((length (ids sh) + 1) + 1))%nat
      by lia.
    rewrite (repeat_app _ 2), WatcherFacts.exec_app.
    assert (exec (repeat (Tick true) 2)
              (sh, {| at_pc := AtCheck; started_time := Some t |})
            = ((sh, {| at_pc := InLoop m 0; started_time := Some t |}), [])) as ->.
    { cbn [repeat]. do 2 tick Hstop Hm Hlt. reflexivity. }
    cbn [fst snd app]. rewrite repeat_app, WatcherFacts.exec_app.
    pose proof (WatcherFacts.loop_ticks sh [] (ids sh) m (Some t) eq_refl) as Hloop.
    change (length (@nil string)) with O in Hloop. rewrite Hloop.
    cbn [fst snd repeat]. tick Hstop Hm Hlt. reflexivity.
  - intros t -> Hge. apply Z.ltb_ge in Hge.
    cbn [repeat]. do 3 tick Hstop Hm Hge. reflexivity.
Qed.

Lemma C9_witness :
  watched_ids = ["a"; "b"]
  /\ exec (repeat (Tick true) 3) (watched 10, init)
     = ((watched 10, {| at_pc := AtCheck; started_time := Some 10 |}), [Sleep])
  /\ exec (repeat (Tick true) 6)
          (watched 11, {| at_pc := AtCheck; started_time := Some 10 |})
     = ((watched 11, {| at_pc := AtCheck; started_time := Some 11 |}),
        [Call "a"; Call "b"; Sleep])
  /\ exec (repeat (Tick true) 3)
          (watched 10, {| at_pc := AtCheck; started_time := Some 10 |})
     = ((watched 10, {| at_pc := AtCheck; started_time := Some 10 |}), [Sleep]).
Proof.
  split; [reflexivity|]. split; [|split].
  - apply (proj1 (proj2 (C9_watcher_triggering (sample_loader [pause_rule])
                           ["a"; "b"; "a"] (sample_state true) (watched 10) init 10
                           eq_refl eq_refl eq_refl eq_refl eq_refl eq_refl))).
    reflexivity.
  - apply (proj1 (proj2 (proj2
             (C9_watcher_triggering (sample_loader [pause_rule])
                ["a"; "b"; "a"] (sample_state true) (watched 11)
                {| at_pc := AtCheck; started_time := Some 10 |} 11
                eq_refl eq_refl eq_refl eq_refl eq_refl eq_refl))) 10);
      [reflexivity | lia].
  - apply (proj2 (proj2 (proj2
             (C9_watcher_triggering (sample_loader [pause_rule])
                ["a"; "b"; "a"] (sample_state true) (watched 10)
                {| at_pc := AtCheck; started_time := Some 10 |} 10
                eq_refl eq_refl eq_refl eq_refl eq_refl eq_refl))) 10);
      [reflexivity | lia].
Defined.

(** C10, as amended. Once the stop flag is set it stays set, and whatever
    happens next the thread emits no more than this: nothing if it is at
    its flag check (it leaves the loop there without calling back) or has
    ended; one sleep if it is sleeping; and if it is inside an iteration,
    whose flag check came before the request, the calls of that iteration
    and then one sleep. Left to run, it ends within
    [length ids + 4] steps. *)
Theorem C10_after_stop_request (schedule : list action) (sh : Shared) (th : Thread) :
  stopped sh = true ->
  stopped (fst (fst (exec schedule (sh, th)))) = true
  /\ after_stop (at_pc th) (snd (exec schedule (sh, th)))
  /\ (forall returns : list bool,
        (length (ids sh) + 4 <= length returns)%nat ->
        finished (snd (fst (exec (map Tick returns) (sh, th)))) = true).
Proof.
  intros Hstop.
  destruct (WatcherFacts.exec_after_stop schedule sh th Hstop) as [H1 H2].
  repeat split; [exact H1 | exact H2 |].
  intros returns Hlen. apply WatcherFacts.ticks_finish; [exact Hstop|].
  pose proof (WatcherFacts.steps_left_bound sh th). lia.
Qed.

Lemma C10_witness :
  after_stop AtSleep
    (snd (exec [Touch (Some 5); Tick true; Remember "c"; Tick true; Tick true]
            ({| stopped := true; ids := ["a"; "b"]; mtime := Some 4 |},
             {| at_pc := AtSleep; started_time := Some 3 |})))
  /\ finished
       (snd (fst (exec (map Tick [true; true; true; true; true; true])
                    ({| stopped := true; ids := ["a"; "b"]; mtime := Some 4 |},
                     {| at_pc := AtSleep; started_time := Some 3 |}))))
     = true.
Proof.
  split.
  - apply (C10_after_stop_request
             [Touch (Some 5); Tick true; Remember "c"; Tick true; Tick true]
             {| stopped := true; ids := ["a"; "b"]; mtime := Some 4 |}
             {| at_pc := AtSleep; started_time := Some 3 |} eq_refl).
  - apply (C10_after_stop_request []
             {| stopped := true; ids := ["a"; "b"]; mtime := Some 4 |}
             {| at_pc := AtSleep; started_time := Some 3 |} eq_refl).
    simpl. lia.
Defined.

(** C10, as stated, fails: a stop request that arrives after the flag
    check of an iteration does not keep that iteration from recompiling.
    Here the thread checks the flag, the stop request follows, and the
    next two steps of the thread find a newer file and call the callback
    for ["a"]. *)
Lemma C10_counterexample :
  let start := ({| stopped := false; ids := ["a"]; mtime := Some 2 |},
                {| at_pc := AtCheck; started_time := Some 1 |}) in
  let at_request := fst (exec [Tick true; Stop] start) in
  stopped (fst at_request) = true
  /\ snd (exec [Tick true; Tick true] at_request) = [Call "a"].
Proof. split; reflexivity. Qed.

(** * Further properties of the injector *)

Module LineFacts.
Import TextFacts PyIntFacts InjectFacts.

(** A pattern that has a line break is not found in a text without one. *)
Lemma prefix_needs_nl (w s : string) :
  all_chars (differs NL) s = true -> String.prefix (w +:+ nl) s = false.
Proof.
  revert s; induction w as [|c w IH]; intros s Hs.
  - destruct s as [|a s]; [reflexivity|].
    change (String.prefix (String NL "") (String a s) = false).
    rewrite prefix_cons. simpl in Hs. apply andb_true_iff in Hs as [Ha _].
    unfold differs in Ha. apply negb_true_iff in Ha.
    now rewrite Ascii.eqb_sym, Ha.
  - destruct s as [|a s]; [reflexivity|].
    change (String.prefix (String c (w +:+ nl)) (String a s) = false).
    rewrite prefix_cons. simpl in Hs. apply andb_true_iff in Hs as [_ Hs].
    rewrite (IH s Hs). apply andb_false_r.
Qed.

Lemma contains_needs_nl (w s : string) :
  all_chars (differs NL) s = true -> contains (w +:+ nl) s = false.
Proof.
  induction s as [|a s IH]; intros Hs.
  - unfold contains. now rewrite prefix_needs_nl.
  - change (String.prefix (w +:+ nl) (String a s) || contains (w +:+ nl) s = false).
    rewrite (prefix_needs_nl w _ Hs).
    simpl in Hs. apply andb_true_iff in Hs as [_ Hs]. now rewrite IH.
Qed.

(** Where the first line break of a text is. *)
Lemma nl_split (body t u v : string) :
  all_chars (differs NL) body = true ->
  body +:+ String NL t = u +:+ String NL v ->
  (u = body /\ v = t) \/ exists r, u = body +:+ String NL r.
Proof.
  revert u; induction body as [|b body IH]; intros u Hb H.
  - destruct u as [|a u].
    + left. simpl in H. now injection H as ->.
    + right. simpl in H. injection H as <- _. now exists u.
  - simpl in Hb. apply andb_true_iff in Hb as [Hb1 Hb2].
    unfold differs in Hb1. apply negb_true_iff in Hb1.
    destruct u as [|a u].
    + simpl in H. injection H as -> _. now rewrite Ascii.eqb_refl in Hb1.
    + simpl in H. injection H as <- H.
      destruct (IH u Hb2 H) as [[-> ->]|[r ->]]; [now left | right; now exists r].
Qed.

(** The lines of a text: a run of characters other than the line break,
    closed by a line break, or, for the last one, not empty. *)
Lemma readlines_shape (s : string) :
  Forall (fun l => exists body,
            all_chars (differs NL) body = true
            /\ (l = body +:+ nl \/ (l = body /\ body <> "")))
         (readlines s).
Proof.
  induction s as [|a s IH]; [constructor|]. simpl.
  destruct (Ascii.eqb a NL) eqn:Ha.
  - apply Ascii.eqb_eq in Ha as ->. constructor; [|exact IH].
    exists "". split; [reflexivity | now left].
  - destruct (readlines s) as [|l ls].
    + constructor; [|constructor]. exists (String a "").
      split; [simpl; unfold differs; now rewrite Ha | right; split; [reflexivity | discriminate]].
    + apply Forall_cons in IH as [(body & Hb & Hl) Hls]. constructor; [|exact Hls].
      exists (String a body). split.
      * simpl. unfold differs at 1. now rewrite Ha, Hb.
      * destruct Hl as [-> | [-> Hne]]; [now left | right; split; [reflexivity | discriminate]].
Qed.

(** A rule keeps the first line of the text it is applied to. *)
Lemma apply_rule_keeps_head (body t : string) (rule : Rule) :
  all_chars (differs NL) body = true ->
  exists t', apply_rule (body +:+ String NL t) rule = body +:+ String NL t'.
Proof.
  intros Hb. unfold apply_rule.
  destruct (contains (layer_comment rule) (body +:+ String NL t)) eqn:Hc.
  - destruct (replace_first_decomp _ (layer_comment rule +:+ code rule +:+ nl) _ Hc)
      as (pre & post & Hs & ->).
    unfold layer_comment in *. rewrite (marker_split (layer rule)) in *.
    set (w := ";LAYER:" +:+ py_str (layer rule)) in *.
    assert (pre +:+ (w +:+ nl) +:+ post = (pre +:+ w) +:+ String NL post) as E1
      by now rewrite !app_assoc.
    assert (pre +:+ ((w +:+ nl) +:+ code rule +:+ nl) +:+ post
            = (pre +:+ w) +:+ String NL (code rule +:+ String NL post)) as ->
      by now rewrite !app_assoc.
    rewrite E1 in Hs.
    destruct (nl_split _ _ _ _ Hb Hs) as [[-> _]|[r ->]].
    + now eexists.
    + rewrite app_assoc. now eexists.
  - rewrite replace_first_absent by exact Hc. now eexists.
Qed.

Lemma apply_rules_keeps_head (rules : list Rule) (body t : string) :
  all_chars (differs NL) body = true ->
  exists t', apply_rules rules (body +:+ String NL t) = body +:+ String NL t'.
Proof.
  intros Hb. revert t; induction rules as [|r rs IH]; intros t.
  - now exists t.
  - unfold apply_rules. cbn [fold_left]. fold (apply_rules rs).
    destruct (apply_rule_keeps_head body t r Hb) as [t' ->]. apply IH.
Qed.

Lemma apply_rules_unmarked (rules : list Rule) (code_line : string) :
  Forall (fun rule => contains (layer_comment rule) code_line = false) rules ->
  apply_rules rules code_line = code_line.
Proof.
  induction 1 as [|r rs Hr _ IH]; [reflexivity|].
  unfold apply_rules. cbn [fold_left]. fold (apply_rules rs).
  unfold apply_rule. now rewrite replace_first_absent.
Qed.

(** Every line of a text is a prefix of what the rules make of it. *)
Lemma apply_rules_keeps_line (rules : list Rule) (content : string) :
  Forall (fun l => exists t, apply_rules rules l = l +:+ t) (readlines content).
Proof.
  eapply Forall_impl; [apply readlines_shape|].
  intros l (body & Hb & [-> | [-> _]]).
  - destruct (apply_rules_keeps_head rules body "" Hb) as [t' Ht'].
    exists t'. change (body +:+ nl) with (body +:+ String NL "").
    rewrite Ht'. now rewrite app_assoc.
  - exists "". rewrite app_nil_r. apply apply_rules_unmarked.
    apply Forall_forall. intros r _. unfold layer_comment.
    rewrite marker_split. now apply contains_needs_nl.
Qed.

Lemma readlines_app_closed (a b : string) :
  last_char a = Some NL -> readlines (a +:+ b) = readlines a ++ readlines b.
Proof.
  induction a as [|x a IH]; [discriminate|]. intros Hl. simpl.
  destruct a as [|y a].
  - simpl in Hl. injection Hl as ->. reflexivity.
  - assert (last_char (String y a) = Some NL) as Hl'.
    { simpl in Hl |- *. now destruct (last_char a). }
    rewrite (IH Hl'). destruct (Ascii.eqb x NL); [reflexivity|].
    assert (readlines (String y a) <> []) as Hne.
    { intros E. apply readlines_nil in E. discriminate. }
    destruct (readlines (String y a)); [congruence | reflexivity].
Qed.

End LineFacts.

(** What [compile] writes on a fresh object, the rules being loaded and in
    range. *)
Lemma compile_output_file (yaml_load : string -> option (list Rule))
    (rule_id : string) (st : State) (content document : string)
    (rules : list Rule) :
  output_filename (self st) = None ->
  files st !! code_filename (self st) = Some content ->
  files st !! rules_filename rule_id = Some document ->
  yaml_load document = Some rules ->
  validate (scan (readlines content)) rules = Ok tt ->
  fst (compile yaml_load rule_id st) = Ok tt
  /\ files (snd (compile yaml_load rule_id st))
     = <[output_name (fst (Path.splitext (code_filename (self st)))) rule_id
         := rewrite rules content]> (files st).
Proof.
  intros Hout Hsrc Hdoc Hload Hvalid.
  assert (load_outcome yaml_load (files st) (scan (readlines content)) rule_id
          = Ok rules) as Hl.
  { unfold load_outcome. now rewrite Hdoc, Hload, Hvalid. }
  assert (output_stem (self st) = fst (Path.splitext (code_filename (self st))))
    as Hstem by (unfold output_stem; now rewrite Hout).
  rewrite (compile_success yaml_load _ _ _ _ Hsrc Hl).
  - cbn [fst snd files]. now rewrite Hstem.
  - rewrite Hstem. apply PathFacts.output_name_not_source.
Qed.

Lemma map_apply_rules_unmarked (rules : list Rule) (code_lines : list string) :
  Forall (fun code_line =>
            Forall (fun rule => contains (layer_comment rule) code_line = false)
                   rules) code_lines ->
  map (apply_rules rules) code_lines = code_lines.
Proof.
  induction 1 as [|l ls Hl _ IH]; [reflexivity|].
  cbn [map]. rewrite IH. f_equal. now apply LineFacts.apply_rules_unmarked.
Qed.

(** X1. When the source and the rule file exist, the rules load and pass
    the validation against the declared layer count, no output name is
    configured, and no line of the source contains the marker of any rule
    (in particular when the rule list is empty), [compile] succeeds and the
    output file is a verbatim copy of the source. Without the validation
    the run can fail: a rule whose layer is not below the declared count,
    or any rule when the source declares no count, raises before an output
    is written. *)
Theorem unmarked_source_is_copied (yaml_load : string -> option (list Rule))
    (rule_id : string) (st : State) (content document : string)
    (rules : list Rule) :
  output_filename (self st) = None ->
  files st !! code_filename (self st) = Some content ->
  files st !! rules_filename rule_id = Some document ->
  yaml_load document = Some rules ->
  validate (scan (readlines content)) rules = Ok tt ->
  Forall (fun code_line =>
            Forall (fun rule => contains (layer_comment rule) code_line = false)
                   rules) (readlines content) ->
  fst (compile yaml_load rule_id st) = Ok tt
  /\ files (snd (compile yaml_load rule_id st))
       !! output_name (fst (Path.splitext (code_filename (self st)))) rule_id
     = Some content.
Proof.
  intros Hout Hsrc Hdoc Hload Hvalid Hfree.
  destruct (compile_output_file yaml_load rule_id st content document rules
              Hout Hsrc Hdoc Hload Hvalid) as [Hok Hfiles].
  split; [exact Hok|]. rewrite Hfiles, lookup_insert_eq. f_equal.
  unfold rewrite.
  rewrite (map_apply_rules_unmarked rules _ Hfree).
  apply TextFacts.concat_readlines.
Qed.

Lemma unmarked_source_is_copied_witness :
  fst (compile (sample_loader [ {| layer := 1; code := "M0" |} ]) "r" two_rules_state)
  = Ok tt
  /\ files (snd (compile (sample_loader [ {| layer := 1; code := "M0" |} ]) "r"
                   two_rules_state)) !! "model[r].gcode"
     = Some (";LAYER_COUNT:4" +:+ nl +:+ ";LAYER:3" +:+ nl +:+ "G1" +:+ nl).
Proof.
  apply (unmarked_source_is_copied
           (sample_loader [ {| layer := 1; code := "M0" |} ]) "r" two_rules_state
           (";LAYER_COUNT:4" +:+ nl +:+ ";LAYER:3" +:+ nl +:+ "G1" +:+ nl) "rules"
           [ {| layer := 1; code := "M0" |} ]);
    try reflexivity.
  repeat constructor.
Defined.

(** X2. Whatever the rules, the text written for a source is the source's
    lines, each whole and in order, each followed by the text inserted
    after it (which may be empty): no source line is dropped, cut or
    changed. *)
Theorem source_lines_kept (rules : list Rule) (content : string) :
  exists inserts,
    length inserts = length (readlines content)
    /\ rewrite rules content
       = Text.concat (zip_with String.append (readlines content) inserts).
Proof.
  unfold rewrite. pose proof (LineFacts.apply_rules_keeps_line rules content) as H.
  induction H as [|l ls [t Ht] _ (inserts & Hlen & IH)].
  - now exists [].
  - exists (t :: inserts). split; [simpl; now rewrite Hlen|].
    cbn [map zip_with Text.concat]. now rewrite IH, Ht.
Qed.

(** X3. On the marker line of layer [l], when no rule's code contains the
    text [;LAYER:], the rules of layer [l], however many, put their codes
    right after the marker, the last rule's code first; the rules of other
    layers add nothing. *)
Theorem marker_line_blocks (l : Z) (rules : list Rule) :
  Forall (fun rule => contains ";LAYER:" (code rule) = false) rules ->
  apply_rules rules (marker l)
  = marker l +:+ injected_block (rev (filter (fun rule => layer rule = l) rules)).
Proof.
  intros Hcodes. rewrite <- (TextFacts.app_nil_r (marker l)) at 1.
  rewrite (InjectFacts.apply_rules_marker l rules "" eq_refl Hcodes).
  now rewrite TextFacts.app_nil_r.
Qed.

Lemma marker_line_blocks_witness :
  apply_rules [ {| layer := 3; code := "A" |}; {| layer := 30; code := "B" |};
                {| layer := 3; code := "C" |}; {| layer := 3; code := "D" |} ]
              (";LAYER:3" +:+ nl)
  = ";LAYER:3" +:+ nl +:+ "D" +:+ nl +:+ "C" +:+ nl +:+ "A" +:+ nl.
Proof.
  apply (marker_line_blocks 3
           [ {| layer := 3; code := "A" |}; {| layer := 30; code := "B" |};
             {| layer := 3; code := "C" |}; {| layer := 3; code := "D" |} ]).
  repeat constructor.
Defined.

(** X4. A marker line is left as it is by rules of other layers, whatever
    their codes: the marker ends with the line break, so the rule of
    layer 1 does not fire on the marker of layer 10. *)
Theorem marker_line_other_layers (l : Z) (rules : list Rule) :
  Forall (fun rule => layer rule <> l) rules ->
  apply_rules rules (marker l) = marker l.
Proof.
  intros Hother. apply LineFacts.apply_rules_unmarked.
  eapply Forall_impl; [exact Hother|]. intros r Hr. unfold layer_comment.
  rewrite <- (TextFacts.app_nil_r (marker l)).
  now apply InjectFacts.marker_absent.
Qed.

Lemma marker_line_other_layers_witness :
  apply_rules [ {| layer := 1; code := "M0" |}; {| layer := 0; code := ";LAYER:10" |} ]
              (";LAYER:10" +:+ nl)
  = ";LAYER:10" +:+ nl.
Proof.
  apply (marker_line_other_layers 10
           [ {| layer := 1; code := "M0" |}; {| layer := 0; code := ";LAYER:10" |} ]).
  repeat constructor; discriminate.
Defined.

(** X5. The marker need not be the whole line: a rule of layer [l] fires
    on every line that ends with the marker of [l], and puts its code after
    the line. *)
Theorem marker_at_line_end (pre : string) (rule : Rule) :
  all_chars (differs NL) pre = true ->
  apply_rule (pre +:+ marker (layer rule)) rule
  = pre +:+ marker (layer rule) +:+ code rule +:+ nl.
Proof.
  intros Hpre. unfold apply_rule, layer_comment.
  assert (contains (marker (layer rule)) (pre +:+ marker (layer rule)) = true) as Hc.
  { apply TextFacts.contains_app_r, TextFacts.contains_prefix.
    rewrite <- (TextFacts.app_nil_r (marker (layer rule))) at 2.
    apply TextFacts.prefix_app. }
  destruct (InjectFacts.replace_first_decomp _
              (marker (layer rule) +:+ code rule +:+ nl) _ Hc)
    as (p & post & Hs & ->).
  rewrite (InjectFacts.marker_split (layer rule)) in *.
  set (w := ";LAYER:" +:+ py_str (layer rule)) in *.
  assert ((pre +:+ w) +:+ String NL "" = (p +:+ w) +:+ String NL post) as Hs'.
  { rewrite !TextFacts.app_assoc. rewrite !TextFacts.app_assoc in Hs. exact Hs. }
  assert (all_chars (differs NL) (pre +:+ w) = true) as Hb.
  { rewrite TextFacts.all_chars_app, Hpre. apply InjectFacts.marker_stem_no_nl. }
  destruct (LineFacts.nl_split _ _ _ _ Hb Hs') as [[Hu ->]|[r Hu]].
  - rewrite TextFacts.app_nil_r, <- !TextFacts.app_assoc, Hu.
    now rewrite !TextFacts.app_assoc.
  - rewrite Hu in Hs'.
    rewrite (TextFacts.app_assoc (pre +:+ w) (String NL r)) in Hs'.
    apply (inj (String.app (pre +:+ w))) in Hs'. injection Hs' as Hs'.
    destruct r; discriminate.
Qed.

Lemma marker_at_line_end_witness :
  apply_rule ("G1 X0 ;LAYER:3" +:+ nl) {| layer := 3; code := "M0" |}
  = "G1 X0 ;LAYER:3" +:+ nl +:+ "M0" +:+ nl.
Proof.
  apply (marker_at_line_end "G1 X0 " {| layer := 3; code := "M0" |}).
  reflexivity.
Defined.

(** X6. The rewriting works line by line: for a text that ends with a
    line break followed by another text, the result is the result for the
    first followed by the result for the second. *)
Theorem rewrite_app (rules : list Rule) (a b : string) :
  last_char a = Some NL ->
  rewrite rules (a +:+ b) = rewrite rules a +:+ rewrite rules b.
Proof.
  intros Ha. unfold rewrite.
  now rewrite (LineFacts.readlines_app_closed a b Ha), map_app,
    InjectFacts.concat_app.
Qed.

Lemma rewrite_app_witness :
  rewrite [pause_rule] ((";LAYER:1" +:+ nl) +:+ ("B" +:+ nl +:+ ";LAYER:1" +:+ nl))
  = rewrite [pause_rule] (";LAYER:1" +:+ nl)
    +:+ rewrite [pause_rule] ("B" +:+ nl +:+ ";LAYER:1" +:+ nl).
Proof.
  apply (rewrite_app [pause_rule] (";LAYER:1" +:+ nl)). reflexivity.
Defined.

(** * Further properties of validation and of [compile] *)

(** X7. With a declared count [n], validation raises for the first rule of
    the list whose layer is at or above [n], naming that layer, and passes
    when there is none: it passes exactly when every layer is below [n],
    and layers have no lower bound. *)
Theorem validate_outcome (n : Z) (rules : list Rule) :
  validate (Some n) rules
  = match List.find (fun rule => n <=? layer rule) rules with
    | Some rule => Raise (ValueError (out_of_range_message (layer rule)))
    | None => Ok tt
    end
  /\ (validate (Some n) rules = Ok tt <-> Forall (fun rule => layer rule < n) rules).
Proof.
  split.
  - induction rules as [|r rs IH]; [reflexivity|].
    cbn [validate List.find]. now destruct (n <=? layer r).
  - split; [apply validate_ok_inv | apply validate_ok].
Qed.

Lemma scan_without_sentinel (code_lines : list string) :
  Forall (fun l => contains ";LAYER_COUNT:" l = false) code_lines ->
  scan code_lines = None.
Proof.
  intros H. unfold scan.
  induction H as [|l ls Hl _ IH]; [reflexivity|].
  cbn [fold_left]. unfold scan_line at 2. now rewrite Hl.
Qed.

(** X8. When no line of the source contains the text [;LAYER_COUNT:] and
    the rules document has at least one rule, [compile] raises [TypeError]
    (the comparison of the layer with [None]) and leaves every file as it
    was: no output is created. *)
Theorem compile_without_layer_count (yaml_load : string -> option (list Rule))
    (rule_id : string) (st : State) (content document : string)
    (rule : Rule) (rest : list Rule) :
  files st !! code_filename (self st) = Some content ->
  Forall (fun l => contains ";LAYER_COUNT:" l = false) (readlines content) ->
  files st !! rules_filename rule_id = Some document ->
  yaml_load document = Some (rule :: rest) ->
  fst (compile yaml_load rule_id st) = Raise TypeError
  /\ files (snd (compile yaml_load rule_id st)) = files st.
Proof.
  intros Hsrc Hnone Hdoc Hload.
  assert (load_outcome yaml_load (files st) (scan (readlines content)) rule_id
          = Raise TypeError) as Hl.
  { unfold load_outcome.
    now rewrite Hdoc, Hload, (scan_without_sentinel _ Hnone). }
  now rewrite (compile_failure yaml_load _ _ _ _ Hsrc Hl).
Qed.

Lemma compile_without_layer_count_witness :
  fst (compile (sample_loader [ {| layer := 0; code := "M0" |} ]) "r" no_count_state)
  = Raise TypeError
  /\ files (snd (compile (sample_loader [ {| layer := 0; code := "M0" |} ]) "r"
                   no_count_state))
     = files no_count_state.
Proof.
  apply (compile_without_layer_count
           (sample_loader [ {| layer := 0; code := "M0" |} ]) "r" no_count_state
           (";LAYER:0" +:+ nl +:+ "G1" +:+ nl) "rules"
           {| layer := 0; code := "M0" |} []);
    try reflexivity.
  repeat constructor.
Defined.

(** X9. With a watcher attached, [compile] records its rule identifier
    whatever its outcome, also when it raises: afterwards the identifier
    is in the list, the list is the old one with at most this identifier
    added at its end, and a list without duplicates stays so. *)
Theorem compile_remembers_rule_id (yaml_load : string -> option (list Rule))
    (rule_id : string) (st : State) :
  watcher (self st) = true ->
  rule_id ∈ rule_ids (self (snd (compile yaml_load rule_id st)))
  /\ (rule_ids (self (snd (compile yaml_load rule_id st))) = rule_ids (self st)
      \/ rule_ids (self (snd (compile yaml_load rule_id st)))
         = rule_ids (self st) ++ [rule_id])
  /\ (NoDup (rule_ids (self st)) ->
      NoDup (rule_ids (self (snd (compile yaml_load rule_id st))))).
Proof.
  intros Hw. destruct (compile_rule_ids yaml_load rule_id st) as [-> _].
  unfold remembered. rewrite Hw.
  destruct (bool_decide_reflect (rule_id ∈ rule_ids (self st))) as [Hin|Hnin].
  - repeat split; [exact Hin | now left | easy].
  - cbn [set_rule_ids rule_ids]. repeat split.
    + apply elem_of_app. right. now apply list_elem_of_singleton.
    + now right.
    + intros Hnd. apply NoDup_app. repeat split; [exact Hnd | | apply NoDup_singleton].
      intros x Hx Hx'. apply list_elem_of_singleton in Hx'. now subst.
Qed.

Lemma compile_remembers_rule_id_witness :
  "X" ∈ rule_ids (self (snd (compile (sample_loader [pause_rule]) "X"
                               (sample_state true))))
  /\ fst (compile (sample_loader [pause_rule]) "X" (sample_state true))
     = Raise (NameError (rules_not_found_message "rules[X].yml")).
Proof.
  split; [|reflexivity].
  apply (compile_remembers_rule_id (sample_loader [pause_rule]) "X"
           (sample_state true) eq_refl).
Defined.

Lemma app_inv_tail_string (s s' t : string) : s +:+ t = s' +:+ t -> s = s'.
Proof.
  revert s'; induction s as [|a s IH]; intros s' H.
  - destruct s' as [|b s']; [reflexivity|].
    apply (f_equal String.length) in H. rewrite !TextFacts.length_app in H.
    simpl in H. lia.
  - destruct s' as [|b s'].
    + apply (f_equal String.length) in H. rewrite !TextFacts.length_app in H.
      simpl in H. lia.
    + simpl in H. injection H as -> H. f_equal. now apply IH.
Qed.

(** X10. Output file names: the output derived from a source name is never
    the source itself, an output is never a rules file, and two rule
    identifiers never share an output. *)
Theorem output_names_are_safe :
  (forall p rule_id, output_name (fst (Path.splitext p)) rule_id <> p)
  /\ (forall stem rule_id rule_id',
        output_name stem rule_id <> rules_filename rule_id')
  /\ (forall stem rule_id rule_id',
        output_name stem rule_id = output_name stem rule_id' ->
        rule_id = rule_id').
Proof.
  repeat split.
  - apply PathFacts.output_name_not_source.
  - apply PathFacts.output_name_not_rules.
  - intros stem a b H. unfold output_name in H.
    apply (inj (String.app stem)) in H. injection H as H.
    now apply app_inv_tail_string in H.
Qed.

(** X11. A successful [compile] on a fresh object opens the source, then
    the rules file, creates the output, writes once for every line of the
    source, and closes the output and then the source. The stream of the
    rules file is not closed by the program. *)
Theorem compile_success_events (yaml_load : string -> option (list Rule))
    (rule_id : string) (st : State) (content document : string)
    (rules : list Rule) :
  output_filename (self st) = None ->
  files st !! code_filename (self st) = Some content ->
  files st !! rules_filename rule_id = Some document ->
  yaml_load document = Some rules ->
  validate (scan (readlines content)) rules = Ok tt ->
  let out := output_name (fst (Path.splitext (code_filename (self st)))) rule_id in
  trace (snd (compile yaml_load rule_id st))
  = trace st
    ++ [EvOpen (code_filename (self st)); EvOpen (rules_filename rule_id);
        EvCreate out]
    ++ map (fun code_line => EvWrite out (apply_rules rules code_line))
           (readlines content)
    ++ [EvClose out; EvClose (code_filename (self st))].
Proof.
  intros Hout Hsrc Hdoc Hload Hvalid out.
  assert (load_outcome yaml_load (files st) (scan (readlines content)) rule_id
          = Ok rules) as Hl.
  { unfold load_outcome. now rewrite Hdoc, Hload, Hvalid. }
  assert (output_stem (self st) = fst (Path.splitext (code_filename (self st))))
    as Hstem by (unfold output_stem; now rewrite Hout).
  rewrite (compile_success yaml_load _ _ _ _ Hsrc Hl).
  - cbn [snd trace]. unfold rules_opened. rewrite Hdoc, Hstem. fold out.
    now rewrite map_map.
  - rewrite Hstem. apply PathFacts.output_name_not_source.
Qed.

Lemma compile_success_events_witness :
  trace (snd (compile (sample_loader [pause_rule]) "pause" (sample_state false)))
  = [EvOpen "model.gcode"; EvOpen "rules[pause].yml"; EvCreate "model[pause].gcode";
     EvWrite "model[pause].gcode" (";LAYER_COUNT:2" +:+ nl);
     EvWrite "model[pause].gcode" (";LAYER:0" +:+ nl);
     EvWrite "model[pause].gcode" ("A" +:+ nl);
     EvWrite "model[pause].gcode" (";LAYER:1" +:+ nl +:+ "PAUSE" +:+ nl);
     EvWrite "model[pause].gcode" ("B" +:+ nl);
     EvClose "model[pause].gcode"; EvClose "model.gcode"].
Proof.
  apply (compile_success_events (sample_loader [pause_rule]) "pause"
           (sample_state false) sample_source "rules" [pause_rule]);
    reflexivity.
Defined.

(** * [main]: several rule identifiers in a row *)

Section MainFacts.

Variable yaml_load : string -> option (list Rule).
Variable fs : gmap string string.
Variable filename : string.
Variable watch : bool.

Lemma kept_initial : kept fs filename (initial fs filename watch).
Proof. repeat split. Qed.

Lemma compile_kept (rule_id : string) (st : State) :
  kept fs filename st ->
  fst (compile yaml_load rule_id st)
  = fst (compile yaml_load rule_id (initial fs filename watch))
  /\ kept fs filename (snd (compile yaml_load rule_id st))
  /\ (forall f, f <> output_name (fst (Path.splitext filename)) rule_id ->
      files (snd (compile yaml_load rule_id st)) !! f = files st !! f)
  /\ (fst (compile yaml_load rule_id (initial fs filename watch)) = Ok tt ->
      files (snd (compile yaml_load rule_id st))
        !! output_name (fst (Path.splitext filename)) rule_id
      = files (snd (compile yaml_load rule_id (initial fs filename watch)))
          !! output_name (fst (Path.splitext filename)) rule_id)
  /\ (forall e,
        fst (compile yaml_load rule_id (initial fs filename watch)) = Raise e ->
        files (snd (compile yaml_load rule_id st)) = files st).
Proof.
  intros (Hc & Ho & Hsrc & Hrules).
  set (out := output_name (fst (Path.splitext filename)) rule_id).
  assert (out <> filename) as Hout by apply PathFacts.output_name_not_source.
  destruct (compile_self yaml_load rule_id st) as [Hc' Ho'].
  assert (forall f, f <> out ->
            files (snd (compile yaml_load rule_id st)) !! f = files st !! f) as Hframe.
  { intros f Hf. apply compile_other_files. now rewrite Ho. }
  assert (kept fs filename (snd (compile yaml_load rule_id st))) as Hkept.
  { repeat split.
    - now rewrite Hc'.
    - now rewrite Ho'.
    - rewrite Hframe by congruence. exact Hsrc.
    - intros id. rewrite Hframe; [apply Hrules|].
      intros E. symmetry in E. exact (PathFacts.output_name_not_rules _ _ _ E). }
  pose proof (compile_result yaml_load rule_id st) as R1.
  pose proof (compile_files yaml_load rule_id st) as F1.
  pose proof (compile_result yaml_load rule_id (initial fs filename watch)) as R0.
  pose proof (compile_files yaml_load rule_id (initial fs filename watch)) as F0.
  rewrite Hc, Hsrc in R1. rewrite Hc, Ho, Hsrc in F1.
  cbn [initial self files code_filename GCodePP_init] in R0, F0.
  change (output_stem (GCodePP_init filename watch))
    with (fst (Path.splitext filename)) in F0.
  fold out in F0, F1.
  split; [|split; [exact Hkept|split; [exact Hframe|split]]].
  - rewrite R1, R0. destruct (fs !! filename) as [content|]; [|reflexivity].
    now rewrite (load_outcome_ext yaml_load fs (files st) _ _ (Hrules rule_id)).
  - intros Hok. rewrite Hok in R0. rewrite F1, F0.
    destruct (fs !! filename) as [content|] eqn:Hfs; [|discriminate].
    rewrite (load_outcome_ext yaml_load fs (files st) _ _ (Hrules rule_id)).
    destruct (load_outcome yaml_load fs (scan (readlines content)) rule_id)
      as [rules|e]; [|discriminate].
    rewrite !lookup_insert_eq.
    now rewrite (reread_ne _ _ _ content Hout Hsrc),
      (reread_ne _ _ _ content Hout Hfs).
  - intros e He. rewrite He in R0. rewrite F1.
    destruct (fs !! filename) as [content|]; [|reflexivity].
    rewrite (load_outcome_ext yaml_load fs (files st) _ _ (Hrules rule_id)).
    now destruct (load_outcome yaml_load fs (scan (readlines content)) rule_id).
Qed.

Lemma compile_all_nil (st : State) : compile_all yaml_load [] st = (Ok tt, st).
Proof. reflexivity. Qed.

Lemma compile_all_cons (rule_id : string) (rest : list string) (st : State) :
  compile_all yaml_load (rule_id :: rest) st
  = match fst (compile yaml_load rule_id st) with
    | Ok _ => compile_all yaml_load rest (snd (compile yaml_load rule_id st))
    | Raise e => (Raise e, snd (compile yaml_load rule_id st))
    end.
Proof.
  cbn [compile_all]. unfold bind.
  now destruct (compile yaml_load rule_id st) as [[[]|e] st'].
Qed.

(** The loop over identifiers that each compile on their own. *)
Lemma compile_all_ok (rules : list string) (st : State) :
  kept fs filename st ->
  Forall (fun rule_id =>
            fst (compile yaml_load rule_id (initial fs filename watch)) = Ok tt)
         rules ->
  fst (compile_all yaml_load rules st) = Ok tt
  /\ kept fs filename (snd (compile_all yaml_load rules st))
  /\ (forall rule_id, rule_id ∈ rules ->
      files (snd (compile_all yaml_load rules st))
        !! output_name (fst (Path.splitext filename)) rule_id
      = files (snd (compile yaml_load rule_id (initial fs filename watch)))
          !! output_name (fst (Path.splitext filename)) rule_id)
  /\ (forall f,
        (forall rule_id, rule_id ∈ rules ->
           f <> output_name (fst (Path.splitext filename)) rule_id) ->
        files (snd (compile_all yaml_load rules st)) !! f = files st !! f).
Proof.
  intros Hkept Hall. revert st Hkept.
  induction Hall as [|r rs Hr _ IH]; intros st Hkept.
  - rewrite compile_all_nil. cbn [fst snd].
    split; [reflexivity|]. split; [exact Hkept|].
    split; [|reflexivity]. intros id Hin. inversion Hin.
  - rewrite compile_all_cons.
    destruct (compile_kept r st Hkept) as (Hres & Hkept' & Hframe & Hout & _).
    rewrite Hres, Hr.
    destruct (IH _ Hkept') as (Hok & Hk & Houts & Hothers).
    split; [exact Hok|]. split; [exact Hk|]. split.
    + intros id Hin.
      destruct (decide (id ∈ rs)) as [Hrs|Hrs]; [now apply Houts|].
      apply elem_of_cons in Hin as [-> | Hin]; [|contradiction].
      rewrite Hothers; [now apply Hout|].
      intros id' Hid' E. unfold output_name in E.
      apply (inj (String.app _)) in E. injection E as E.
      apply app_inv_tail_string in E. now subst.
    + intros f Hf. rewrite Hothers.
      * apply Hframe, Hf. now left.
      * intros id Hid. apply Hf. now right.
Qed.

End MainFacts.

(** X12. When every rule identifier given to [main] compiles on its own,
    [main] returns normally, the output of every identifier holds what
    compiling that identifier alone would have written, and every file
    that is not one of these outputs, the source among them, is as it
    was: the compilations do not disturb one another. *)
Theorem main_outputs_independent (yaml_load : string -> option (list Rule))
    (fs : gmap string string) (filename : string) (rules : list string)
    (watch : bool) :
  Forall (fun rule_id =>
            fst (compile yaml_load rule_id (initial fs filename watch)) = Ok tt)
         rules ->
  fst (main yaml_load fs filename rules watch) = Ok tt
  /\ (forall rule_id, rule_id ∈ rules ->
      files (snd (main yaml_load fs filename rules watch))
        !! output_name (fst (Path.splitext filename)) rule_id
      = files (snd (compile yaml_load rule_id (initial fs filename watch)))
          !! output_name (fst (Path.splitext filename)) rule_id)
  /\ files (snd (main yaml_load fs filename rules watch)) !! filename
     = fs !! filename
  /\ (forall f,
        (forall rule_id, rule_id ∈ rules ->
           f <> output_name (fst (Path.splitext filename)) rule_id) ->
        files (snd (main yaml_load fs filename rules watch)) !! f = fs !! f).
Proof.
  intros Hall. unfold main.
  destruct (compile_all_ok yaml_load fs filename watch rules _
              (kept_initial fs filename watch) Hall)
    as (Hok & _ & Houts & Hothers).
  split; [exact Hok|]. split; [exact Houts|]. split; [|exact Hothers].
  apply Hothers. intros id _ E. symmetry in E.
  exact (PathFacts.output_name_not_source _ _ E).
Qed.

Lemma main_outputs_independent_witness :
  fst (main two_docs_loader two_docs_fs "model.gcode" ["a"; "b"; "a"] false) = Ok tt
  /\ files (snd (main two_docs_loader two_docs_fs "model.gcode" ["a"; "b"; "a"] false))
       !! "model[a].gcode"
     = Some (";LAYER_COUNT:2" +:+ nl +:+ ";LAYER:0" +:+ nl +:+ "M0" +:+ nl
             +:+ "A" +:+ nl +:+ ";LAYER:1" +:+ nl +:+ "B" +:+ nl)
  /\ files (snd (main two_docs_loader two_docs_fs "model.gcode" ["a"; "b"; "a"] false))
       !! "model[b].gcode"
     = Some (";LAYER_COUNT:2" +:+ nl +:+ ";LAYER:0" +:+ nl
             +:+ "A" +:+ nl +:+ ";LAYER:1" +:+ nl +:+ "M1" +:+ nl +:+ "B" +:+ nl).
Proof.
  destruct (main_outputs_independent two_docs_loader two_docs_fs "model.gcode"
              ["a"; "b"; "a"] false ltac:(repeat constructor))
    as (Hok & Houts & _).
  split; [exact Hok|]. split.
  - refine (eq_trans (Houts "a" _) _); [repeat constructor | reflexivity].
  - refine (eq_trans (Houts "b" _) _); [repeat constructor | reflexivity].
Defined.

(** The loop over identifiers of which the first to fail is [bad]. *)
Lemma compile_all_fail (yaml_load : string -> option (list Rule))
    (fs : gmap string string) (filename : string) (watch : bool)
    (done : list string) (bad : string) (rest : list string) (e : exn)
    (st : State) :
  kept fs filename st ->
  Forall (fun rule_id =>
            fst (compile yaml_load rule_id (initial fs filename watch)) = Ok tt)
         done ->
  fst (compile yaml_load bad (initial fs filename watch)) = Raise e ->
  fst (compile_all yaml_load (done ++ bad :: rest) st) = Raise e
  /\ (forall rule_id, rule_id ∈ done ->
      files (snd (compile_all yaml_load (done ++ bad :: rest) st))
        !! output_name (fst (Path.splitext filename)) rule_id
      = files (snd (compile yaml_load rule_id (initial fs filename watch)))
          !! output_name (fst (Path.splitext filename)) rule_id)
  /\ (forall f,
        (forall rule_id, rule_id ∈ done ->
           f <> output_name (fst (Path.splitext filename)) rule_id) ->
        files (snd (compile_all yaml_load (done ++ bad :: rest) st)) !! f
        = files st !! f).
Proof.
  intros Hkept Hdone Hbad. revert st Hkept.
  induction Hdone as [|r rs Hr _ IH]; intros st Hkept.
  - cbn [app]. rewrite compile_all_cons.
    destruct (compile_kept yaml_load fs filename watch bad st Hkept)
      as (Hres & _ & _ & _ & Hsame).
    rewrite Hres, Hbad. cbn [fst snd].
    split; [reflexivity|]. split; [intros id Hin; inversion Hin|].
    intros f _. now rewrite (Hsame e Hbad).
  - cbn [app]. rewrite compile_all_cons.
    destruct (compile_kept yaml_load fs filename watch r st Hkept)
      as (Hres & Hkept' & Hframe & Hout & _).
    rewrite Hres, Hr.
    destruct (IH _ Hkept') as (Hfail & Houts & Hothers).
    split; [exact Hfail|]. split.
    + intros id Hin.
      destruct (decide (id ∈ rs)) as [Hrs|Hrs]; [now apply Houts|].
      apply elem_of_cons in Hin as [-> | Hin]; [|contradiction].
      rewrite Hothers; [now apply Hout|].
      intros id' Hid' E. unfold output_name in E.
      apply (inj (String.app _)) in E. injection E as E.
      apply app_inv_tail_string in E. now subst.
    + intros f Hf. rewrite Hothers.
      * apply Hframe, Hf. now left.
      * intros id Hid. apply Hf. now right.
Qed.

(** X13. [main] stops at the first rule identifier whose compilation
    raises: it raises the same exception, the identifiers before it have
    their outputs, and no other file is touched, so the identifiers after
    it are not compiled. *)
Theorem main_stops_at_first_failure (yaml_load : string -> option (list Rule))
    (fs : gmap string string) (filename : string) (watch : bool)
    (done : list string) (bad : string) (rest : list string) (e : exn) :
  Forall (fun rule_id =>
            fst (compile yaml_load rule_id (initial fs filename watch)) = Ok tt)
         done ->
  fst (compile yaml_load bad (initial fs filename watch)) = Raise e ->
  fst (main yaml_load fs filename (done ++ bad :: rest) watch) = Raise e
  /\ (forall rule_id, rule_id ∈ done ->
      files (snd (main yaml_load fs filename (done ++ bad :: rest) watch))
        !! output_name (fst (Path.splitext filename)) rule_id
      = files (snd (compile yaml_load rule_id (initial fs filename watch)))
          !! output_name (fst (Path.splitext filename)) rule_id)
  /\ (forall f,
        (forall rule_id, rule_id ∈ done ->
           f <> output_name (fst (Path.splitext filename)) rule_id) ->
        files (snd (main yaml_load fs filename (done ++ bad :: rest) watch)) !! f
        = fs !! f).
Proof.
  intros Hdone Hbad. unfold main.
  apply (compile_all_fail yaml_load fs filename watch done bad rest e _
           (kept_initial fs filename watch) Hdone Hbad).
Qed.

Lemma main_stops_at_first_failure_witness :
  fst (main two_docs_loader two_docs_fs "model.gcode" ["a"; "c"; "b"] false)
  = Raise (ValueError "The layer number [2] cannot be more than count layers")
  /\ files (snd (main two_docs_loader two_docs_fs "model.gcode" ["a"; "c"; "b"] false))
       !! "model[b].gcode" = None
  /\ files (snd (main two_docs_loader two_docs_fs "model.gcode" ["a"; "c"; "b"] false))
       !! "model[a].gcode"
     = Some (";LAYER_COUNT:2" +:+ nl +:+ ";LAYER:0" +:+ nl +:+ "M0" +:+ nl
             +:+ "A" +:+ nl +:+ ";LAYER:1" +:+ nl +:+ "B" +:+ nl).
Proof.
  destruct (main_stops_at_first_failure two_docs_loader two_docs_fs "model.gcode"
              false ["a"] "c" ["b"]
              (ValueError "The layer number [2] cannot be more than count layers")
              ltac:(repeat constructor) eq_refl)
    as (Hres & Houts & Hothers).
  split; [exact Hres|]. split.
  - refine (eq_trans (Hothers "model[b].gcode" _) _); [|reflexivity].
    intros id Hin. apply list_elem_of_singleton in Hin. subst. discriminate.
  - refine (eq_trans (Houts "a" _) _); [repeat constructor | reflexivity].
Defined.

(** * Further properties of the watcher *)

Module WatcherMore.
Import WatcherFacts.

(** A thread that has ended stays as it is and emits nothing. *)
Lemma exec_finished (schedule : list action) (sh : Shared) (th : Thread) :
  finished th = true ->
  snd (fst (exec schedule (sh, th))) = th /\ snd (exec schedule (sh, th)) = [].
Proof.
  intros Hfin. revert sh; induction schedule as [|a rest IH]; intros sh.
  - now split.
  - rewrite exec_cons. cbn [fst snd].
    assert (exists sh', act a (sh, th) = ((sh', th), [])) as [sh' ->].
    { destruct a as [r| |x|m]; cbn [act]; try (eexists; reflexivity).
      unfold step. unfold finished in Hfin.
      destruct (at_pc th); try discriminate; eexists; reflexivity. }
    cbn [fst snd app]. apply IH.
Qed.

(** Only [Remember] changes the list, and it only adds at the end. *)
Lemma act_ids (a : action) (s : Shared * Thread) :
  exists added, ids (fst (fst (act a s))) = ids (fst s) ++ added.
Proof.
  destruct s as [sh th]. destruct a as [r| |x|m]; cbn [act fst].
  - destruct (step r sh th). exists []. now rewrite app_nil_r.
  - exists []. now rewrite app_nil_r.
  - cbn [ids]. destruct (bool_decide (x ∈ ids sh)).
    + exists []. now rewrite app_nil_r.
    + now exists [x].
  - exists []. now rewrite app_nil_r.
Qed.

Lemma exec_ids (schedule : list action) (s : Shared * Thread) :
  exists added, ids (fst (fst (exec schedule s))) = ids (fst s) ++ added.
Proof.
  revert s; induction schedule as [|a rest IH]; intros s.
  - exists []. now rewrite app_nil_r.
  - rewrite exec_cons. cbn [fst].
    destruct (act_ids a s) as [added1 H1].
    destruct (IH (fst (act a s))) as [added2 H2].
    exists (added1 ++ added2). now rewrite H2, H1, app_assoc.
Qed.

(** The first steps of the loop: [k] calls. *)
Lemma loop_partial (sh : Shared) (done rest : list string) (k : nat)
    (m : Z) (t : option Z) :
  ids sh = done ++ rest -> (k <= length rest)%nat ->
  exec (repeat (Tick true) k)
       (sh, {| at_pc := InLoop m (length done); started_time := t |})
  = ((sh, {| at_pc := InLoop m (length done + k); started_time := t |}),
     map Call (take k rest)).
Proof.
  revert done rest; induction k as [|k IH]; intros done rest Hids Hk.
  - cbn [repeat exec take map]. now rewrite Nat.add_0_r.
  - destruct rest as [|x rest]; [simpl in Hk; lia|].
    assert (act (Tick true)
              (sh, {| at_pc := InLoop m (length done); started_time := t |})
            = ((sh, {| at_pc := InLoop m (length (done ++ [x]));
                       started_time := t |}), [Call x])) as Hact.
    { cbn [act]. unfold step. cbn [at_pc started_time].
      rewrite Hids, list_lookup_middle by reflexivity.
      rewrite length_app. cbn [length].
      now replace (length done + 1)%nat with (S (length done)) by lia. }
    assert (ids sh = (done ++ [x]) ++ rest) as Hids'
      by (rewrite Hids, <- app_assoc; reflexivity).
    assert (k <= length rest)%nat as Hk' by (simpl in Hk; lia).
    cbn [repeat]. rewrite exec_cons, Hact. cbn [fst snd].
    rewrite (IH (done ++ [x]) rest Hids' Hk').
    cbn [fst snd take map app]. rewrite length_app. cbn [length].
    now replace (length done + 1 + k)%nat with (length done + S k)%nat by lia.
Qed.

End WatcherMore.

(** X14. A callback that raises ends the thread: in a round started for a
    newer file, with the callbacks of the first identifiers returning and
    the next one raising, the identifiers after it are not called, the
    recorded time is not advanced, and whatever happens later the thread
    emits nothing more. *)
Theorem raising_callback_ends_thread (sh : Shared) (done : list string)
    (bad : string) (rest : list string) (t m : Z) (later : list action) :
  ids sh = done ++ bad :: rest ->
  stopped sh = false ->
  mtime sh = Some m ->
  t < m ->
  snd (exec (repeat (Tick true) (2 + length done) ++ Tick false :: later)
         (sh, {| at_pc := AtCheck; started_time := Some t |}))
  = map Call (done ++ [bad])
  /\ snd (fst (exec (repeat (Tick true) (2 + length done) ++ Tick false :: later)
                 (sh, {| at_pc := AtCheck; started_time := Some t |})))
     = {| at_pc := Crashed; started_time := Some t |}.
Proof.
  intros Hids Hstop Hm Hlt. apply Z.ltb_lt in Hlt.
  rewrite WatcherFacts.exec_app, repeat_app, WatcherFacts.exec_app.
  assert (exec (repeat (Tick true) 2)
            (sh, {| at_pc := AtCheck; started_time := Some t |})
          = ((sh, {| at_pc := InLoop m 0; started_time := Some t |}), [])) as ->.
  { cbn [repeat]. do 2 tick Hstop Hm Hlt. reflexivity. }
  cbn [fst snd app].
  pose proof (WatcherMore.loop_partial sh [] (done ++ bad :: rest) (length done)
                m (Some t) Hids) as Hloop.
  rewrite length_app in Hloop. specialize (Hloop ltac:(lia)).
  cbn [length Nat.add] in Hloop. rewrite Hloop. cbn [fst snd].
  rewrite take_app_length.
  rewrite WatcherFacts.exec_cons.
  assert (act (Tick false)
            (sh, {| at_pc := InLoop m (length done); started_time := Some t |})
          = ((sh, {| at_pc := Crashed; started_time := Some t |}), [Call bad])) as ->.
  { cbn [act]. unfold step. cbn [at_pc started_time].
    now rewrite Hids, list_lookup_middle by reflexivity. }
  cbn [fst snd].
  destruct (WatcherMore.exec_finished later sh
              {| at_pc := Crashed; started_time := Some t |} eq_refl) as [-> ->].
  split; [|reflexivity]. now rewrite map_app, app_nil_r.
Qed.

Lemma raising_callback_ends_thread_witness :
  snd (exec (repeat (Tick true) 3 ++ [Tick false; Tick true; Touch (Some 9); Tick true])
         ({| stopped := false; ids := ["a"; "b"; "c"]; mtime := Some 2 |},
          {| at_pc := AtCheck; started_time := Some 1 |}))
  = [Call "a"; Call "b"]
  /\ snd (fst (exec (repeat (Tick true) 3
                     ++ [Tick false; Tick true; Touch (Some 9); Tick true])
                 ({| stopped := false; ids := ["a"; "b"; "c"]; mtime := Some 2 |},
                  {| at_pc := AtCheck; started_time := Some 1 |})))
     = {| at_pc := Crashed; started_time := Some 1 |}.
Proof.
  apply (raising_callback_ends_thread
           {| stopped := false; ids := ["a"; "b"; "c"]; mtime := Some 2 |}
           ["a"] "b" ["c"] 1 2 [Tick true; Touch (Some 9); Tick true]);
    (reflexivity || lia).
Defined.

Lemma head_not_call (schedule : list action) (sh : Shared) (th : Thread) :
  before_first_call th ->
  snd (exec schedule (sh, th)) = []
  \/ exists evs, snd (exec schedule (sh, th)) = Sleep :: evs.
Proof.
  revert sh th; induction schedule as [|a rest IH]; intros sh th Hb; [now left|].
  rewrite WatcherFacts.exec_cons. cbn [snd].
  destruct a as [r| |x|m]; cbn [act fst snd app]; try (now apply IH).
  destruct Hb as [Hfin | [Hsleep | [Hnone Hpc]]].
  - unfold step. unfold finished in Hfin.
    destruct (at_pc th) eqn:Hpc; try discriminate; cbn [fst snd app];
      apply IH; left; unfold finished; now rewrite Hpc.
  - unfold step. rewrite Hsleep. cbn [fst snd app]. right. now eexists.
  - unfold step. destruct Hpc as [Hpc|Hpc]; rewrite Hpc.
    + destruct (stopped sh); cbn [fst snd app]; apply IH.
      * now left.
      * right. right. cbn [started_time at_pc]. split; [exact Hnone | now right].
    + rewrite Hnone. destruct (mtime sh); cbn [fst snd app]; apply IH.
      * right. now left.
      * now left.
Qed.

(** X15. Whatever the other threads do and however the steps interleave,
    a thread does not call back before it has slept once: its first
    observation of the file never triggers a recompilation. *)
Theorem no_call_before_first_sleep (schedule : list action) (sh : Shared) :
  snd (exec schedule (sh, init)) = []
  \/ exists evs, snd (exec schedule (sh, init)) = Sleep :: evs.
Proof.
  apply head_not_call. right. right. split; [reflexivity | now left].
Qed.

Lemma step_call (returns : bool) (sh : Shared) (th : Thread) (rule_id : string) :
  Call rule_id ∈ snd (step returns sh th) -> rule_id ∈ ids sh.
Proof.
  unfold step. destruct (at_pc th) as [| |m i| | |].
  - destruct (stopped sh); cbn [snd]; intros H; inversion H.
  - destruct (mtime sh) as [m|]; [destruct (started_time th) as [t|];
      [destruct (t <? m)|]|]; cbn [snd]; intros H; inversion H.
  - destruct (ids sh !! i) as [y|] eqn:Hi; [destruct returns|]; cbn [snd]; intros H.
    + apply list_elem_of_singleton in H. injection H as ->.
      now apply list_elem_of_lookup_2 in Hi.
    + apply list_elem_of_singleton in H. injection H as ->.
      now apply list_elem_of_lookup_2 in Hi.
    + inversion H.
  - cbn [snd]. intros H. apply list_elem_of_singleton in H. discriminate.
  - cbn [snd]. intros H. inversion H.
  - cbn [snd]. intros H. inversion H.
Qed.

(** X16. Every call is for an identifier of the list: whatever the
    interleaving, the identifiers the thread has called are all in the
    list at the end. *)
Theorem calls_are_known_ids (schedule : list action) (sh : Shared) (th : Thread)
    (rule_id : string) :
  Call rule_id ∈ snd (exec schedule (sh, th)) ->
  rule_id ∈ ids (fst (fst (exec schedule (sh, th)))).
Proof.
  revert sh th; induction schedule as [|a rest IH]; intros sh th Hin.
  - inversion Hin.
  - rewrite WatcherFacts.exec_cons in Hin |- *. cbn [fst snd] in *.
    apply elem_of_app in Hin as [Hin|Hin].
    + destruct (WatcherMore.exec_ids rest (fst (act a (sh, th)))) as [added ->].
      apply elem_of_app. left.
      destruct a as [r| |x|m]; cbn [act snd] in Hin; try (now inversion Hin).
      cbn [act]. destruct (step r sh th) as [th' evs] eqn:Hstep.
      cbn [fst snd] in *. apply (step_call r sh th). now rewrite Hstep.
    + destruct (act a (sh, th)) as [[sh' th'] evs]. cbn [fst snd] in *.
      now apply IH.
Qed.

(** X17. A rule identifier recorded while the thread is in the middle of
    its loop is called in the same round: the loop runs over the list as
    it is when each step is taken. *)
Theorem remembered_in_loop_is_called (sh : Shared) (done rest : list string)
    (new_id : string) (k : nat) (m : Z) (t : option Z) :
  ids sh = done ++ rest ->
  new_id ∉ ids sh ->
  (k <= length rest)%nat ->
  exec (repeat (Tick true) k ++ Remember new_id
          :: repeat (Tick true) (length rest - k + 2))
       (sh, {| at_pc := InLoop m (length done); started_time := t |})
  = (({| stopped := stopped sh; ids := ids sh ++ [new_id]; mtime := mtime sh |},
      {| at_pc := AtSleep; started_time := Some m |}),
     map Call (rest ++ [new_id])).
Proof.
  intros Hids Hnew Hk.
  rewrite WatcherFacts.exec_app, (WatcherMore.loop_partial sh done rest k m t Hids Hk).
  cbn [fst snd]. rewrite WatcherFacts.exec_cons. cbn [act fst snd app].
  rewrite (bool_decide_eq_false_2 _ Hnew).
  set (sh' := {| stopped := stopped sh; ids := ids sh ++ [new_id];
                 mtime := mtime sh |}).
  assert (ids sh' = (done ++ take k rest) ++ (skipn k rest ++ [new_id])) as Hids'.
  { cbn [sh' ids]. rewrite Hids, <- !app_assoc. f_equal.
    now rewrite (app_assoc (take k rest)), take_drop. }
  pose proof (WatcherFacts.loop_ticks sh' (done ++ take k rest)
                (skipn k rest ++ [new_id]) m t Hids') as Hloop.
  rewrite !length_app, length_take, length_drop in Hloop. cbn [length] in Hloop.
  replace (length done + k `min` length rest)%nat with (length done + k)%nat
    in Hloop by lia.
  replace (length rest - k + 1 + 1)%nat with (length rest - k + 2)%nat
    in Hloop by lia.
  rewrite Hloop. cbn [fst snd]. f_equal.
  rewrite <- map_app. f_equal.
  now rewrite app_assoc, take_drop.
Qed.

Lemma remembered_in_loop_is_called_witness :
  exec [Tick true; Remember "c"; Tick true; Tick true; Tick true]
       ({| stopped := false; ids := ["a"; "b"]; mtime := Some 2 |},
        {| at_pc := InLoop 2 0; started_time := Some 1 |})
  = (({| stopped := false; ids := ["a"; "b"; "c"]; mtime := Some 2 |},
      {| at_pc := AtSleep; started_time := Some 2 |}),
     [Call "a"; Call "b"; Call "c"]).
Proof.
  apply (remembered_in_loop_is_called
           {| stopped := false; ids := ["a"; "b"]; mtime := Some 2 |}
           [] ["a"; "b"] "c" 1 2 (Some 1)).
  - reflexivity.
  - cbn [ids]. intros H. repeat (apply elem_of_cons in H as [H|H]; [discriminate|]).
    inversion H.
  - simpl. lia.
Defined.

Lemma step_sane (returns : bool) (sh : Shared) (th : Thread) :
  sane th -> sane (fst (step returns sh th)).
Proof.
  unfold step, sane. destruct (at_pc th) as [| |m i| | |] eqn:Hpc; intros Hs.
  - now destruct (stopped sh).
  - destruct (mtime sh) as [m|]; [|exact I].
    destruct (started_time th) as [t|]; [|exact I].
    destruct (Z.ltb_spec t m); cbn [fst at_pc started_time]; [|exact I].
    now exists t.
  - destruct (ids sh !! i); [destruct returns|]; cbn [fst at_pc started_time];
      (exact Hs || exact I).
  - exact I.
  - cbn [fst]. now rewrite Hpc.
  - cbn [fst]. now rewrite Hpc.
Qed.

Lemma step_time (returns : bool) (sh : Shared) (th : Thread) (t : Z) :
  sane th -> started_time th = Some t ->
  exists t', started_time (fst (step returns sh th)) = Some t' /\ t <= t'.
Proof.
  unfold step, sane. destruct (at_pc th) as [| |m i| | |]; intros Hs Ht.
  - destruct (stopped sh); cbn [fst started_time]; exists t; split; (assumption || lia).
  - destruct (mtime sh) as [m|]; [|exists t; split; (assumption || lia)].
    rewrite Ht. destruct (t <? m); cbn [fst started_time];
      exists t; split; (reflexivity || lia).
  - destruct Hs as (t0 & Ht0 & Hlt). rewrite Ht in Ht0. injection Ht0 as <-.
    destruct (ids sh !! i); [destruct returns|]; cbn [fst started_time].
    + exists t. split; (assumption || lia).
    + exists t. split; (assumption || lia).
    + exists m. split; (reflexivity || lia).
  - exists t. split; (assumption || lia).
  - exists t. split; (assumption || lia).
  - exists t. split; (assumption || lia).
Qed.

Lemma exec_time (schedule : list action) (sh : Shared) (th : Thread) (t : Z) :
  sane th -> started_time th = Some t ->
  exists t', started_time (snd (fst (exec schedule (sh, th)))) = Some t' /\ t <= t'.
Proof.
  revert sh th t; induction schedule as [|a rest IH]; intros sh th t Hs Ht.
  - exists t. split; [exact Ht | lia].
  - rewrite WatcherFacts.exec_cons. cbn [fst].
    destruct a as [r| |x|m]; cbn [act]; try (now apply IH).
    pose proof (step_sane r sh th Hs) as Hs'.
    destruct (step_time r sh th t Hs Ht) as (t1 & Ht1 & Hle).
    destruct (step r sh th) as [th' evs]. cbn [fst] in *.
    destruct (IH sh th' t1 Hs' Ht1) as (t' & Ht' & Hle').
    exists t'. split; [exact Ht' | lia].
Qed.

Lemma exec_sane (schedule : list action) (sh : Shared) (th : Thread) :
  sane th -> sane (snd (fst (exec schedule (sh, th)))).
Proof.
  revert sh th; induction schedule as [|a rest IH]; intros sh th Hs; [exact Hs|].
  rewrite WatcherFacts.exec_cons. cbn [fst].
  destruct a as [r| |x|m]; cbn [act]; try (now apply IH).
  pose proof (step_sane r sh th Hs) as Hs'.
  destruct (step r sh th) as [th' evs]. now apply IH.
Qed.

(** X18. The recorded modification time never goes back: along any run of
    a thread, whatever the interleaving, a time once recorded is only ever
    replaced by a later or equal one. *)
Theorem recorded_time_never_decreases (before after : list action)
    (sh : Shared) (t : Z) :
  started_time (snd (fst (exec before (sh, init)))) = Some t ->
  exists t',
    started_time (snd (fst (exec (before ++ after) (sh, init)))) = Some t'
    /\ t <= t'.
Proof.
  intros Ht. rewrite WatcherFacts.exec_app. cbn [fst].
  pose proof (exec_sane before sh init I) as Hs.
  destruct (exec before (sh, init)) as [[sh1 th1] evs1]. cbn [fst snd] in *.
  now apply exec_time.
Qed.

Lemma recorded_time_never_decreases_witness :
  exists t',
    started_time
      (snd (fst (exec ([Tick true; Tick true]
                       ++ [Tick true; Touch (Some 3); Tick true; Tick true; Tick true])
                   ({| stopped := false; ids := []; mtime := Some 7 |}, init))))
    = Some t' /\ 7 <= t'.
Proof.
  apply (recorded_time_never_decreases [Tick true; Tick true]
           [Tick true; Touch (Some 3); Tick true; Tick true; Tick true]
           {| stopped := false; ids := []; mtime := Some 7 |} 7).
  reflexivity.
Defined.

Lemma step_idle (returns : bool) (sh : Shared) (th : Thread) (t : Z) :
  idle th -> started_time th = Some t ->
  (forall m, mtime sh = Some m -> m <= t) ->
  snd (step returns sh th) = [] \/ snd (step returns sh th) = [Sleep].
Proof.
  unfold step, idle. destruct (at_pc th) as [| |m i| | |]; intros Hi Ht Hm;
    try contradiction.
  - left. now destruct (stopped sh).
  - left. destruct (mtime sh) as [m|]; [|reflexivity].
    rewrite Ht. now destruct (t <? m).
  - now right.
  - now left.
  - now left.
Qed.

Lemma step_stays_idle (returns : bool) (sh : Shared) (th : Thread) (t : Z) :
  idle th -> started_time th = Some t ->
  (forall m, mtime sh = Some m -> m <= t) ->
  idle (fst (step returns sh th)) /\ started_time (fst (step returns sh th)) = Some t.
Proof.
  unfold step, idle. destruct (at_pc th) as [| |m i| | |] eqn:Hpc; intros Hi Ht Hm;
    try contradiction.
  - now destruct (stopped sh).
  - destruct (mtime sh) as [m|]; [|now split].
    rewrite Ht. specialize (Hm m eq_refl).
    destruct (Z.ltb_spec t m); [lia | now split].
  - now split.
  - cbn [fst]. now rewrite Hpc.
  - cbn [fst]. now rewrite Hpc.
Qed.

(** X19. Without a newer file there is no recompilation: for a thread
    outside its loop with a recorded time [t], as long as the modification
    time of the file stays at or below [t], whatever else happens (stop
    requests, new rule identifiers, the file removed), no callback is
    called. *)
Theorem no_calls_without_newer_time (schedule : list action) (sh : Shared)
    (th : Thread) (t : Z) (rule_id : string) :
  idle th ->
  started_time th = Some t ->
  (forall m, mtime sh = Some m -> m <= t) ->
  Forall (fun a => forall m, a = Touch (Some m) -> m <= t) schedule ->
  Call rule_id ∉ snd (exec schedule (sh, th)).
Proof.
  intros Hi Ht Hm Hsched. revert sh th Hi Ht Hm.
  induction Hsched as [|a rest Ha _ IH]; intros sh th Hi Ht Hm Hin.
  - inversion Hin.
  - rewrite WatcherFacts.exec_cons in Hin. cbn [snd] in Hin.
    apply elem_of_app in Hin as [Hin|Hin].
    + destruct a as [r| |x|m]; cbn [act snd] in Hin; try (now inversion Hin).
      destruct (step r sh th) as [th' evs] eqn:Hstep. cbn [snd] in Hin.
      pose proof (step_idle r sh th t Hi Ht Hm) as He.
      rewrite Hstep in He. cbn [snd] in He.
      destruct He as [-> | ->]; [inversion Hin|].
      apply list_elem_of_singleton in Hin. discriminate.
    + destruct a as [r| |x|m]; cbn [act fst] in Hin.
      * destruct (step_stays_idle r sh th t Hi Ht Hm) as [Hi' Ht'].
        destruct (step r sh th) as [th' evs]. cbn [fst] in *.
        exact (IH sh th' Hi' Ht' Hm Hin).
      * refine (IH _ th Hi Ht _ Hin). exact Hm.
      * refine (IH _ th Hi Ht _ Hin). exact Hm.
      * refine (IH _ th Hi Ht _ Hin). cbn [mtime]. intros m' ->. now apply Ha.
Qed.

Lemma no_calls_without_newer_time_witness :
  Call "a" ∉ snd (exec [Tick true; Touch (Some 4); Tick true; Remember "b";
                         Tick true; Touch None; Tick true; Tick true]
                    ({| stopped := false; ids := ["a"]; mtime := Some 5 |},
                     {| at_pc := AtCheck; started_time := Some 5 |})).
Proof.
  apply (no_calls_without_newer_time
           [Tick true; Touch (Some 4); Tick true; Remember "b";
            Tick true; Touch None; Tick true; Tick true]
           {| stopped := false; ids := ["a"]; mtime := Some 5 |}
           {| at_pc := AtCheck; started_time := Some 5 |} 5 "a").
  - exact I.
  - reflexivity.
  - cbn [mtime]. intros m [= <-]. lia.
  - repeat constructor; intros m H; try discriminate. injection H as <-. lia.
Defined.

(** * Further properties of the source reader *)

(** X20. The sentinel is recognised anywhere in a line that has no colon
    before it, and of what follows it only the text up to the next colon
    or the end of the line counts. *)
Theorem sentinel_found_anywhere (before after : string) (n : Z) :
  all_chars (differs ":") before = true ->
  scan_line (before +:+ ";LAYER_COUNT:" +:+ py_str n +:+ nl) = Some n
  /\ scan_line (before +:+ ";LAYER_COUNT:" +:+ py_str n +:+ ":" +:+ after) = Some n.
Proof.
  intros Hb.
  assert (all_chars (differs ":") (before +:+ ";LAYER_COUNT") = true) as Hb'.
  { now rewrite TextFacts.all_chars_app, Hb. }
  assert (forall tail,
            before +:+ ";LAYER_COUNT:" +:+ tail
            = (before +:+ ";LAYER_COUNT") +:+ String ":" tail) as Hshape.
  { intros tail. now rewrite TextFacts.app_assoc. }
  assert (forall tail,
            contains ";LAYER_COUNT:" (before +:+ ";LAYER_COUNT:" +:+ tail) = true)
    as Hcont.
  { intros tail. apply TextFacts.contains_app_r, TextFacts.contains_prefix,
      TextFacts.prefix_app. }
  split; unfold scan_line; rewrite Hcont, Hshape, ScanFacts.split_on_sep by exact Hb'.
  - rewrite ScanFacts.split_on_absent.
    + apply PyIntFacts.py_int_py_str. now right.
    + rewrite TextFacts.all_chars_app. now rewrite PyIntFacts.py_str_differs.
  - change (py_str n +:+ ":" +:+ after) with (py_str n +:+ String ":" after).
    rewrite ScanFacts.split_on_sep by (now apply PyIntFacts.py_str_differs).
    rewrite <- (TextFacts.app_nil_r (py_str n)).
    destruct (split_on ":" after);
      apply PyIntFacts.py_int_py_str; now left.
Qed.

Lemma sentinel_found_anywhere_witness :
  scan_line ("G1 X0 ;LAYER_COUNT:12" +:+ nl) = Some 12
  /\ scan_line ("G1 X0 ;LAYER_COUNT:12:34:x") = Some 12.
Proof.
  apply (sentinel_found_anywhere "G1 X0 " "34:x" 12). reflexivity.
Defined.

Lemma scan_app_lines (a b : list string) :
  scan (a ++ b) = match scan b with Some n => Some n | None => scan a end.
Proof.
  unfold scan. rewrite fold_left_app.
  generalize (fold_left
                (fun count code_line =>
                   match scan_line code_line with
                   | Some n => Some n
                   | None => count
                   end) a None).
  induction b as [|l ls IH] using rev_ind; intros c; [reflexivity|].
  rewrite !fold_left_app. cbn [fold_left].
  destruct (scan_line l); [reflexivity|]. apply IH.
Qed.

(** X21. The count of a text made of two parts, the first ending with a
    line break, is the count of the second part when that part declares
    one, and the count of the first part otherwise: a later declaration
    overrides an earlier one, and text without declaration changes
    nothing. *)
Theorem scan_of_two_parts (a b : string) :
  last_char a = Some NL ->
  scan (readlines (a +:+ b))
  = match scan (readlines b) with
    | Some n => Some n
    | None => scan (readlines a)
    end.
Proof.
  intros Ha. rewrite (LineFacts.readlines_app_closed a b Ha).
  apply scan_app_lines.
Qed.

Lemma scan_of_two_parts_witness :
  scan (readlines ((";LAYER_COUNT:2" +:+ nl) +:+ (";LAYER:0" +:+ nl))) = Some 2.
Proof.
  rewrite (scan_of_two_parts (";LAYER_COUNT:2" +:+ nl) (";LAYER:0" +:+ nl) eq_refl).
  reflexivity.
Defined.

(** * A round of the watcher with [compile] as its callback *)

Lemma compile_known_rule_id (yaml_load : string -> option (list Rule))
    (rule_id : string) (st : State) :
  rule_id ∈ rule_ids (self st) ->
  rule_ids (self (snd (compile yaml_load rule_id st))) = rule_ids (self st).
Proof.
  intros Hin. destruct (compile_rule_ids yaml_load rule_id st) as [-> _].
  unfold remembered. destruct (watcher (self st)); [|reflexivity].
  now rewrite (bool_decide_eq_true_2 _ Hin).
Qed.

Lemma compile_all_known_rule_ids (yaml_load : string -> option (list Rule))
    (rules : list string) (st : State) :
  Forall (fun rule_id => rule_id ∈ rule_ids (self st)) rules ->
  rule_ids (self (snd (compile_all yaml_load rules st))) = rule_ids (self st).
Proof.
  revert st; induction rules as [|r rs IH]; intros st Hall; [reflexivity|].
  apply Forall_cons in Hall as [Hr Hrs].
  rewrite compile_all_cons.
  pose proof (compile_known_rule_id yaml_load r st Hr) as Hsame.
  destruct (fst (compile yaml_load r st)); [|exact Hsame].
  rewrite IH; [exact Hsame|]. now rewrite Hsame.
Qed.

(** X22. A round of recompilation, [compile] being the callback: when
    every known rule identifier compiles on its own against the files as
    they are now, the round returns normally, every identifier's output
    holds what compiling it alone would write (so all outputs follow the
    new source), no other file is touched, and the list of identifiers is
    unchanged. *)
Theorem round_refreshes_outputs (yaml_load : string -> option (list Rule))
    (st : State) :
  output_filename (self st) = None
  \/ output_filename (self st)
     = Some (fst (Path.splitext (code_filename (self st)))) ->
  Forall (fun rule_id =>
            fst (compile yaml_load rule_id
                   (initial (files st) (code_filename (self st)) (watcher (self st))))
            = Ok tt)
         (rule_ids (self st)) ->
  fst (recompile_round yaml_load st) = Ok tt
  /\ (forall rule_id, rule_id ∈ rule_ids (self st) ->
      files (snd (recompile_round yaml_load st))
        !! output_name (fst (Path.splitext (code_filename (self st)))) rule_id
      = files (snd (compile yaml_load rule_id
                      (initial (files st) (code_filename (self st))
                         (watcher (self st)))))
          !! output_name (fst (Path.splitext (code_filename (self st)))) rule_id)
  /\ (forall f,
        (forall rule_id, rule_id ∈ rule_ids (self st) ->
           f <> output_name (fst (Path.splitext (code_filename (self st)))) rule_id) ->
        files (snd (recompile_round yaml_load st)) !! f = files st !! f)
  /\ rule_ids (self (snd (recompile_round yaml_load st))) = rule_ids (self st).
Proof.
  intros Hdefault Hall. unfold recompile_round.
  assert (kept (files st) (code_filename (self st)) st) as Hkept.
  { repeat split. unfold output_stem. now destruct Hdefault as [-> | ->]. }
  destruct (compile_all_ok yaml_load (files st) (code_filename (self st))
              (watcher (self st)) (rule_ids (self st)) st Hkept Hall)
    as (Hok & _ & Houts & Hothers).
  split; [exact Hok|]. split; [exact Houts|]. split; [exact Hothers|].
  apply compile_all_known_rule_ids. now apply Forall_forall.
Qed.

Lemma round_refreshes_outputs_witness :
  fst (recompile_round two_docs_loader watched_state) = Ok tt
  /\ files (snd (recompile_round two_docs_loader watched_state)) !! "model[a].gcode"
     = Some (";LAYER_COUNT:2" +:+ nl +:+ ";LAYER:0" +:+ nl +:+ "M0" +:+ nl
             +:+ "C" +:+ nl +:+ ";LAYER:1" +:+ nl +:+ "D" +:+ nl)
  /\ files (snd (recompile_round two_docs_loader watched_state)) !! "model[b].gcode"
     = Some (";LAYER_COUNT:2" +:+ nl +:+ ";LAYER:0" +:+ nl
             +:+ "C" +:+ nl +:+ ";LAYER:1" +:+ nl +:+ "M1" +:+ nl +:+ "D" +:+ nl).
Proof.
  assert (Forall (fun rule_id =>
                    fst (compile two_docs_loader rule_id
                           (initial (files watched_state) "model.gcode" true))
                    = Ok tt) ["a"; "b"]) as Hall by (repeat constructor).
  destruct (round_refreshes_outputs two_docs_loader watched_state
              (or_intror eq_refl) Hall) as (Hok & Houts & _).
  split; [exact Hok|]. split.
  - refine (eq_trans (Houts "a" _) _); [repeat constructor | reflexivity].
  - refine (eq_trans (Houts "b" _) _); [repeat constructor | reflexivity].
Defined.

(** X23. A source file that is missing when the thread looks at it ends
    the thread: the exception of [os.stat] leaves [run], nothing is
    called, and whatever happens later (the file coming back, new rule
    identifiers) the thread stays ended and emits nothing. *)
Theorem missing_file_ends_thread (sh : Shared) (started : option Z)
    (later : list action) :
  stopped sh = false ->
  mtime sh = None ->
  snd (exec (Tick true :: Tick true :: later)
         (sh, {| at_pc := AtCheck; started_time := started |})) = []
  /\ snd (fst (exec (Tick true :: Tick true :: later)
                 (sh, {| at_pc := AtCheck; started_time := started |})))
     = {| at_pc := Crashed; started_time := started |}.
Proof.
  intros Hstop Hm. do 2 tick Hstop Hm Hm.
  destruct (WatcherMore.exec_finished later sh
              {| at_pc := Crashed; started_time := started |} eq_refl) as [-> ->].
  now split.
Qed.

Lemma missing_file_ends_thread_witness :
  snd (exec [Tick true; Tick true; Touch (Some 9); Tick true; Tick true]
         ({| stopped := false; ids := ["a"]; mtime := None |},
          {| at_pc := AtCheck; started_time := Some 1 |})) = []
  /\ snd (fst (exec [Tick true; Tick true; Touch (Some 9); Tick true; Tick true]
                 ({| stopped := false; ids := ["a"]; mtime := None |},
                  {| at_pc := AtCheck; started_time := Some 1 |})))
     = {| at_pc := Crashed; started_time := Some 1 |}.
Proof.
  apply (missing_file_ends_thread
           {| stopped := false; ids := ["a"]; mtime := None |} (Some 1)
           [Touch (Some 9); Tick true; Tick true]); reflexivity.
Defined.

(** Concrete instances of the properties stated with an implication
    inside. *)

Lemma validate_outcome_witness :
  validate (Some 3) [ {| layer := -1; code := "M0" |}; {| layer := 2; code := "M1" |} ]
  = Ok tt.
Proof.
  apply (proj2 (validate_outcome 3
                  [ {| layer := -1; code := "M0" |}; {| layer := 2; code := "M1" |} ])).
  repeat constructor.
Defined.

Lemma output_names_are_safe_witness :
  output_name "model" "a" <> "model.gcode"
  /\ output_name "model" "a" <> rules_filename "a"
  /\ "a" = "a".
Proof.
  split; [|split].
  - apply (proj1 output_names_are_safe "model.gcode" "a").
  - apply (proj1 (proj2 output_names_are_safe) "model" "a" "a").
  - apply (proj2 (proj2 output_names_are_safe) "model" "a" "a"). reflexivity.
Defined.

Lemma calls_are_known_ids_witness :
  "b" ∈ ids (fst (fst (exec [Tick true; Tick true; Tick true; Remember "b";
                             Tick true; Tick true]
                         ({| stopped := false; ids := ["a"]; mtime := Some 2 |},
                          {| at_pc := AtCheck; started_time := Some 1 |})))).
Proof.
  apply (calls_are_known_ids
           [Tick true; Tick true; Tick true; Remember "b"; Tick true; Tick true]
           {| stopped := false; ids := ["a"]; mtime := Some 2 |}
           {| at_pc := AtCheck; started_time := Some 1 |} "b").
  vm_compute. repeat constructor.
Defined.
